(** * Spatial interpolation engine: a model of [src/interpolation.py]

    The Python module works on numpy [float64] arrays.  The model below is
    written once, over an interface [Num] holding the arithmetic that
    the module uses, and is run at two instances:

    - [Binary64.Float64]: IEEE-754 binary64, the numbers numpy computes
      with.  Every definition evaluates there, NaN and the infinities
      included.
    - [Exact.Real]: the real numbers, for the statements that are about
      the formulas rather than about their rounding.

    One-dimensional arrays are lists, two-dimensional arrays are lists of
    rows.  Exceptions are values of [exn]; the warnings collected are the
    calls of [warnings.warn] that the module itself makes, in their
    order.  The [RuntimeWarning]s that numpy issues inside its own
    operations (division by zero, overflow, invalid value) are not
    recorded: no statement below is about them. *)

From Stdlib Require Import String Ascii.
From Stdlib Require Import List Bool ZArith Lia Arith DecimalString.
From Stdlib Require Import Floats.
From Stdlib Require Import Reals Lra.
Import ListNotations.

Set Implicit Arguments.
Set Warnings "-inexact-float".

(* ================================================================== *)
(** ** Numbers *)

(** The [float64] operations used by the module.  [lit_*] are the numeric
    literals that occur in the source text. *)
Class Num (F : Type) : Type := {
  Fadd : F -> F -> F;
  Fsub : F -> F -> F;
  Fmul : F -> F -> F;
  Fdiv : F -> F -> F;
  Fsqrt : F -> F;
  Fpow : F -> F -> F;              (* [a ** p] *)
  Feqb : F -> F -> bool;           (* [a == b] *)
  Fltb : F -> F -> bool;           (* [a < b]  *)
  Fleb : F -> F -> bool;           (* [a <= b] *)
  Fisnan : F -> bool;              (* [np.isnan] *)
  Fof_Z : Z -> F;                  (* integer to float64 conversion *)
  lit_0_05 : F;                    (* [0.05]  *)
  lit_1e_10 : F;                   (* [1e-10] *)
  lit_2_0 : F                      (* [2.0]   *)
}.

(** [np.nan], where the number type has one. *)
Class HasNaN (F : Type) : Type := { Fnan : F }.

Declare Scope num_scope.
Delimit Scope num_scope with num.
Infix "+" := Fadd : num_scope.
Infix "-" := Fsub : num_scope.
Infix "*" := Fmul : num_scope.
Infix "/" := Fdiv : num_scope.
Infix "<?" := Fltb : num_scope.
Infix "<=?" := Fleb : num_scope.
Infix "=?" := Feqb : num_scope.
Infix "**" := Fpow (at level 30, right associativity) : num_scope.

(* ================================================================== *)
(** ** Exceptions and warnings *)

(** The exceptions that can leave the module.  [LibraryError] stands for
    any [Exception] raised inside scipy or PyKrige; its argument is
    [str(e)]. *)
Inductive exn : Type :=
| ValueError (msg : string)
| IndexError (msg : string)
| RuntimeError (msg : string)
| LibraryError (msg : string).

Definition exn_str (e : exn) : string :=
  match e with
  | ValueError m | IndexError m | RuntimeError m | LibraryError m => m
  end.

Inductive result (A : Type) : Type :=
| Ok (a : A)
| Raise (e : exn).
Arguments Ok {A} a.
Arguments Raise {A} e.

(** A computation of the module that may call [warnings.warn] and may
    raise.  [warned] holds the messages of the module's own calls of
    [warnings.warn]. *)
Record outcome (A : Type) : Type := Outcome {
  warned : list string;
  returned : result A
}.

Definition ret {A} (a : A) : outcome A := Outcome [] (Ok a).
Definition raise {A} (e : exn) : outcome A := Outcome [] (Raise e).
Definition warn (msg : string) : outcome unit := Outcome [msg] (Ok tt).
Definition lift {A} (r : result A) : outcome A := Outcome [] r.

Definition bind {A B} (m : outcome A) (k : A -> outcome B) : outcome B :=
  match returned m with
  | Ok a => let r := k a in Outcome (warned m ++ warned r) (returned r)
  | Raise e => Outcome (warned m) (Raise e)
  end.

(** [try: m except Exception as e: h e] *)
Definition try_except {A} (m : result A) (h : exn -> outcome A) : outcome A :=
  match m with
  | Ok a => ret a
  | Raise e => h e
  end.

Notation "x <- m ;; k" := (bind m (fun x => k))
  (at level 61, m at next level, right associativity).
Notation "m ;;; k" := (bind m (fun _ => k))
  (at level 61, right associativity).

(* ================================================================== *)
(** ** The numpy operations the module calls *)

Definition array (F : Type) : Type := list F.
Definition array2 (F : Type) : Type := list (list F).

Section Numpy.
Context {F : Type} {N : Num F}.
Local Open Scope num_scope.

(** Elementwise binary operation on arrays of one shape. *)
Definition zip_with {A B C} (f : A -> B -> C) (a : list A) (b : list B) : list C :=
  map (fun p => f (fst p) (snd p)) (combine a b).

(** [a[mask]] for a boolean mask of the length of [a]. *)
Fixpoint bool_index {A} (a : list A) (mask : list bool) : list A :=
  match a, mask with
  | v :: a', b :: mask' =>
      if b then v :: bool_index a' mask' else bool_index a' mask'
  | _, _ => []
  end.

(** [np.minimum(a, b)] and [np.maximum(a, b)]: a NaN operand wins. *)
Definition np_minimum (a b : F) : F :=
  if (a <? b) || Fisnan a then a else b.
Definition np_maximum (a b : F) : F :=
  if (b <? a) || Fisnan a then a else b.

Definition zero_size (op : string) : exn :=
  ValueError ("zero-size array to reduction operation " ++ op
              ++ " which has no identity").

(** [a.min()] and [a.max()]: a reduction from the first element, which
    raises on an empty array. *)
Definition np_min (a : array F) : result F :=
  match a with
  | [] => Raise (zero_size "minimum")
  | v :: a' => Ok (fold_left np_minimum a' v)
  end.
Definition np_max (a : array F) : result F :=
  match a with
  | [] => Raise (zero_size "maximum")
  | v :: a' => Ok (fold_left np_maximum a' v)
  end.

(** [np.sum(a)] on a one-dimensional [float64] array: the reduction of
    [add] starts from its identity and adds numpy's pairwise sum of the
    array.  That sum runs from left to right for fewer than 8 elements;
    up to 128 elements it keeps 8 running sums, one for each position
    modulo 8, adds them as a tree and then adds the elements left over
    after the last full group of 8; longer arrays are split in two at a
    multiple of 8 next to the middle. *)
Definition sum_from (acc : F) (a : array F) : F := fold_left Fadd a acc.

(** [for (i = 8; i < n - (n % 8); i += 8) r[j] += a[i + j]]: [k] groups
    of 8 are added to the running sums [r]; the rest is returned. *)
Fixpoint add_groups (k : nat) (r rest : array F) : array F * array F :=
  match k with
  | O => (r, rest)
  | S k' =>
      add_groups k' (map (fun p => fst p + snd p) (combine r (firstn 8 rest)))
        (skipn 8 rest)
  end.

(** The unrolled block, for [8 <= n <= 128]. *)
Definition block_sum (a : array F) : F :=
  let (r, rest) := add_groups (length a / 8 - 1) (firstn 8 a) (skipn 8 a) in
  match r with
  | [r0; r1; r2; r3; r4; r5; r6; r7] =>
      sum_from (((r0 + r1) + (r2 + r3)) + ((r4 + r5) + (r6 + r7))) rest
  | _ => sum_from (Fof_Z 0) a
  end.

(** [fuel] bounds the depth of the splitting; the length of the array is
    always enough ([pairwise_sum_fuel]). *)
Fixpoint pairwise_sum_rec (fuel : nat) (a : array F) : F :=
  let n := length a in
  if (n <? 8)%nat then sum_from (Fof_Z 0) a
  else if (n <=? 128)%nat then block_sum a
  else
    match fuel with
    | O => block_sum a
    | S fuel' =>
        let n2 := (n / 2)%nat in
        let n2 := (n2 - n2 mod 8)%nat in
        pairwise_sum_rec fuel' (firstn n2 a) + pairwise_sum_rec fuel' (skipn n2 a)
    end.

Definition pairwise_sum (a : array F) : F := pairwise_sum_rec (length a) a.

Definition np_sum (a : array F) : F := Fof_Z 0 + pairwise_sum a.

(** [np.any(mask)] *)
Definition np_any (mask : list bool) : bool := existsb (fun b => b) mask.

(** [np.argmin(a)] on a non-empty array, as numpy's loop runs: the
    candidate [mp] is replaced by a later element [v] when [v >= mp]
    fails, and the scan stops at the first NaN. *)
Fixpoint argmin_from (mp : F) (min_ind i : nat) (a : array F) : nat :=
  match a with
  | [] => min_ind
  | v :: a' =>
      if negb (mp <=? v)
      then if Fisnan v then i else argmin_from v i (S i) a'
      else argmin_from mp min_ind (S i) a'
  end.
Definition np_argmin (a : array F) : nat :=
  match a with
  | [] => 0%nat
  | v :: a' => if Fisnan v then 0%nat else argmin_from v 0 1 a'
  end.

(** [str(num)] of a Python [int]. *)
Definition str_int (num : Z) : string := NilZero.string_of_int (Z.to_int num).

(** [np.linspace(start, stop, num)] with [endpoint=True].  numpy
    computes [step = (stop - start) / (num - 1)], fills
    [arange(num) * step + start] (or, when the step is zero,
    [arange(num) / (num - 1) * (stop - start) + start]) and then
    overwrites the last element with [stop].  A negative [num] raises
    [ValueError("Number of samples, %s, must be non-negative." % num)]. *)
Fixpoint set_last (a : array F) (v : F) : array F :=
  match a with
  | [] => []
  | [_] => [v]
  | u :: a' => u :: set_last a' v
  end.

Definition arange (num : nat) : array F :=
  map (fun k => Fof_Z (Z.of_nat k)) (seq 0 num).

Definition np_linspace (start stop : F) (num : Z) : result (array F) :=
  if (num <? 0)%Z
  then Raise (ValueError ("Number of samples, " ++ str_int num
                          ++ ", must be non-negative.")%string)
  else
    let n := Z.to_nat num in
    let div := Fof_Z (num - 1) in
    let delta := stop - start in
    let y := arange n in
    let y :=
      if (0 <? num - 1)%Z then
        let step := delta / div in
        if step =? Fof_Z 0
        then map (fun v => (v / div) * delta) y
        else map (fun v => v * step) y
      else map (fun v => v * delta) y in
    let y := map (fun v => v + start) y in
    Ok (if (1 <? num)%Z then set_last y stop else y).

(** [np.meshgrid(xi, yi)]: [XI[i][j] = xi[j]], [YI[i][j] = yi[i]]. *)
Definition np_meshgrid (xi yi : array F) : array2 F * array2 F :=
  (map (fun _ => xi) yi, map (fun v => map (fun _ => v) xi) yi).

End Numpy.

(** Shape rules of the elementwise [|] on one-dimensional boolean arrays
    (an array of length one is stretched) and of boolean-mask indexing
    (the mask must have the length of the array). *)
Definition broadcast_or (a b : list bool) : result (list bool) :=
  if (length a =? length b)%nat then Ok (zip_with orb a b)
  else match a, b with
       | [u], _ => Ok (map (orb u) b)
       | _, [v] => Ok (map (fun u => orb u v) a)
       | _, _ => Raise (ValueError "operands could not be broadcast together")
       end.

Definition mask_index {A} (a : list A) (mask : list bool) : result (list A) :=
  if (length a =? length mask)%nat then Ok (bool_index a mask)
  else Raise (IndexError "boolean index did not match indexed array along axis 0").

(* ================================================================== *)
(** ** The engine *)

Section Engine.
Context {F : Type} {N : Num F}.
Local Open Scope string_scope.
Local Open Scope num_scope.

(** *** What the module imports *)

(** Whether [from pykrige ... import ...] succeeded. *)
Variable KRIGING_AVAILABLE : bool.

(** [Rbf(x, y, z, function=f, smooth=s)(XI, YI)]: fit and evaluation,
    either of which may raise. *)
Variable Rbf : string -> F -> array F -> array F -> array F -> array2 F -> array2 F -> result (array2 F).

(** [griddata((x, y), z, (XI, YI), method=m)] *)
Variable griddata : string -> array F -> array F -> array F -> array2 F -> array2 F -> result (array2 F).

(** [OrdinaryKriging(x, y, z, variogram_model=v, ...).execute('grid', xi, yi)]
    and the same for [UniversalKriging]; the first component of the pair
    that [execute] returns. *)
Variable OrdinaryKriging : string -> array F -> array F -> array F -> array F -> array F -> result (array2 F).
Variable UniversalKriging : string -> array F -> array F -> array F -> array F -> array F -> result (array2 F).

(** *** [InterpolationEngine.METHODS] *)

Definition BASE_METHODS : list (string * string) :=
  [ ("idw", "Inverse Distance Weighting");
    ("linear", "Linear Interpolation");
    ("cubic", "Cubic Interpolation");
    ("nearest", "Nearest Neighbor");
    ("rbf_multiquadric", "RBF (Multiquadric)");
    ("rbf_gaussian", "RBF (Gaussian)");
    ("rbf_thin_plate", "RBF (Thin Plate Spline)");
    ("rbf_linear", "RBF (Linear)") ].

Definition KRIGING_METHODS : list (string * string) :=
  [ ("kriging_ordinary", "Ordinary Kriging");
    ("kriging_universal", "Universal Kriging") ].

(** The class attribute: the base dictionary, updated when the class
    body runs if kriging is available.  A dictionary keeps its keys in
    insertion order. *)
Definition METHODS : list (string * string) :=
  BASE_METHODS ++ (if KRIGING_AVAILABLE then KRIGING_METHODS else []).

Definition keys (d : list (string * string)) : list string := map fst d.

Definition key_in (k : string) (d : list (string * string)) : bool :=
  existsb (String.eqb k) (keys d).

(** [str(list_of_str)], for strings without quotes or escapes. *)
Definition repr_str (s : string) : string := "'" ++ s ++ "'".
Definition repr_list (l : list string) : string :=
  "[" ++ String.concat ", " (map repr_str l) ++ "]".

(** *** [__init__] *)

(** The keyword arguments that the constructor reads; an absent keyword
    is [None]. *)
Record kwargs : Type := Kwargs {
  kw_power : option F;
  kw_smoothing : option F;
  kw_variogram_model : option string;
  kw_rbf_smooth : option F
}.

Definition no_kwargs : kwargs := Kwargs None None None None.

(** [d.get(key, default)] *)
Definition get {A} (o : option A) (default : A) : A :=
  match o with Some v => v | None => default end.

Record InterpolationEngine : Type := Engine {
  method : string;
  power : F;
  smoothing : F;
  variogram_model : string;
  rbf_smooth : F
}.

Definition __init__ (method : string) (kw : kwargs) : result InterpolationEngine :=
  if negb (key_in method METHODS) then
    Raise (ValueError ("Unknown method: " ++ method ++ ". Available: "
                       ++ repr_list (keys METHODS)))
  else if String.prefix "kriging" method && negb KRIGING_AVAILABLE then
    Raise (ValueError "Kriging methods require PyKrige. Please install it first.")
  else
    Ok {| method := method;
          power := get (kw_power kw) lit_2_0;
          smoothing := get (kw_smoothing kw) (Fof_Z 0);
          variogram_model := get (kw_variogram_model kw) "gaussian";
          rbf_smooth := get (kw_rbf_smooth kw) (Fof_Z 0) |}.

(** *** [_idw] *)

(** The body of the two loops, for the grid cell [(gx, gy)].  numpy
    evaluates [a ** 2], with the integer literal, as [a * a]. *)
Definition idw_distances (self : InterpolationEngine) (x y : array F) (gx gy : F) : array F :=
  let distances :=
    map Fsqrt (zip_with Fadd (map (fun xk => (xk - gx) * (xk - gx)) x)
                             (map (fun yk => (yk - gy) * (yk - gy)) y)) in
  map (fun d => d + smoothing self) distances.

Definition idw_weights (self : InterpolationEngine) (distances : array F) : array F :=
  map (fun d => Fof_Z 1 / (d ** power self)) distances.

(** [z[min_idx]] is in range when [z] has the length of [x] and [y],
    as it has in every call from [interpolate]: [np.argmin] returns an
    index of its argument ([np_argmin_bound]). *)
Definition idw_cell (self : InterpolationEngine) (x y z : array F) (gx gy : F) : F :=
  let distances := idw_distances self x y gx gy in
  if np_any (map (fun d => d <? lit_1e_10) distances) then
    let min_idx := np_argmin distances in
    nth min_idx z (Fof_Z 0)
  else
    let weights := idw_weights self distances in
    np_sum (zip_with Fmul weights z) / np_sum weights.

(** The two loops over the cells.  [XI] and [YI] are the two results of
    one [np.meshgrid] call and have one shape.  The function is a value:
    the source calls [warnings.warn] nowhere in it, and the
    [RuntimeWarning]s that numpy may issue for a division by zero, an
    overflow or an invalid value inside the loop are not part of the
    model. *)
Definition _idw (self : InterpolationEngine) (x y z : array F) (XI YI : array2 F) : array2 F :=
  zip_with (fun XIi YIi => zip_with (idw_cell self x y z) XIi YIi) XI YI.

(** *** [_kriging] *)

Definition _kriging (self : InterpolationEngine) (x y z xi yi : array F)
  : outcome (array2 F) :=
  if negb KRIGING_AVAILABLE then raise (RuntimeError "PyKrige is not available")
  else
    try_except
      (if String.eqb (method self) "kriging_ordinary"
       then OrdinaryKriging (variogram_model self) x y z xi yi
       else UniversalKriging (variogram_model self) x y z xi yi)
      (fun e =>
         warn ("Kriging failed: " ++ exn_str e ++ ". Falling back to IDW.") ;;;
         let (XI, YI) := np_meshgrid xi yi in
         ret (_idw self x y z XI YI)).

(** *** [_rbf] *)

Definition function_map : list (string * string) :=
  [ ("rbf_multiquadric", "multiquadric");
    ("rbf_gaussian", "gaussian");
    ("rbf_thin_plate", "thin_plate");
    ("rbf_linear", "linear") ].

Fixpoint lookup (k : string) (d : list (string * string)) : option string :=
  match d with
  | [] => None
  | (k', v) :: d' => if String.eqb k k' then Some v else lookup k d'
  end.

Definition _rbf (self : InterpolationEngine) (x y z : array F) (XI YI : array2 F)
  : outcome (array2 F) :=
  let function := get (lookup (method self) function_map) "multiquadric" in
  try_except
    (Rbf function (rbf_smooth self) x y z XI YI)
    (fun e =>
       warn ("RBF interpolation failed: " ++ exn_str e ++ ". Falling back to IDW.") ;;;
       ret (_idw self x y z XI YI)).

(** *** [interpolate] *)

(** [~(np.isnan(x) | np.isnan(y) | np.isnan(z))] *)
Definition valid_mask (x y z : array F) : result (list bool) :=
  match broadcast_or (map Fisnan x) (map Fisnan y) with
  | Raise e => Raise e
  | Ok xy =>
      match broadcast_or xy (map Fisnan z) with
      | Raise e => Raise e
      | Ok xyz => Ok (map negb xyz)
      end
  end.

(** The bounds [(min_x, min_y, max_x, max_y)] computed from the data,
    with 5% padding. *)
Definition data_bounds (x y : array F) : result (F * F * F * F) :=
  match np_min x, np_max x, np_min y, np_max y with
  | Ok min_x, Ok max_x, Ok min_y, Ok max_y =>
      let x_padding := (max_x - min_x) * lit_0_05 in
      let y_padding := (max_y - min_y) * lit_0_05 in
      Ok (min_x - x_padding, min_y - y_padding,
          max_x + x_padding, max_y + y_padding)
  | Raise e, _, _, _ | _, Raise e, _, _ | _, _, Raise e, _ | _, _, _, Raise e =>
      Raise e
  end.

(** The [if]/[elif] chain that ends [interpolate]. *)
Definition dispatch (self : InterpolationEngine) (x y z xi yi : array F)
    (XI YI : array2 F) : outcome (array2 F) :=
  if String.eqb (method self) "idw" then
    ret (_idw self x y z XI YI)
  else if String.prefix "kriging" (method self) then
    _kriging self x y z xi yi
  else if String.prefix "rbf" (method self) then
    _rbf self x y z XI YI
  else if existsb (String.eqb (method self)) ["linear"; "cubic"; "nearest"] then
    lift (griddata (method self) x y z XI YI)
  else
    raise (ValueError ("Unknown interpolation method: " ++ method self)).

Definition interpolate (self : InterpolationEngine) (x y z : array F)
    (grid_resolution : Z) (bounds : option (F * F * F * F))
  : outcome (array2 F * array2 F * array2 F) :=
  (* Handle edge cases *)
  if (length x <? 3)%nat then
    raise (ValueError "Need at least 3 points for interpolation")
  else
    (* Remove any NaN values *)
    valid_mask <- lift (valid_mask x y z) ;;
    x <- lift (mask_index x valid_mask) ;;
    y <- lift (mask_index y valid_mask) ;;
    z <- lift (mask_index z valid_mask) ;;
    (* Compute bounds if not provided *)
    b <- lift (match bounds with
               | None => data_bounds x y
               | Some b => Ok b
               end) ;;
    let '(min_x, min_y, max_x, max_y) := b in
    (* Create regular grid *)
    xi <- lift (np_linspace min_x max_x grid_resolution) ;;
    yi <- lift (np_linspace min_y max_y grid_resolution) ;;
    let (XI, YI) := np_meshgrid xi yi in
    (* Perform interpolation based on method *)
    ZI <- dispatch self x y z xi yi XI YI ;;
    ret (XI, YI, ZI).

End Engine.

(* ================================================================== *)
(** ** [mask_extrapolation_regions] *)

Section Mask.
Context {F : Type} {N : Num F} {NaN : HasNaN F}.
Local Open Scope num_scope.

(** One entry of [cdist(XA, XB)], scipy's Euclidean metric: the squared
    differences are accumulated from [0.0] and the root is taken. *)
Definition euclidean (u v : F * F) : F :=
  let dx := fst u - fst v in
  let dy := snd u - snd v in
  Fsqrt ((Fof_Z 0 + dx * dx) + dy * dy).

Definition cdist (XA XB : list (F * F)) : list (array F) :=
  map (fun u => map (euclidean u) XB) XA.

(** [A.ravel()] and [a.reshape(X.shape)] for [a] of the size of [X]. *)
Definition ravel {A} (X : list (list A)) : list A := concat X.

Fixpoint reshape_like {A B} (X : list (list A)) (a : list B) : list (list B) :=
  match X with
  | [] => []
  | row :: X' =>
      firstn (length row) a :: reshape_like X' (skipn (length row) a)
  end.

(** [distances.min(axis=1)]: one reduction per row; a reduced axis of
    length zero raises. *)
Fixpoint min_axis1 (distances : list (array F)) : result (array F) :=
  match distances with
  | [] => Ok []
  | row :: rest =>
      match np_min row, min_axis1 rest with
      | Ok m, Ok ms => Ok (m :: ms)
      | Raise e, _ | _, Raise e => Raise e
      end
  end.

(** [np.where(cond, A, v)] for a scalar [v]. *)
Definition np_where (cond : list (list bool)) (A : array2 F) (v : F) : array2 F :=
  zip_with (zip_with (fun (c : bool) a => if c then a else v)) cond A.

Definition mask_extrapolation_regions (XI YI ZI : array2 F)
    (sample_points : list (F * F)) (max_distance : F) : result (array2 F) :=
  (* Flatten grid *)
  let grid_points := combine (ravel XI) (ravel YI) in
  (* Calculate distance to nearest sample *)
  let distances := cdist grid_points sample_points in
  match sample_points with
  | [] => Raise (zero_size "minimum")
  | _ =>
      match min_axis1 distances with
      | Raise e => Raise e
      | Ok mins =>
          let min_distances := reshape_like XI mins in
          (* Mask areas beyond threshold *)
          let ZI_masked :=
            np_where (map (map (fun m => m <? max_distance)) min_distances)
                     ZI Fnan in
          Ok ZI_masked
      end
  end.

End Mask.

(* ================================================================== *)
(** ** The two number systems *)

(** *** IEEE-754 binary64 *)

Module Binary64.

(** Conversion of an integer, rounded to nearest even. *)
Definition of_Z (k : Z) : float := SF2Prim (binary_normalize prec emax k 0 false).

(** [a ** p] on [float64].  numpy squares when the exponent is the
    scalar [2.0]; any other exponent goes to the C library's [pow], which
    is not among the kernel's float operations and which the instance
    therefore takes as [libm_pow]. *)
Definition float_power (libm_pow : float -> float -> float) (a p : float) : float :=
  if PrimFloat.eqb p 2 then PrimFloat.mul a a else libm_pow a p.

Definition Float64 (libm_pow : float -> float -> float) : Num float := {|
  Fadd := PrimFloat.add;
  Fsub := PrimFloat.sub;
  Fmul := PrimFloat.mul;
  Fdiv := PrimFloat.div;
  Fsqrt := PrimFloat.sqrt;
  Fpow := float_power libm_pow;
  Feqb := PrimFloat.eqb;
  Fltb := PrimFloat.ltb;
  Fleb := PrimFloat.leb;
  Fisnan := PrimFloat.is_nan;
  Fof_Z := of_Z;
  lit_0_05 := 0.05%float;
  lit_1e_10 := 1e-10%float;
  lit_2_0 := 2%float
|}.

#[export] Instance Float64_nan : HasNaN float := {| Fnan := PrimFloat.nan |}.

(** An oracle for runs in which [libm_pow] is not consulted. *)
Definition no_libm : float -> float -> float := fun _ _ => PrimFloat.nan.

End Binary64.

(** *** Real numbers *)

Module Exact.

Definition Rltb (a b : R) : bool := if Rlt_dec a b then true else false.
Definition Rleb (a b : R) : bool := if Rle_dec a b then true else false.
Definition Reqb (a b : R) : bool := if Req_dec_T a b then true else false.

(** [Fpow] is [Rpower a p = exp (p * ln a)], the power of a positive
    base: [_idw] raises to a power only distances that are not below
    [1e-10].  Division is the total division of [R], applied in the
    statements below to a positive sum of weights and to [num - 1 >= 1].
    There is no NaN and no rounding. *)
#[export] Instance Real : Num R := {|
  Fadd := Rplus;
  Fsub := Rminus;
  Fmul := Rmult;
  Fdiv := Rdiv;
  Fsqrt := sqrt;
  Fpow := Rpower;
  Feqb := Reqb;
  Fltb := Rltb;
  Fleb := Rleb;
  Fisnan := fun _ => false;
  Fof_Z := IZR;
  lit_0_05 := (5 / 100)%R;
  lit_1e_10 := (1 / 10000000000)%R;
  lit_2_0 := 2%R
|}.

End Exact.

(* ================================================================== *)
(** ** Vocabulary of the statements *)

(** *** Cleaning *)

Section Vocabulary.
Context {F : Type} {N : Num F}.

(** The three coordinates of one source. *)
Definition triples (x y z : array F) : list (F * F * F) :=
  combine (combine x y) z.

(** No coordinate of the source is NaN. *)
Definition nan_free (t : F * F * F) : bool :=
  negb (Fisnan (fst (fst t)) || Fisnan (snd (fst t)) || Fisnan (snd t)).

Definition nan_free_mask (x y z : array F) : list bool :=
  map nan_free (triples x y z).

(** The arrays that [interpolate] works on after its cleaning step. *)
Definition cleaned (x y z : array F) : array F * array F * array F :=
  let m := nan_free_mask x y z in
  (bool_index x m, bool_index y m, bool_index z m).

(** The engine that [InterpolationEngine('idw')] constructs: IDW with
    its default parameters. *)
Definition default_idw : InterpolationEngine (F:=F) :=
  Engine "idw" lit_2_0 (Fof_Z 0) "gaussian" (Fof_Z 0).

End Vocabulary.

(** *** Masking *)

(** The least distance from the grid point [u] to the samples
    [s0 :: S], as [distances.min(axis=1)] computes it. *)
Definition min_distance {F} {N : Num F} (s0 : F * F) (S : list (F * F)) (u : F * F) : F :=
  fold_left np_minimum (map (euclidean u) S) (euclidean u s0).

(** *** Grids *)

Definition strictly_increasing (l : list R) : Prop :=
  forall i j, (i < j < length l)%nat -> (nth i l 0 < nth j l 0)%R.

Definition shape {A} (X : list (list A)) : list nat := map (@length A) X.

(** *** Libraries for the runs in this file *)

(** A library call that raises [msg] whatever its arguments. *)
Definition failing6 {A1 A2 A3 A4 A5 A6 B} (msg : string)
  : A1 -> A2 -> A3 -> A4 -> A5 -> A6 -> result B :=
  fun _ _ _ _ _ _ => Raise (LibraryError msg).
Definition failing7 {A1 A2 A3 A4 A5 A6 A7 B} (msg : string)
  : A1 -> A2 -> A3 -> A4 -> A5 -> A6 -> A7 -> result B :=
  fun _ _ _ _ _ _ _ => Raise (LibraryError msg).

(** *** The order of binary64 numbers

    [PrimFloat.ltb] and [PrimFloat.leb] are specified through
    [SFcompare].  On the numbers that are not NaN that comparison is the
    lexicographic order of [key]. *)

Definition key (f : spec_float) : Z * Z * Z :=
  match f with
  | S754_nan => (0, 0, 0)
  | S754_zero _ => (0, 0, 0)
  | S754_infinity s => (if s then -2 else 2, 0, 0)
  | S754_finite s m e => if s then (-1, - e, Zneg m) else (1, e, Zpos m)
  end%Z.

Definition lex3 (a b : Z * Z * Z) : comparison :=
  let '(a1, a2, a3) := a in
  let '(b1, b2, b3) := b in
  match (a1 ?= b1)%Z with
  | Eq => match (a2 ?= b2)%Z with
          | Eq => (a3 ?= b3)%Z
          | c => c
          end
  | c => c
  end.

Definition klt (a b : Z * Z * Z) : Prop :=
  let '(a1, a2, a3) := a in
  let '(b1, b2, b3) := b in
  (a1 < b1 \/ (a1 = b1 /\ (a2 < b2 \/ (a2 = b2 /\ a3 < b3))))%Z.

Definition fkey (x : float) : Z * Z * Z := key (Prim2SF x).

Definition flt (a b : float) : Prop := PrimFloat.ltb a b = true.
Definition fle (a b : float) : Prop := PrimFloat.leb a b = true.
Definition not_nan (a : float) : Prop := PrimFloat.is_nan a = false.

(** [a == b] on binary64 numbers: the two zeros are equal. *)
Definition feq (a b : float) : Prop := PrimFloat.eqb a b = true.

(** A zero of either sign; a number that is neither NaN nor infinite. *)
Definition is_zero64 (x : float) : Prop :=
  match Prim2SF x with S754_zero _ => True | _ => False end.
Definition finite64 (x : float) : Prop :=
  match Prim2SF x with
  | S754_zero _ | S754_finite _ _ _ => True
  | _ => False
  end.

(** [k] is the first index at which [l] is least. *)
Definition first_min (l : list float) (k : nat) : Prop :=
  (k < length l)%nat /\
  (forall j, (j < length l)%nat -> fle (nth k l 0%float) (nth j l 0%float)) /\
  (forall j, (j < k)%nat -> flt (nth k l 0%float) (nth j l 0%float)).

(** *** Engines and grids, continued *)

(** The engine with the same parameters and the method [idw]. *)
Definition as_idw {F} (self : InterpolationEngine (F:=F)) : InterpolationEngine (F:=F) :=
  Engine "idw" (power self) (smoothing self) (variogram_model self) (rbf_smooth self).

(** [A[i, j]] *)
Definition cell {F} (A : array2 F) (i j : nat) (d : F) : F := nth j (nth i A []) d.

(** The axes that [create_interpolation_map] of [src/visualization.py]
    reads back from the meshes for its contour trace: [x=XI[0]] and
    [y=YI[:, 0]].  An index that is out of range raises. *)
Definition contour_x {F} (XI : array2 F) : result (array F) :=
  match XI with
  | [] => Raise (IndexError "index 0 is out of bounds for axis 0 with size 0")
  | row :: _ => Ok row
  end.

Fixpoint contour_y {F} (YI : array2 F) : result (array F) :=
  match YI with
  | [] => Ok []
  | [] :: _ => Raise (IndexError "index 0 is out of bounds for axis 1 with size 0")
  | (v :: _) :: YI' =>
      match contour_y YI' with
      | Ok col => Ok (v :: col)
      | Raise e => Raise e
      end
  end.

(** *** The caller in [app.py] *)

(** [sub in s] on strings *)
Definition contains (sub s : string) : bool :=
  match String.index 0 sub s with Some _ => true | None => false end.

(** The keyword arguments that [compute_interpolation] builds for the
    constructor: the power for [idw] only, the variogram for a method
    whose name contains [kriging]. *)
Definition engine_kwargs {F} (method : string) (power : F) (variogram : string)
  : kwargs (F:=F) :=
  if String.eqb method "idw" then Kwargs (Some power) None None None
  else if contains "kriging" method then Kwargs None None (Some variogram) None
  else no_kwargs.

(** [compute_interpolation] of [app.py] from the aggregated table on.
    The arguments [lon], [lat] and [Adj_ppbV] are the columns of
    [agg_data], of one length, the number of its rows; the table itself,
    which every [return] hands back unchanged, is left out of the value.
    The value is the list of the messages shown with [st.error] and the
    grids, [None] standing for [None, None, None].  The constructor is
    called outside the [try]; [except Exception] covers the call of
    [interpolate].  The warnings recorded are the calls of
    [warnings.warn]; the filter that [app.py] installs keeps them from
    being displayed. *)
Definition compute_interpolation {F} {N : Num F} (KRIGING_AVAILABLE : bool)
    (Rbf : string -> F -> array F -> array F -> array F -> array2 F -> array2 F
           -> result (array2 F))
    (griddata : string -> array F -> array F -> array F -> array2 F -> array2 F
                -> result (array2 F))
    (OrdinaryKriging UniversalKriging :
       string -> array F -> array F -> array F -> array F -> array F
       -> result (array2 F))
    (method : string) (grid_res : Z) (power : F) (variogram : string)
    (lon lat Adj_ppbV : array F)
  : outcome (list string * option (array2 F * array2 F * array2 F)) :=
  if (length lon <? 3)%nat then ret ([], None)
  else
    engine <- lift (__init__ KRIGING_AVAILABLE method
                      (engine_kwargs method power variogram)) ;;
    let r := interpolate KRIGING_AVAILABLE Rbf griddata
               OrdinaryKriging UniversalKriging
               engine lon lat Adj_ppbV grid_res None in
    match returned r with
    | Ok g => Outcome (warned r) (Ok ([], Some g))
    | Raise e =>
        Outcome (warned r)
          (Ok (["Interpolation failed: " ++ exn_str e]%string, None))
    end.

(** What the caller makes of the outcome of [interpolate]: the grids,
    or the message of the exception shown with [st.error]. *)
Definition shown_or_grid {A} (r : outcome A) : outcome (list string * option A) :=
  match returned r with
  | Ok g => Outcome (warned r) (Ok ([], Some g))
  | Raise e =>
      Outcome (warned r) (Ok (["Interpolation failed: " ++ exn_str e]%string, None))
  end.

(** The engine that the caller's constructor call returns for a
    registered method. *)
Definition app_engine {F} {N : Num F} (method : string) (power : F)
    (variogram : string) : InterpolationEngine (F:=F) :=
  let kw := engine_kwargs method power variogram in
  {| method := method;
     power := get (kw_power kw) lit_2_0;
     smoothing := get (kw_smoothing kw) (Fof_Z 0);
     variogram_model := get (kw_variogram_model kw) "gaussian"%string;
     rbf_smooth := get (kw_rbf_smooth kw) (Fof_Z 0) |}.

(* ================================================================== *)
(** ** Facts about binary64 comparison *)

Lemma SFcompare_key (a b : spec_float) :
  a <> S754_nan -> b <> S754_nan ->
  SFcompare a b = Some (lex3 (key a) (key b)).
Proof.
  intros Ha Hb.
  destruct a as [sa|sa| |sa ma ea], b as [sb|sb| |sb mb eb];
    try congruence; try (destruct sa); try (destruct sb); try reflexivity.
  - cbn. rewrite Z.compare_opp.
    rewrite (Z.compare_antisym ea eb).
    destruct (ea ?= eb)%Z; reflexivity.
Qed.

Lemma lex3_Lt a b : lex3 a b = Lt <-> klt a b.
Proof.
  destruct a as [[a1 a2] a3], b as [[b1 b2] b3]; cbn.
  destruct (Z.compare_spec a1 b1), (Z.compare_spec a2 b2), (Z.compare_spec a3 b3);
    split; intros; try discriminate; try reflexivity; try lia.
Qed.

Lemma lex3_Eq a b : lex3 a b = Eq <-> a = b.
Proof.
  destruct a as [[a1 a2] a3], b as [[b1 b2] b3]; cbn.
  destruct (Z.compare_spec a1 b1), (Z.compare_spec a2 b2), (Z.compare_spec a3 b3);
    split; intros H2; try discriminate; try reflexivity;
    try (injection H2; intros; lia); subst; try reflexivity.
Qed.

Lemma lex3_Gt a b : lex3 a b = Gt <-> klt b a.
Proof.
  destruct a as [[a1 a2] a3], b as [[b1 b2] b3]; cbn.
  destruct (Z.compare_spec a1 b1), (Z.compare_spec a2 b2), (Z.compare_spec a3 b3);
    split; intros; try discriminate; try reflexivity; try lia.
Qed.

Lemma klt_trans a b c : klt a b -> klt b c -> klt a c.
Proof.
  destruct a as [[a1 a2] a3], b as [[b1 b2] b3], c as [[c1 c2] c3]; cbn; lia.
Qed.

Lemma klt_irrefl a : ~ klt a a.
Proof. destruct a as [[a1 a2] a3]; cbn; lia. Qed.

Lemma klt_total a b : klt a b \/ a = b \/ klt b a.
Proof.
  destruct a as [[a1 a2] a3], b as [[b1 b2] b3]; cbn.
  destruct (Z.lt_trichotomy a1 b1) as [|[|]], (Z.lt_trichotomy a2 b2) as [|[|]],
    (Z.lt_trichotomy a3 b3) as [|[|]]; subst; auto; try lia; right; right; lia.
Qed.

Lemma is_nan_false (x : float) : is_nan x = false <-> Prim2SF x <> S754_nan.
Proof.
  unfold is_nan. rewrite eqb_spec. unfold SFeqb.
  destruct (Prim2SF x) as [s|s| |s m e] eqn:E; cbn.
  - split; [congruence|reflexivity].
  - destruct s; split; try congruence; reflexivity.
  - split; [discriminate|congruence].
  - destruct s; rewrite Z.compare_refl, Pos.compare_cont_refl; cbn;
      split; try congruence; reflexivity.
Qed.

Lemma ltb_nan_l x y : is_nan x = true -> ltb x y = false.
Proof.
  intros H. rewrite ltb_spec. unfold SFltb.
  destruct (Prim2SF x) eqn:E; try reflexivity;
    (assert (is_nan x = false) by (apply is_nan_false; congruence); congruence).
Qed.

Lemma ltb_true_iff x y :
  ltb x y = true <-> is_nan x = false /\ is_nan y = false /\ klt (fkey x) (fkey y).
Proof.
  rewrite ltb_spec, !is_nan_false. unfold SFltb, fkey.
  split.
  - intros H.
    assert (Hx : Prim2SF x <> S754_nan) by (intros E; rewrite E in H; discriminate).
    assert (Hy : Prim2SF y <> S754_nan)
      by (intros E; rewrite E in H; destruct (Prim2SF x); discriminate).
    rewrite (SFcompare_key Hx Hy) in H.
    repeat split; auto. apply lex3_Lt. destruct (lex3 _ _); congruence.
  - intros (Hx & Hy & H). rewrite (SFcompare_key Hx Hy).
    apply lex3_Lt in H. now rewrite H.
Qed.

Lemma leb_true_iff x y :
  leb x y = true <->
  is_nan x = false /\ is_nan y = false /\ (klt (fkey x) (fkey y) \/ fkey x = fkey y).
Proof.
  rewrite leb_spec, !is_nan_false. unfold SFleb, fkey.
  split.
  - intros H.
    assert (Hx : Prim2SF x <> S754_nan) by (intros E; rewrite E in H; discriminate).
    assert (Hy : Prim2SF y <> S754_nan)
      by (intros E; rewrite E in H; destruct (Prim2SF x); discriminate).
    rewrite (SFcompare_key Hx Hy) in H.
    repeat split; auto.
    destruct (lex3 _ _) eqn:E; try discriminate.
    + right. now apply lex3_Eq.
    + left. now apply lex3_Lt.
  - intros (Hx & Hy & H). rewrite (SFcompare_key Hx Hy).
    destruct H as [H|H].
    + apply lex3_Lt in H. now rewrite H.
    + apply lex3_Eq in H. now rewrite H.
Qed.


Lemma flt_not_nan a b : flt a b -> not_nan a /\ not_nan b.
Proof. intros H. apply ltb_true_iff in H. tauto. Qed.

Lemma fle_not_nan a b : fle a b -> not_nan a /\ not_nan b.
Proof. intros H. apply leb_true_iff in H. tauto. Qed.

Lemma flt_fle a b : flt a b -> fle a b.
Proof.
  intros H. apply ltb_true_iff in H. apply leb_true_iff. tauto.
Qed.

Lemma fle_refl a : not_nan a -> fle a a.
Proof. intros H. apply leb_true_iff. auto. Qed.

Lemma flt_trans a b c : flt a b -> flt b c -> flt a c.
Proof.
  intros H1 H2. apply ltb_true_iff in H1, H2. apply ltb_true_iff.
  repeat split; try tauto. eapply klt_trans; [apply H1|apply H2].
Qed.

Lemma fle_flt_trans a b c : fle a b -> flt b c -> flt a c.
Proof.
  intros H1 H2. apply leb_true_iff in H1. apply ltb_true_iff in H2.
  apply ltb_true_iff. repeat split; try tauto.
  destruct H1 as (_ & _ & [H1|H1]).
  - eapply klt_trans; [apply H1|apply H2].
  - rewrite H1. apply H2.
Qed.

Lemma flt_fle_trans a b c : flt a b -> fle b c -> flt a c.
Proof.
  intros H1 H2. apply ltb_true_iff in H1. apply leb_true_iff in H2.
  apply ltb_true_iff. repeat split; try tauto.
  destruct H2 as (_ & _ & [H2|H2]).
  - eapply klt_trans; [apply H1|apply H2].
  - rewrite <- H2. apply H1.
Qed.

Lemma fle_trans a b c : fle a b -> fle b c -> fle a c.
Proof.
  intros H1 H2. pose proof H1 as H1'. apply leb_true_iff in H1'.
  destruct H1' as (Ha & Hb & [H|H]).
  - apply flt_fle. apply flt_fle_trans with b; auto.
    apply ltb_true_iff. apply leb_true_iff in H2. tauto.
  - apply leb_true_iff in H2. apply leb_true_iff. rewrite H. tauto.
Qed.

(** Among numbers that are not NaN, [a <= b] fails exactly when
    [b < a]. *)
Lemma leb_false_flt a b : not_nan a -> not_nan b -> PrimFloat.leb a b = false -> flt b a.
Proof.
  intros Ha Hb H. apply ltb_true_iff. repeat split; auto.
  destruct (klt_total (fkey a) (fkey b)) as [K|[K|K]]; auto.
  - assert (PrimFloat.leb a b = true) by (apply leb_true_iff; auto). congruence.
  - assert (PrimFloat.leb a b = true) by (apply leb_true_iff; auto). congruence.
Qed.

Lemma ltb_false_fle a b : not_nan a -> not_nan b -> PrimFloat.ltb a b = false -> fle b a.
Proof.
  intros Ha Hb H. apply leb_true_iff. repeat split; auto.
  destruct (klt_total (fkey a) (fkey b)) as [K|[K|K]]; auto.
  assert (PrimFloat.ltb a b = true) by (apply ltb_true_iff; auto). congruence.
Qed.

Lemma flt_irrefl a : ~ flt a a.
Proof. intros H. apply ltb_true_iff in H. eapply klt_irrefl. apply H. Qed.

(* ================================================================== *)
(** ** Facts about the numpy reductions, at binary64 *)

Section Reductions64.
Variable libm_pow : float -> float -> float.
Let N64 : Num float := Binary64.Float64 libm_pow.
Local Existing Instance N64.

(** The loop invariant of [np.argmin]: after the prefix [pre], the
    candidate is the first least element of [pre]. *)
Lemma argmin_from_first_min (a pre : list float) (mp : float) (min_ind : nat) :
  Forall not_nan (pre ++ a) ->
  (min_ind < length pre)%nat ->
  nth min_ind pre 0%float = mp ->
  (forall j, (j < length pre)%nat -> fle mp (nth j pre 0%float)) ->
  (forall j, (j < min_ind)%nat -> flt mp (nth j pre 0%float)) ->
  first_min (pre ++ a) (argmin_from mp min_ind (length pre) a).
Proof.
  revert pre mp min_ind.
  induction a as [|v a IH]; intros pre mp min_ind Hnn Hlt Hmp Hle Hfirst.
  - cbn. rewrite app_nil_r. subst mp. repeat split; auto.
  - assert (Hv : not_nan v).
    { rewrite Forall_forall in Hnn. apply Hnn. apply in_or_app. right. now left. }
    assert (Hmpn : not_nan mp).
    { rewrite Forall_forall in Hnn. apply Hnn. apply in_or_app. left.
      subst mp. now apply nth_In. }
    assert (Hlen : length (pre ++ [v]) = S (length pre)).
    { rewrite length_app. cbn. lia. }
    replace (pre ++ v :: a) with ((pre ++ [v]) ++ a)
      by (rewrite <- app_assoc; reflexivity).
    cbn [argmin_from]. cbn [Fleb Fisnan N64 Binary64.Float64].
    destruct (PrimFloat.leb mp v) eqn:E; cbn [negb].
    + rewrite <- Hlen. apply IH.
      * rewrite <- app_assoc. exact Hnn.
      * rewrite Hlen. lia.
      * rewrite app_nth1 by lia. exact Hmp.
      * intros j Hj. rewrite Hlen in Hj.
        destruct (Nat.eq_dec j (length pre)) as [->|Hne].
        -- rewrite nth_middle. exact E.
        -- rewrite app_nth1 by lia. apply Hle. lia.
      * intros j Hj. rewrite app_nth1 by lia. now apply Hfirst.
    + unfold not_nan in Hv. rewrite Hv.
      pose proof (leb_false_flt Hmpn Hv E) as Hvm.
      rewrite <- Hlen. apply IH.
      * rewrite <- app_assoc. exact Hnn.
      * rewrite Hlen. lia.
      * apply nth_middle.
      * intros j Hj. rewrite Hlen in Hj.
        destruct (Nat.eq_dec j (length pre)) as [->|Hne].
        -- rewrite nth_middle. now apply fle_refl.
        -- rewrite app_nth1 by lia. apply flt_fle.
           apply flt_fle_trans with mp; auto. apply Hle. lia.
      * intros j Hj. rewrite app_nth1 by lia.
        apply flt_fle_trans with mp; auto.
Qed.

(** [np.argmin] returns the first index of a least element when no
    element is NaN. *)
Lemma np_argmin_first_min (l : list float) :
  l <> [] -> Forall not_nan l -> first_min l (np_argmin l).
Proof.
  intros Hne Hnn. destruct l as [|v a]; [congruence|].
  assert (Hv : not_nan v) by (inversion Hnn; assumption).
  cbn [np_argmin]. cbn [Fisnan N64 Binary64.Float64].
  unfold not_nan in Hv. rewrite Hv.
  apply (argmin_from_first_min a [v] (mp:=v) (min_ind:=0)); cbn; auto.
  - intros j Hj. assert (j = 0)%nat by lia. subst j. now apply fle_refl.
  - intros j Hj. lia.
Qed.

(** [np.minimum.reduce]: without NaN the result is an element of the
    array below all the others. *)
Lemma fold_np_minimum (a : list float) (v : float) :
  Forall not_nan (v :: a) ->
  let m := fold_left np_minimum a v in
  In m (v :: a) /\ forall d, In d (v :: a) -> fle m d.
Proof.
  revert v. induction a as [|u a IH]; intros v Hnn; cbn.
  - split; [now left|]. intros d [<-|[]]. apply fle_refl. now inversion Hnn.
  - assert (Hv : not_nan v) by (inversion Hnn; assumption).
    assert (Hu : not_nan u) by (inversion Hnn as [|? ? _ H']; inversion H'; assumption).
    assert (Ha : Forall not_nan a)
      by (inversion Hnn as [|? ? _ H']; inversion H'; assumption).
    assert (Hmin : np_minimum v u = if PrimFloat.ltb v u then v else u).
    { unfold np_minimum. cbn [Fltb Fisnan N64 Binary64.Float64].
      unfold not_nan in Hv. now rewrite Hv, orb_false_r. }
    rewrite Hmin.
    destruct (PrimFloat.ltb v u) eqn:E.
    + destruct (IH v) as [Hin Hle]; [constructor; auto|].
      split.
      * destruct Hin as [Hin|Hin]; [now left|right; now right].
      * intros d [<-|[<-|Hd]].
        -- apply Hle. now left.
        -- apply fle_trans with v; [apply Hle; now left|]. now apply flt_fle.
        -- apply Hle. now right.
    + destruct (IH u) as [Hin Hle]; [constructor; auto|].
      split.
      * right. exact Hin.
      * intros d [<-|[<-|Hd]].
        -- apply fle_trans with u; [apply Hle; now left|].
           now apply ltb_false_fle.
        -- apply Hle. now left.
        -- apply Hle. now right.
Qed.

(** So the minimum is below a threshold exactly when some element is. *)
Lemma np_min_below (a : list float) (t : float) :
  a <> [] -> Forall not_nan a ->
  exists m, np_min a = Ok m /\
            (PrimFloat.ltb m t = true <-> exists d, In d a /\ flt d t).
Proof.
  intros Hne Hnn. destruct a as [|v a]; [congruence|].
  cbn [np_min]. eexists; split; [reflexivity|].
  destruct (fold_np_minimum Hnn) as [Hin Hle].
  split.
  - intros H. eexists; split; [exact Hin|exact H].
  - intros (d & Hd & Hdt). apply fle_flt_trans with d; auto.
Qed.

(** [np.maximum.reduce]: without NaN the result is an element of the
    array above all the others. *)
Lemma fold_np_maximum (a : list float) (v : float) :
  Forall not_nan (v :: a) ->
  let m := fold_left np_maximum a v in
  In m (v :: a) /\ forall d, In d (v :: a) -> fle d m.
Proof.
  revert v. induction a as [|u a IH]; intros v Hnn; cbn.
  - split; [now left|]. intros d [<-|[]]. apply fle_refl. now inversion Hnn.
  - assert (Hv : not_nan v) by (inversion Hnn; assumption).
    assert (Hu : not_nan u) by (inversion Hnn as [|? ? _ H']; inversion H'; assumption).
    assert (Ha : Forall not_nan a)
      by (inversion Hnn as [|? ? _ H']; inversion H'; assumption).
    assert (Hmax : np_maximum v u = if PrimFloat.ltb u v then v else u).
    { unfold np_maximum. cbn [Fltb Fisnan N64 Binary64.Float64].
      unfold not_nan in Hv. now rewrite Hv, orb_false_r. }
    rewrite Hmax.
    destruct (PrimFloat.ltb u v) eqn:E.
    + destruct (IH v) as [Hin Hle]; [constructor; auto|].
      split.
      * destruct Hin as [Hin|Hin]; [now left|right; now right].
      * intros d [<-|[<-|Hd]].
        -- apply Hle. now left.
        -- apply fle_trans with v; [now apply flt_fle|apply Hle; now left].
        -- apply Hle. now right.
    + destruct (IH u) as [Hin Hle]; [constructor; auto|].
      split.
      * right. exact Hin.
      * intros d [<-|[<-|Hd]].
        -- apply fle_trans with u; [|apply Hle; now left].
           now apply ltb_false_fle.
        -- apply Hle. now left.
        -- apply Hle. now right.
Qed.

(** Without NaN, [a.min()] and [a.max()] are elements of the array that
    enclose all the others. *)
Lemma np_min_max_box (a : list float) (lo hi : float) :
  Forall not_nan a -> np_min a = Ok lo -> np_max a = Ok hi ->
  In lo a /\ In hi a /\ forall v, In v a -> fle lo v /\ fle v hi.
Proof.
  intros Hnn Hlo Hhi. destruct a as [|v a]; [discriminate|].
  cbn [np_min np_max] in Hlo, Hhi. injection Hlo as <-. injection Hhi as <-.
  destruct (fold_np_minimum Hnn) as [H1 H2].
  destruct (fold_np_maximum Hnn) as [H3 H4].
  repeat split; auto.
Qed.

End Reductions64.

(* ================================================================== *)
(** ** Facts about arrays *)

Section Arrays.
Context {A B C : Type}.

Lemma zip_with_length (f : A -> B -> C) (a : list A) (b : list B) :
  length (zip_with f a b) = Nat.min (length a) (length b).
Proof. unfold zip_with. now rewrite length_map, length_combine. Qed.

Lemma zip_with_nth (f : A -> B -> C) (a : list A) (b : list B) k da db dc :
  (k < length a)%nat -> (k < length b)%nat ->
  nth k (zip_with f a b) dc = f (nth k a da) (nth k b db).
Proof.
  revert b k. induction a as [|u a IH]; intros [|v b] [|k] Ha Hb;
    cbn in *; try lia; auto.
  apply IH; lia.
Qed.

Lemma map_nth_in (f : A -> B) (l : list A) k d d' :
  (k < length l)%nat -> nth k (map f l) d = f (nth k l d').
Proof.
  revert k. induction l as [|u l IH]; intros [|k] Hk; cbn in *; try lia; auto.
  apply IH; lia.
Qed.

Lemma zip_with_cons (f : A -> B -> C) u a v b :
  zip_with f (u :: a) (v :: b) = f u v :: zip_with f a b.
Proof. reflexivity. Qed.

Lemma bool_index_length_le (a : list A) (mask : list bool) :
  (length (bool_index a mask) <= length a)%nat.
Proof.
  revert mask. induction a as [|v a IH]; intros [|b mask]; cbn; try lia.
  destruct b; cbn; specialize (IH mask); lia.
Qed.

End Arrays.

Section Sums.
Context {F : Type} {N : Num F}.

Lemma pairwise_split_bounds (n : nat) :
  (128 < n)%nat ->
  let n2 := (n / 2 - (n / 2) mod 8)%nat in
  (0 < n2 < n)%nat.
Proof.
  intros Hn n2.
  pose proof (Nat.Div0.mul_div_le n 2) as H1.
  pose proof (Nat.mod_upper_bound (n / 2) 8 ltac:(lia)) as H2.
  assert (H3 : (64 <= n / 2)%nat) by (apply Nat.div_le_lower_bound; lia).
  unfold n2. lia.
Qed.

Lemma pairwise_sum_rec_fuel (f1 f2 : nat) (a : array F) :
  (length a <= f1)%nat -> (length a <= f2)%nat ->
  pairwise_sum_rec f1 a = pairwise_sum_rec f2 a.
Proof.
  revert f2 a. induction f1 as [|f1 IH]; intros f2 a H1 H2.
  - assert (E : (length a <? 8)%nat = true) by (apply Nat.ltb_lt; lia).
    destruct f2; cbn [pairwise_sum_rec]; now rewrite E.
  - destruct f2 as [|f2].
    { assert (E : (length a <? 8)%nat = true) by (apply Nat.ltb_lt; lia).
      cbn [pairwise_sum_rec]. now rewrite E. }
    cbn [pairwise_sum_rec].
    destruct (length a <? 8)%nat; [reflexivity|].
    destruct (Nat.leb_spec (length a) 128) as [_|Hbig]; [reflexivity|].
    destruct (pairwise_split_bounds Hbig) as [Hlo Hhi].
    set (n2 := (length a / 2 - (length a / 2) mod 8)%nat) in *.
    f_equal; apply IH;
      rewrite ?length_firstn, ?length_skipn; lia.
Qed.

(** The fuel of [pairwise_sum] is enough: more of it changes nothing. *)
Lemma pairwise_sum_fuel (fuel : nat) (a : array F) :
  (length a <= fuel)%nat -> pairwise_sum_rec fuel a = pairwise_sum a.
Proof.
  intros H. unfold pairwise_sum. apply pairwise_sum_rec_fuel; lia.
Qed.

End Sums.

(** Eight elements are added as a tree, not from left to right. *)
Example np_sum_groups_eight :
  let a := [1e16; 1; -1e16; 1; 1; 1; 1; 1]%float in
  np_sum (N:=Binary64.Float64 Binary64.no_libm) a = 4%float
  /\ sum_from (N:=Binary64.Float64 Binary64.no_libm) 0%float a = 5%float.
Proof. split; vm_compute; reflexivity. Qed.

Section GenericIdw.
Context {F : Type} {N : Num F}.
Local Open Scope num_scope.

Lemma idw_distances_length (self : InterpolationEngine) (x y : array F) gx gy :
  length (idw_distances self x y gx gy) = Nat.min (length x) (length y).
Proof.
  unfold idw_distances. now rewrite !length_map, zip_with_length, !length_map.
Qed.

(** The distance of the source: [sqrt((x_k - gx)**2 + (y_k - gy)**2) + s]. *)
Lemma idw_distances_nth (self : InterpolationEngine) (x y : array F) gx gy k d0 :
  (k < length x)%nat -> (k < length y)%nat ->
  nth k (idw_distances self x y gx gy) d0 =
  Fsqrt ((nth k x d0 - gx) * (nth k x d0 - gx)
         + (nth k y d0 - gy) * (nth k y d0 - gy)) + smoothing self.
Proof.
  intros Hx Hy. unfold idw_distances.
  rewrite (map_nth_in _ _ d0 d0)
    by (rewrite length_map, zip_with_length, !length_map; lia).
  rewrite (map_nth_in _ _ d0 d0)
    by (rewrite zip_with_length, !length_map; lia).
  rewrite (zip_with_nth Fadd _ _ d0 d0 d0) by (rewrite length_map; lia).
  now rewrite !(map_nth_in _ _ d0 d0) by lia.
Qed.

(** The weight of the source: [1.0 / d_k ** p]. *)
Lemma idw_weights_nth (self : InterpolationEngine) (d : array F) k d0 :
  (k < length d)%nat ->
  nth k (idw_weights self d) d0 = Fof_Z 1 / (nth k d d0 ** power self).
Proof.
  intros Hk. unfold idw_weights. now rewrite (map_nth_in _ _ d0 d0).
Qed.

Lemma argmin_from_bound (a : array F) (mp : F) (min_ind i : nat) :
  (min_ind < i)%nat -> (argmin_from mp min_ind i a < i + length a)%nat.
Proof.
  revert mp min_ind i. induction a as [|v a IH]; intros mp min_ind i Hi; cbn.
  - lia.
  - destruct (negb (mp <=? v)).
    + destruct (Fisnan v); [lia|].
      specialize (IH v i (S i)). lia.
    + specialize (IH mp min_ind (S i)). lia.
Qed.

Lemma np_argmin_bound (a : array F) : a <> [] -> (np_argmin a < length a)%nat.
Proof.
  destruct a as [|v a]; [congruence|]. intros _. cbn.
  destruct (Fisnan v); [lia|].
  pose proof (argmin_from_bound a v (min_ind:=0) (i:=1)). lia.
Qed.

Lemma np_any_exists (mask : list bool) :
  np_any mask = true <-> exists k, (k < length mask)%nat /\ nth k mask false = true.
Proof.
  unfold np_any. rewrite existsb_exists. split.
  - intros (b & Hin & ->). apply In_nth with (d:=false) in Hin.
    destruct Hin as (k & Hk & E). eauto.
  - intros (k & Hk & E). exists true. split; auto. rewrite <- E. now apply nth_In.
Qed.

(** In the coincidence branch the estimate is one of the source values. *)
Lemma idw_cell_coincident_In (self : InterpolationEngine) (x y z : array F) gx gy :
  length y = length x -> length z = length x ->
  np_any (map (fun d => d <? lit_1e_10) (idw_distances self x y gx gy)) = true ->
  idw_cell self x y z gx gy = nth (np_argmin (idw_distances self x y gx gy)) z (Fof_Z 0)
  /\ In (idw_cell self x y z gx gy) z.
Proof.
  intros Hy Hz Hany. unfold idw_cell. rewrite Hany. split; [reflexivity|].
  apply nth_In. rewrite Hz.
  assert (Hne : idw_distances self x y gx gy <> []).
  { intros E. rewrite E in Hany. discriminate. }
  pose proof (np_argmin_bound Hne) as Hb.
  rewrite idw_distances_length in Hb. lia.
Qed.

End GenericIdw.

(* ================================================================== *)
(** ** Sums and comparisons in exact arithmetic *)

Section SumsExact.
Import Exact.
Local Open Scope R_scope.

Lemma Rltb_true (a b : R) : a < b -> Rltb a b = true.
Proof. intros H. unfold Rltb. destruct (Rlt_dec a b); [reflexivity|lra]. Qed.

Lemma Rltb_false (a b : R) : b <= a -> Rltb a b = false.
Proof. intros H. unfold Rltb. destruct (Rlt_dec a b); [lra|reflexivity]. Qed.

Lemma fold_left_Rplus (l : list R) (a : R) :
  fold_left Rplus l a = a + fold_left Rplus l 0.
Proof.
  revert a. induction l as [|v l IH]; intros a; cbn.
  - lra.
  - rewrite IH, (IH (0 + v)). lra.
Qed.

Lemma sum_from_exact (acc : R) (a : list R) :
  sum_from acc a = acc + sum_from 0 a.
Proof. unfold sum_from. cbn [Fadd Real]. apply fold_left_Rplus. Qed.

Lemma sum_from_app (a b : list R) :
  sum_from 0 (a ++ b) = sum_from 0 a + sum_from 0 b.
Proof.
  unfold sum_from. cbn [Fadd Real]. rewrite fold_left_app.
  now rewrite (fold_left_Rplus b (fold_left Rplus a 0)).
Qed.

Lemma sum_from_split (n : nat) (a : list R) :
  sum_from 0 a = sum_from 0 (firstn n a) + sum_from 0 (skipn n a).
Proof. now rewrite <- sum_from_app, firstn_skipn. Qed.

Lemma sum_from_pairs (r b : list R) :
  length b = length r ->
  sum_from 0 (map (fun p => Fadd (fst p) (snd p)) (combine r b))
  = sum_from 0 r + sum_from 0 b.
Proof.
  revert b. induction r as [|u r IH]; intros [|v b] H; cbn in H; try lia.
  - unfold sum_from. cbn. lra.
  - cbn [combine map fst snd]. unfold sum_from in *.
    cbn [fold_left Fadd Real] in *.
    rewrite (fold_left_Rplus _ (0 + (u + v))), (fold_left_Rplus r (0 + u)),
      (fold_left_Rplus b (0 + v)), IH by lia.
    lra.
Qed.

(** The running sums and the rest hold the sum of the block. *)
Lemma add_groups_exact (k : nat) (r rest : list R) :
  length r = 8%nat -> (8 * k <= length rest)%nat ->
  length (fst (add_groups k r rest)) = 8%nat
  /\ sum_from 0 (fst (add_groups k r rest)) + sum_from 0 (snd (add_groups k r rest))
     = sum_from 0 r + sum_from 0 rest.
Proof.
  revert r rest. induction k as [|k IH]; intros r rest Hr Hk.
  - cbn. split; [assumption|reflexivity].
  - cbn [add_groups].
    assert (Hf : length (firstn 8 rest) = 8%nat) by (rewrite length_firstn; lia).
    destruct (IH (map (fun p => Fadd (fst p) (snd p)) (combine r (firstn 8 rest)))
                 (skipn 8 rest)) as [H1 H2].
    + rewrite length_map, length_combine. lia.
    + rewrite length_skipn. lia.
    + split; [exact H1|]. rewrite H2, sum_from_pairs by lia.
      rewrite (sum_from_split 8 rest). lra.
Qed.

Lemma block_sum_exact (a : list R) :
  (8 <= length a)%nat -> block_sum a = sum_from 0 a.
Proof.
  intros Hn. unfold block_sum.
  assert (Hdiv : (8 * (length a / 8) <= length a)%nat)
    by (apply Nat.Div0.mul_div_le).
  assert (Hpos : (1 <= length a / 8)%nat)
    by (apply Nat.div_le_lower_bound; lia).
  destruct (add_groups_exact (length a / 8 - 1) (firstn 8 a) (skipn 8 a))
    as [H1 H2].
  - rewrite length_firstn. lia.
  - rewrite length_skipn. lia.
  - rewrite <- (sum_from_split 8 a) in H2.
    destruct (add_groups (length a / 8 - 1) (firstn 8 a) (skipn 8 a)) as [r rest].
    cbn [fst snd] in *.
    destruct r as [|r0 [|r1 [|r2 [|r3 [|r4 [|r5 [|r6 [|r7 [|r8 r]]]]]]]]];
      try discriminate H1.
    rewrite sum_from_exact, <- H2. unfold sum_from at 2. cbn [fold_left Fadd Real].
    lra.
Qed.

Lemma pairwise_sum_rec_exact (fuel : nat) (a : list R) :
  pairwise_sum_rec fuel a = sum_from 0 a.
Proof.
  revert a. induction fuel as [|fuel IH]; intros a; cbn [pairwise_sum_rec].
  - destruct (Nat.ltb_spec (length a) 8); [reflexivity|].
    destruct (length a <=? 128)%nat; now apply block_sum_exact.
  - destruct (Nat.ltb_spec (length a) 8); [reflexivity|].
    destruct (length a <=? 128)%nat; [now apply block_sum_exact|].
    rewrite !IH. cbn [Fadd Real]. symmetry. apply sum_from_split.
Qed.

(** In exact arithmetic [np.sum] is the sum. *)
Lemma np_sum_exact (a : list R) : np_sum a = fold_left Rplus a 0.
Proof.
  unfold np_sum, pairwise_sum. rewrite pairwise_sum_rec_exact.
  unfold sum_from.
  change (@Fadd R Real) with Rplus. change (@Fof_Z R Real 0) with 0. lra.
Qed.

Lemma np_sum_nil : np_sum (@nil R) = 0.
Proof. now rewrite np_sum_exact. Qed.

Lemma np_sum_cons (v : R) (l : list R) : np_sum (v :: l) = v + np_sum l.
Proof.
  rewrite !np_sum_exact. cbn. rewrite fold_left_Rplus. lra.
Qed.

End SumsExact.

(* ================================================================== *)
(** ** Inverse distance weighting *)

Section Idw64.
Variable libm_pow : float -> float -> float.
Let N64 : Num float := Binary64.Float64 libm_pow.
Local Existing Instance N64.
Local Open Scope float_scope.

(** C1, as amended.  At a grid cell [(gx, gy)] let
    [d_k = sqrt((x_k - gx)^2 + (y_k - gy)^2) + s], and assume that no
    [d_k] is NaN.  If some [d_k] is below [1e-10] the estimate is exactly
    the value [z_k] of the nearest source, the first one by index among
    equally near ones, and that source is itself below [1e-10];
    otherwise the estimate is [sum(w_k * z_k) / sum(w_k)] with
    [w_k = 1 / d_k ** p], the sums being [np.sum].  So a cell reproduces
    a measured value exactly, and the same value for every power [p],
    when a distance with the smoothing added is below [1e-10].  The
    test is made on [d_k], smoothing included: matching the coordinates
    of a source does not by itself select the first branch
    ([idw_smoothing_breaks_reproduction]).  In exact arithmetic the
    two sums are the sums of their terms, however numpy groups the
    additions. *)
Theorem idw_cell_contract (self : InterpolationEngine (F:=float))
    (x y z : list float) (gx gy : float) :
  length y = length x -> length z = length x ->
  let d := idw_distances self x y gx gy in
  let w := idw_weights self d in
  Forall not_nan d ->
  (forall k, (k < length x)%nat ->
     nth k d 0 = PrimFloat.sqrt ((nth k x 0 - gx) * (nth k x 0 - gx)
                                 + (nth k y 0 - gy) * (nth k y 0 - gy)) + smoothing self
     /\ nth k w 0 = 1 / Binary64.float_power libm_pow (nth k d 0) (power self))
  /\ ((exists k, (k < length x)%nat /\ flt (nth k d 0) 1e-10) ->
      exists k, first_min d k /\ flt (nth k d 0) 1e-10
                /\ idw_cell self x y z gx gy = nth k z 0
                /\ forall self' : InterpolationEngine (F:=float),
                     smoothing self' = smoothing self ->
                     idw_cell self' x y z gx gy = nth k z 0)
  /\ ((forall k, (k < length x)%nat -> ~ flt (nth k d 0) 1e-10) ->
      idw_cell self x y z gx gy = np_sum (zip_with PrimFloat.mul w z) / np_sum w)
  /\ (forall (selfR : InterpolationEngine (F:=R)) (xr yr zr : list R) (gxr gyr : R),
        let dr := idw_distances (N:=Exact.Real) selfR xr yr gxr gyr in
        let wr := map (fun v => (1 / Rpower v (power selfR))%R) dr in
        (forall v, In v dr -> (1 / 10000000000 <= v)%R) ->
        idw_cell (N:=Exact.Real) selfR xr yr zr gxr gyr
        = (fold_left Rplus (zip_with Rmult wr zr) 0
           / fold_left Rplus wr 0)%R).
Proof.
  intros Hy Hz d w Hnn.
  assert (Hd : length d = length x).
  { unfold d. rewrite idw_distances_length. lia. }
  split; [|split; [|split]].
  - intros k Hk. split.
    + unfold d. rewrite idw_distances_nth by lia. reflexivity.
    + unfold w. rewrite idw_weights_nth by lia. reflexivity.
  - intros (k & Hk & Hlt).
    assert (Hany : np_any (map (fun v => Fltb v lit_1e_10) d) = true).
    { apply np_any_exists. exists k. rewrite length_map. split; [lia|].
      rewrite (map_nth_in _ _ false 0) by lia. exact Hlt. }
    assert (Hne : d <> []) by (intros E; rewrite E in Hd; cbn in Hd; lia).
    pose proof (np_argmin_first_min libm_pow Hne Hnn) as Hmin.
    exists (np_argmin d). split; [exact Hmin|]. split.
    + destruct Hmin as (_ & Hle & _).
      apply fle_flt_trans with (nth k d 0); auto. apply Hle. lia.
    + assert (Hsame : forall self' : InterpolationEngine (F:=float),
                smoothing self' = smoothing self ->
                idw_cell self' x y z gx gy = nth (np_argmin d) z 0).
      { intros self' Hs.
        assert (Ed : idw_distances self' x y gx gy = d)
          by (unfold d, idw_distances; now rewrite Hs).
        destruct (idw_cell_coincident_In self' x y z gx gy Hy Hz) as [E _].
        { rewrite Ed. exact Hany. }
        rewrite E, Ed. apply nth_indep.
        pose proof (np_argmin_bound Hne). lia. }
      split; [now apply Hsame|exact Hsame].
  - intros Hall.
    assert (Hany : np_any (map (fun v => Fltb v lit_1e_10) d) = false).
    { destruct (np_any _) eqn:E; auto. exfalso.
      apply np_any_exists in E. destruct E as (k & Hk & E).
      rewrite length_map in Hk. rewrite (map_nth_in _ _ false 0) in E by lia.
      apply (Hall k); [lia|exact E]. }
    unfold idw_cell. fold d. rewrite Hany. reflexivity.
  - intros selfR xr yr zr gxr gyr dr wr Hfar.
    assert (Hany : np_any (map (fun v => @Fltb R Exact.Real v
                                       (@lit_1e_10 R Exact.Real)) dr)
                   = false).
    { destruct (np_any _) eqn:E; auto. exfalso.
      apply np_any_exists in E. destruct E as (k & Hk & E).
      rewrite length_map in Hk.
      rewrite (map_nth_in _ _ false 0%R) in E by lia.
      rewrite Rltb_false in E; [discriminate|].
      apply Hfar. now apply nth_In. }
    unfold idw_cell. fold dr. rewrite Hany.
    rewrite !np_sum_exact. reflexivity.
Qed.

End Idw64.

(** A run of [idw_cell_contract]: three sources, the cell on the first
    one, no smoothing. *)
Lemma idw_cell_contract_witness :
  let self := Engine "idw" 2%float 0%float "gaussian" 0%float in
  let x := [0; 1; 0]%float in
  let y := [0; 0; 1]%float in
  let z := [1; 2; 3]%float in
  exists k, first_min (idw_distances (N:=Binary64.Float64 Binary64.no_libm) self x y 0%float 0%float) k
            /\ idw_cell (N:=Binary64.Float64 Binary64.no_libm) self x y z 0%float 0%float
               = nth k z 0%float.
Proof.
  cbv zeta.
  destruct (@idw_cell_contract Binary64.no_libm
              (Engine "idw" 2%float 0%float "gaussian" 0%float)
              [0; 1; 0]%float [0; 0; 1]%float [1; 2; 3]%float 0%float 0%float
              eq_refl eq_refl) as (_ & H & _).
  - vm_compute. repeat constructor.
  - destruct H as (k & H1 & _ & H3 & _).
    + exists 0%nat. split; [cbn; lia|]. vm_compute. reflexivity.
    + exists k. split; assumption.
Defined.

(** C1 fails as stated: with smoothing [1.0] the cell [(0, 0)] lies
    exactly on the first source, whose value is [1.0], and is estimated
    as [1.5]. *)
Lemma idw_smoothing_breaks_reproduction :
  let N64 := Binary64.Float64 Binary64.no_libm in
  exists self,
    __init__ (N:=N64) false "idw" (Kwargs None (Some 1%float) None None) = Ok self
    /\ idw_cell (N:=N64) self [0; 1; 0]%float [0; 0; 1]%float [1; 2; 3]%float
         0%float 0%float = 1.5%float
    /\ PrimFloat.eqb 1.5 1 = false.
Proof.
  cbv zeta. eexists. split; [vm_compute; reflexivity|].
  split; vm_compute; reflexivity.
Qed.

Section IdwExact.
Import Exact.
Local Open Scope R_scope.

(** A weighted sum with positive weights lies between the extreme
    values times the total weight. *)
Lemma weighted_sum_bounds (w z : list R) (m M : R) :
  length z = length w ->
  (forall v, In v w -> 0 < v) ->
  (forall v, In v z -> m <= v <= M) ->
  m * np_sum w <= np_sum (zip_with Rmult w z) <= M * np_sum w.
Proof.
  revert z. induction w as [|u w IH]; intros [|v z] Hlen Hw Hz;
    cbn in Hlen; try lia.
  - change (zip_with Rmult [] []) with (@nil R). rewrite np_sum_nil. lra.
  - rewrite zip_with_cons, !np_sum_cons.
    assert (Hu : 0 < u) by (apply Hw; now left).
    assert (Hv : m <= v <= M) by (apply Hz; now left).
    destruct (IH z) as [H1 H2]; [lia|intros; apply Hw; now right
                                |intros; apply Hz; now right|].
    split; nra.
Qed.

Lemma np_sum_pos (w : list R) :
  w <> [] -> (forall v, In v w -> 0 < v) -> 0 < np_sum w.
Proof.
  induction w as [|u w IH]; intros Hne Hw; [congruence|].
  rewrite np_sum_cons.
  assert (Hu : 0 < u) by (apply Hw; now left).
  destruct w as [|u' w'].
  - rewrite np_sum_nil. lra.
  - assert (0 < np_sum (u' :: w')).
    { apply IH; [discriminate|]. intros; apply Hw; now right. }
    lra.
Qed.

Lemma idw_weights_pos (self : InterpolationEngine (F:=R)) (d : list R) :
  forall v, In v (idw_weights self d) -> 0 < v.
Proof.
  intros v Hin. unfold idw_weights in Hin. apply in_map_iff in Hin.
  destruct Hin as (u & <- & _). cbn.
  unfold Rdiv. rewrite Rmult_1_l. apply Rinv_0_lt_compat.
  unfold Rpower. apply exp_pos.
Qed.

(** In exact arithmetic the estimate at a cell lies between any two
    bounds of the source values. *)
Lemma idw_cell_within (self : InterpolationEngine (F:=R)) (x y z : list R)
    (gx gy m M : R) :
  (3 <= length x)%nat -> length y = length x -> length z = length x ->
  (forall v, In v z -> m <= v <= M) ->
  m <= idw_cell self x y z gx gy <= M.
Proof.
  intros Hn Hy Hz Hb.
  destruct (np_any (map (fun d => Fltb d lit_1e_10) (idw_distances self x y gx gy)))
    eqn:Hany.
  - apply Hb. now apply idw_cell_coincident_In.
  - unfold idw_cell. rewrite Hany.
    set (d := idw_distances self x y gx gy).
    set (w := idw_weights self d).
    assert (Hd : length d = length x).
    { unfold d. rewrite idw_distances_length. lia. }
    assert (Hw : length w = length x).
    { unfold w, idw_weights. now rewrite length_map. }
    assert (Hpos : 0 < np_sum w).
    { apply np_sum_pos; [|apply idw_weights_pos].
      intros E. rewrite E in Hw. cbn in Hw. lia. }
    destruct (@weighted_sum_bounds w z m M) as [H1 H2];
      [lia|apply idw_weights_pos|exact Hb|].
    cbn [Fdiv Fmul Real]. unfold Rdiv. split.
    + apply Rmult_le_reg_r with (np_sum w); auto.
      rewrite Rmult_assoc, Rinv_l by lra. lra.
    + apply Rmult_le_reg_r with (np_sum w); auto.
      rewrite Rmult_assoc, Rinv_l by lra. lra.
Qed.

End IdwExact.

Section RangeExact.
Import Exact.
Local Open Scope R_scope.

Lemma fold_np_minimum_le (l : list R) (v : R) :
  fold_left np_minimum l v <= v /\ forall u, In u l -> fold_left np_minimum l v <= u.
Proof.
  revert v. induction l as [|a l IH]; intros v; cbn [fold_left].
  - split; [lra|intros u []].
  - destruct (IH (np_minimum v a)) as [H1 H2].
    assert (Hm : np_minimum v a <= v /\ np_minimum v a <= a).
    { unfold np_minimum. cbn. unfold Rltb.
      destruct (Rlt_dec v a); cbn; lra. }
    split; [lra|]. intros u [<-|Hu]; [lra|auto].
Qed.

Lemma fold_np_maximum_ge (l : list R) (v : R) :
  v <= fold_left np_maximum l v /\ forall u, In u l -> u <= fold_left np_maximum l v.
Proof.
  revert v. induction l as [|a l IH]; intros v; cbn [fold_left].
  - split; [lra|intros u []].
  - destruct (IH (np_maximum v a)) as [H1 H2].
    assert (Hm : v <= np_maximum v a /\ a <= np_maximum v a).
    { unfold np_maximum. cbn. unfold Rltb.
      destruct (Rlt_dec a v); cbn; lra. }
    split; [lra|]. intros u [<-|Hu]; [lra|auto].
Qed.

Lemma np_min_max_bounds (z : list R) (lo hi : R) :
  np_min z = Ok lo -> np_max z = Ok hi -> forall v, In v z -> lo <= v <= hi.
Proof.
  destruct z as [|a z]; [discriminate|].
  cbn [np_min np_max]. intros Hlo Hhi.
  injection Hlo as <-. injection Hhi as <-.
  destruct (fold_np_minimum_le z a) as [H1 H2].
  destruct (fold_np_maximum_ge z a) as [H3 H4].
  intros v [<-|Hv]; split; auto.
Qed.

End RangeExact.

Lemma zip_with_In {A B C} (f : A -> B -> C) (a : list A) (b : list B) (c : C) :
  In c (zip_with f a b) -> exists u v, In u a /\ In v b /\ c = f u v.
Proof.
  unfold zip_with. intros H. apply in_map_iff in H.
  destruct H as ([u v] & <- & Hin).
  exists u, v. split; [eapply in_combine_l; eauto|].
  split; [eapply in_combine_r; eauto|reflexivity].
Qed.

(** C10, as amended.  In exact arithmetic every estimate of the IDW
    grid lies in [[min(z), max(z)]], for at least three sources, [p > 0]
    and [s >= 0].  In any arithmetic, binary64 included, the coincidence
    branch returns one of the source values.  (The weighted average
    computed in binary64 is the rounding of a convex combination and can
    leave the interval by an ulp.) *)
Theorem idw_estimates_within_range :
  (forall (self : InterpolationEngine (F:=R)) (x y z : list R)
          (XI YI : list (list R)) (lo hi : R),
      (3 <= length x)%nat -> length y = length x -> length z = length x ->
      (power self > 0)%R -> (smoothing self >= 0)%R ->
      np_min (N:=Exact.Real) z = Ok lo -> np_max (N:=Exact.Real) z = Ok hi ->
      forall row, In row (_idw (N:=Exact.Real) self x y z XI YI) ->
      forall v, In v row -> (lo <= v <= hi)%R)
  /\
  (forall (F : Type) (N : Num F) (self : InterpolationEngine (F:=F))
          (x y z : list F) (gx gy : F),
      length y = length x -> length z = length x ->
      np_any (map (fun d => Fltb d lit_1e_10) (idw_distances self x y gx gy)) = true ->
      In (idw_cell self x y z gx gy) z).
Proof.
  split.
  - intros self x y z XI YI lo hi Hn Hy Hz _ _ Hlo Hhi row Hrow v Hv.
    unfold _idw in Hrow. apply zip_with_In in Hrow.
    destruct Hrow as (XIi & YIi & _ & _ & ->).
    apply zip_with_In in Hv. destruct Hv as (gx & gy & _ & _ & ->).
    apply idw_cell_within; auto.
    now apply np_min_max_bounds.
  - intros F N self x y z gx gy Hy Hz Hany.
    now apply idw_cell_coincident_In.
Qed.

(** A run of [idw_estimates_within_range] in exact arithmetic: sources
    [(0,0,1)], [(1,0,2)], [(0,1,3)] and the one-cell grid [(1/2, 1/2)]. *)
Lemma idw_estimates_within_range_witness :
  (1 <= idw_cell (N:=Exact.Real) (Engine "idw" 2%R 0%R "gaussian" 0%R)
          [0; 1; 0]%R [0; 0; 1]%R [1; 2; 3]%R (1/2)%R (1/2)%R <= 3)%R.
Proof.
  destruct idw_estimates_within_range as [H _].
  apply (H (Engine "idw" 2%R 0%R "gaussian" 0%R)
           [0; 1; 0]%R [0; 0; 1]%R [1; 2; 3]%R [[(1/2)%R]] [[(1/2)%R]] 1%R 3%R)
    with (row := [idw_cell (N:=Exact.Real) (Engine "idw" 2%R 0%R "gaussian" 0%R)
                    [0; 1; 0]%R [0; 0; 1]%R [1; 2; 3]%R (1/2)%R (1/2)%R]);
    try (cbn; lia); try (cbn; lra); auto.
  - cbn. unfold np_minimum. cbn.
    rewrite (@Rltb_true 1%R 2%R) by lra. cbn. now rewrite (@Rltb_true 1%R 3%R) by lra.
  - cbn. unfold np_maximum. cbn.
    rewrite (@Rltb_false 2%R 1%R) by lra. cbn. now rewrite (@Rltb_false 3%R 2%R) by lra.
  - now left.
Defined.

(* ================================================================== *)
(** ** Laws of [bind] *)

Lemma bind_lift_Ok {A B} (a : A) (k : A -> outcome B) : bind (lift (Ok a)) k = k a.
Proof. unfold bind. cbn. now destruct (k a). Qed.

Lemma bind_lift_Raise {A B} (e : exn) (k : A -> outcome B) :
  bind (lift (Raise e)) k = Outcome [] (Raise e).
Proof. reflexivity. Qed.

Lemma bind_ret_map {A B} (m : outcome A) (g : A -> B) :
  bind m (fun a => ret (g a)) =
  Outcome (warned m)
          (match returned m with Ok a => Ok (g a) | Raise e => Raise e end).
Proof.
  unfold bind. destruct (returned m); cbn; now rewrite ?app_nil_r.
Qed.

(* ================================================================== *)
(** ** Cleaning *)

Section Cleaning.
Context {F : Type} {N : Num F}.

Lemma broadcast_or_same (a b : list bool) :
  length a = length b -> broadcast_or a b = Ok (zip_with orb a b).
Proof.
  intros H. unfold broadcast_or. rewrite H, Nat.eqb_refl. reflexivity.
Qed.

Lemma mask_index_same {A} (a : list A) (m : list bool) :
  length a = length m -> mask_index a m = Ok (bool_index a m).
Proof.
  intros H. unfold mask_index. rewrite H, Nat.eqb_refl. reflexivity.
Qed.

Lemma nan_free_mask_length (x y z : array F) :
  length y = length x -> length z = length x ->
  length (nan_free_mask x y z) = length x.
Proof.
  intros Hy Hz. unfold nan_free_mask, triples.
  rewrite length_map, !length_combine. lia.
Qed.

Lemma valid_mask_same (x y z : array F) :
  length y = length x -> length z = length x ->
  valid_mask x y z = Ok (nan_free_mask x y z).
Proof.
  intros Hy Hz. unfold valid_mask.
  rewrite broadcast_or_same by (rewrite !length_map; lia).
  rewrite broadcast_or_same
    by (rewrite zip_with_length, !length_map; lia).
  f_equal. unfold nan_free_mask, triples.
  revert y z Hy Hz. induction x as [|a x IH]; intros [|b y] [|c z] Hy Hz;
    cbn in *; try lia; auto.
  f_equal. apply IH; lia.
Qed.

(** What the cleaning keeps: the sources none of whose coordinates is
    NaN, in their order, and so no NaN at all. *)
Lemma cleaned_spec (x y z : array F) :
  length y = length x -> length z = length x ->
  let '(x', y', z') := cleaned x y z in
  triples x' y' z' = filter nan_free (triples x y z)
  /\ length y' = length x' /\ length z' = length x'
  /\ Forall (fun v => Fisnan v = false) x'
  /\ Forall (fun v => Fisnan v = false) y'
  /\ Forall (fun v => Fisnan v = false) z'.
Proof.
  unfold cleaned, nan_free_mask, triples.
  revert y z. induction x as [|a x IH]; intros [|b y] [|c z] Hy Hz;
    cbn in *; try lia.
  - repeat split; constructor.
  - specialize (IH y z ltac:(lia) ltac:(lia)).
    destruct IH as (H1 & H2 & H3 & H4 & H5 & H6).
    destruct (nan_free (a, b, c)) eqn:E; cbn.
    + unfold nan_free in E. cbn in E. apply negb_true_iff in E.
      apply orb_false_iff in E. destruct E as [E Ec].
      apply orb_false_iff in E. destruct E as [Ea Eb].
      repeat split; try (constructor; assumption); try lia.
      now rewrite H1.
    + repeat split; assumption.
Qed.

End Cleaning.

(* ================================================================== *)
(** ** The steps of [interpolate] *)

Section Steps.
Context {F : Type} {N : Num F}.
Variable KRIGING_AVAILABLE : bool.
Variable Rbf : string -> F -> array F -> array F -> array F -> array2 F -> array2 F -> result (array2 F).
Variable griddata : string -> array F -> array F -> array F -> array2 F -> array2 F -> result (array2 F).
Variable OrdinaryKriging : string -> array F -> array F -> array F -> array F -> array F -> result (array2 F).
Variable UniversalKriging : string -> array F -> array F -> array F -> array F -> array F -> result (array2 F).

Local Abbreviation interpolate' :=
  (interpolate KRIGING_AVAILABLE Rbf griddata OrdinaryKriging UniversalKriging).
Local Abbreviation dispatch' :=
  (dispatch KRIGING_AVAILABLE Rbf griddata OrdinaryKriging UniversalKriging).

(** Fewer than three input points: the call raises before it does
    anything else. *)
Lemma interpolate_too_few (self : InterpolationEngine) (x y z : array F) res bounds :
  (length x < 3)%nat ->
  interpolate' self x y z res bounds =
  Outcome [] (Raise (ValueError "Need at least 3 points for interpolation")).
Proof.
  intros H. unfold interpolate.
  apply Nat.ltb_lt in H. rewrite H. reflexivity.
Qed.

(** With three input points or more, of equal lengths, the call is the
    dispatch on the cleaned arrays over the grid of the bounds. *)
Lemma interpolate_steps (self : InterpolationEngine) (x y z : array F) res bounds
    (x' y' z' : array F) (min_x min_y max_x max_y : F) (xi yi : array F) :
  (3 <= length x)%nat -> length y = length x -> length z = length x ->
  cleaned x y z = (x', y', z') ->
  match bounds with None => data_bounds x' y' | Some b => Ok b end
    = Ok (min_x, min_y, max_x, max_y) ->
  np_linspace min_x max_x res = Ok xi ->
  np_linspace min_y max_y res = Ok yi ->
  interpolate' self x y z res bounds =
  let (XI, YI) := np_meshgrid xi yi in
  let r := dispatch' self x' y' z' xi yi XI YI in
  Outcome (warned r)
          (match returned r with Ok ZI => Ok (XI, YI, ZI) | Raise e => Raise e end).
Proof.
  intros Hn Hy Hz Hc Hb Hxi Hyi. unfold interpolate.
  assert (E : (length x <? 3)%nat = false) by (apply Nat.ltb_ge; lia).
  rewrite E. rewrite valid_mask_same by assumption.
  unfold cleaned in Hc. injection Hc as <- <- <-.
  pose proof (nan_free_mask_length x y z Hy Hz) as Hm.
  rewrite bind_lift_Ok.
  rewrite !mask_index_same by lia.
  rewrite !bind_lift_Ok. rewrite Hb, bind_lift_Ok.
  rewrite Hxi, bind_lift_Ok, Hyi, bind_lift_Ok.
  destruct (np_meshgrid xi yi) as [XI YI].
  apply (bind_ret_map _ (fun ZI => (XI, YI, ZI))).
Qed.

(** With three input points or more the call is a function of the
    cleaned arrays. *)
Lemma interpolate_cleaned (self : InterpolationEngine) (x y z : array F) res bounds :
  (3 <= length x)%nat -> length y = length x -> length z = length x ->
  interpolate' self x y z res bounds =
  let '(x', y', z') := cleaned x y z in
  bind (lift (match bounds with None => data_bounds x' y' | Some b => Ok b end))
    (fun b => let '(min_x, min_y, max_x, max_y) := b in
       bind (lift (np_linspace min_x max_x res)) (fun xi =>
       bind (lift (np_linspace min_y max_y res)) (fun yi =>
       let (XI, YI) := np_meshgrid xi yi in
       bind (dispatch' self x' y' z' xi yi XI YI) (fun ZI => ret (XI, YI, ZI))))).
Proof.
  intros Hn Hy Hz. unfold interpolate, cleaned.
  assert (E : (length x <? 3)%nat = false) by (apply Nat.ltb_ge; lia).
  rewrite E, valid_mask_same by assumption.
  pose proof (nan_free_mask_length x y z Hy Hz) as Hm.
  rewrite bind_lift_Ok. rewrite !mask_index_same by lia.
  now rewrite !bind_lift_Ok.
Qed.

(** A call that returns went through all the steps. *)
Lemma interpolate_returns (self : InterpolationEngine) (x y z : array F) res bounds
    (XI YI ZI : array2 F) :
  length y = length x -> length z = length x ->
  returned (interpolate' self x y z res bounds) = Ok (XI, YI, ZI) ->
  (3 <= length x)%nat /\
  exists x' y' z' min_x min_y max_x max_y xi yi,
    cleaned x y z = (x', y', z')
    /\ match bounds with None => data_bounds x' y' | Some b => Ok b end
       = Ok (min_x, min_y, max_x, max_y)
    /\ np_linspace min_x max_x res = Ok xi
    /\ np_linspace min_y max_y res = Ok yi
    /\ np_meshgrid xi yi = (XI, YI)
    /\ returned (dispatch' self x' y' z' xi yi XI YI) = Ok ZI.
Proof.
  intros Hy Hz H.
  destruct (Nat.lt_ge_cases (length x) 3) as [Hlt|Hge].
  { rewrite interpolate_too_few in H by assumption. discriminate. }
  split; [assumption|].
  destruct (cleaned x y z) as [[x' y'] z'] eqn:Hc.
  pose proof (interpolate_cleaned self x y z res bounds Hge Hy Hz) as Hstart.
  rewrite Hc in Hstart.
  rewrite Hstart in H. clear Hstart.
  destruct (match bounds with None => data_bounds x' y' | Some b => Ok b end)
    as [[[[min_x min_y] max_x] max_y]|e] eqn:Hb; [|discriminate].
  rewrite bind_lift_Ok in H.
  destruct (np_linspace min_x max_x res) as [xi|e] eqn:Hxi; [|discriminate].
  rewrite bind_lift_Ok in H.
  destruct (np_linspace min_y max_y res) as [yi|e] eqn:Hyi; [|discriminate].
  rewrite bind_lift_Ok in H.
  destruct (np_meshgrid xi yi) as [XI' YI'] eqn:Hm.
  rewrite (bind_ret_map _ (fun ZI => (XI', YI', ZI))) in H. cbn [returned] in H.
  destruct (returned (dispatch' self x' y' z' xi yi XI' YI')) as [ZI'|e] eqn:Hd;
    [|discriminate].
  injection H as <- <- <-.
  exists x', y', z', min_x, min_y, max_x, max_y, xi, yi.
  repeat split; auto.
Qed.

End Steps.

(** C6, as amended.  For input arrays of one length that pass the
    guard, the call of [interpolate] is the rest of the method (bounds,
    grid, dispatch to the method's implementation) run on three arrays
    [x'], [y'], [z'] that hold exactly the sources none of whose three
    coordinates is NaN, in their order: a source is removed from all
    three exactly when one of its coordinates is NaN, no entry of [x'],
    [y'] or [z'] is NaN, and nothing else of the input reaches the
    bounds or the implementation.  (Infinite entries are kept.) *)
Theorem cleaning_removes_nan_sources (F : Type) (N : Num F) (x y z : array F) :
  length y = length x -> length z = length x ->
  exists x' y' z' : array F,
    triples x' y' z' = filter nan_free (triples x y z)
    /\ length y' = length x' /\ length z' = length x'
    /\ Forall (fun v => Fisnan v = false) x'
    /\ Forall (fun v => Fisnan v = false) y'
    /\ Forall (fun v => Fisnan v = false) z'
    /\ ((3 <= length x)%nat ->
        forall KA Rbf griddata OK UK self res bounds,
          interpolate KA Rbf griddata OK UK self x y z res bounds
          = bind (lift (match bounds with
                        | None => data_bounds x' y'
                        | Some b => Ok b
                        end))
              (fun b => let '(min_x, min_y, max_x, max_y) := b in
                 bind (lift (np_linspace min_x max_x res)) (fun xi =>
                 bind (lift (np_linspace min_y max_y res)) (fun yi =>
                 let (XI, YI) := np_meshgrid xi yi in
                 bind (dispatch KA Rbf griddata OK UK self x' y' z' xi yi XI YI)
                      (fun ZI => ret (XI, YI, ZI)))))).
Proof.
  intros Hy Hz.
  pose proof (cleaned_spec x y z Hy Hz) as Hs.
  destruct (cleaned x y z) as [[x' y'] z'] eqn:Hc.
  destruct Hs as (H1 & H2 & H3 & H4 & H5 & H6).
  exists x', y', z'. repeat split; auto.
  intros Hn KA Rbf griddata OK UK self res bounds.
  rewrite interpolate_cleaned by assumption.
  now rewrite Hc.
Qed.

(** A run of [cleaning_removes_nan_sources]: the third of four sources
    has a NaN value; the arrays that reach the implementation have three
    entries each, none of them NaN. *)
Lemma cleaning_removes_nan_sources_witness :
  exists x' y' z' : array float,
    triples x' y' z'
    = filter (nan_free (N:=Binary64.Float64 Binary64.no_libm))
        (triples [0; 1; 2; 3]%float [0; 0; 1; 1]%float [1; 2; nan; 4]%float)
    /\ length x' = 3%nat
    /\ Forall (fun v => PrimFloat.is_nan v = false) z'.
Proof.
  destruct (@cleaning_removes_nan_sources float
              (Binary64.Float64 Binary64.no_libm)
              [0; 1; 2; 3]%float [0; 0; 1; 1]%float [1; 2; nan; 4]%float
              eq_refl eq_refl)
    as (x' & y' & z' & Ht & Ly & Lz & _ & _ & Hnz & _).
  exists x', y', z'. split; [exact Ht|]. split; [|exact Hnz].
  assert (L : length (triples x' y' z') = 3%nat)
    by (rewrite Ht; vm_compute; reflexivity).
  unfold triples in L. rewrite !length_combine in L. lia.
Defined.

(** C6 fails as stated: an infinite entry is not removed.  The fourth
    source has an infinite value.  A stand-in for [griddata] that
    returns the three arrays it is given shows that the infinite source
    reaches the implementation of [nearest]; and the [idw] engine
    estimates every cell as infinite, which the three finite sources
    alone do not give. *)
Lemma cleaning_keeps_infinite_sources :
  let N64 := Binary64.Float64 Binary64.no_libm in
  let x := [0; 1; 0; 1]%float in
  let y := [0; 0; 1; 1]%float in
  let z := [1; 2; 3; infinity]%float in
  returned
    (interpolate (N:=N64) false (failing7 "unused")
       (fun _ x' y' z' _ _ => Ok [x'; y'; z'])
       (failing6 "unused") (failing6 "unused")
       (Engine "nearest" 2%float 0%float "gaussian" 0%float) x y z 2 None)
  = Ok ([[-0.05; 1.05]; [-0.05; 1.05]]%float,
        [[-0.05; -0.05]; [1.05; 1.05]]%float,
        [x; y; z])
  /\ returned
       (interpolate (N:=N64) false (failing7 "unused") (failing6 "unused")
          (failing6 "unused") (failing6 "unused") default_idw x y z 2 None)
     = Ok ([[-0.05; 1.05]; [-0.05; 1.05]]%float,
           [[-0.05; -0.05]; [1.05; 1.05]]%float,
           [[infinity; infinity]; [infinity; infinity]]%float)
  /\ returned
       (interpolate (N:=N64) false (failing7 "unused") (failing6 "unused")
          (failing6 "unused") (failing6 "unused") default_idw
          [0; 1; 0]%float [0; 0; 1]%float [1; 2; 3]%float 2 None)
     = Ok ([[-0.05; 1.05]; [-0.05; 1.05]]%float,
           [[-0.05; -0.05]; [1.05; 1.05]]%float,
           [[1.0134529147982063; 1.9977579160849137];
            [2.9887590065529999; 2.1994560290117859]]%float)
  /\ PrimFloat.is_infinity infinity = true.
Proof.
  cbv zeta. repeat split; vm_compute; reflexivity.
Qed.

(* ================================================================== *)
(** ** The guard on the number of points *)

(** C3: where the code departs from the claim.  The guard counts the
    input points before the NaN entries are removed.  With three input
    points of which one is NaN, two usable points remain and the call
    returns a grid; with three NaN points none remains and the call
    raises numpy's error for the minimum of an empty array.  Neither is
    the insufficient-data error. *)
Theorem interpolate_guard_precedes_cleaning
    (libm_pow : float -> float -> float) (KA : bool)
    (Rbf : string -> float -> array float -> array float -> array float ->
           array2 float -> array2 float -> result (array2 float))
    (griddata : string -> array float -> array float -> array float ->
                array2 float -> array2 float -> result (array2 float))
    (OK UK : string -> array float -> array float -> array float ->
             array float -> array float -> result (array2 float)) :
  let N64 := Binary64.Float64 libm_pow in
  cleaned (N:=N64) [0; 1; nan]%float [0; 1; 0]%float [1; 2; 3]%float
    = ([0; 1]%float, [0; 1]%float, [1; 2]%float)
  /\ interpolate (N:=N64) KA Rbf griddata OK UK default_idw
       [0; 1; nan]%float [0; 1; 0]%float [1; 2; 3]%float 2 None
     = Outcome []
         (Ok ([[-0.05; 1.05]; [-0.05; 1.05]]%float,
              [[-0.05; -0.05]; [1.05; 1.05]]%float,
              [[1.002262443438914; 1.5]; [1.5; 1.997737556561086]]%float))
  /\ interpolate (N:=N64) KA Rbf griddata OK UK default_idw
       [nan; nan; nan]%float [0; 1; 0]%float [1; 2; 3]%float 2 None
     = Outcome []
         (Raise (ValueError
            "zero-size array to reduction operation minimum which has no identity")).
Proof.
  cbv zeta. repeat split; vm_compute; reflexivity.
Qed.

(* ================================================================== *)
(** ** The grid *)

Section GridGeneric.
Context {F : Type} {N : Num F}.
Local Open Scope num_scope.

Lemma set_last_length (a : array F) (v : F) : length (set_last a v) = length a.
Proof.
  induction a as [|u a IH]; [reflexivity|].
  destruct a as [|u' a']; [reflexivity|].
  cbn [set_last length] in *. now rewrite IH.
Qed.

Lemma set_last_nth_last (a : array F) (v d : F) :
  a <> [] -> nth (length a - 1) (set_last a v) d = v.
Proof.
  induction a as [|u a IH]; [congruence|]. intros _.
  destruct a as [|u' a']; [reflexivity|].
  cbn [set_last]. cbn [length] in *.
  replace (S (S (length a')) - 1)%nat with (S (S (length a') - 1)) by lia.
  cbn [nth]. apply IH. discriminate.
Qed.

Lemma set_last_nth_before (a : array F) (v d : F) (k : nat) :
  (k < length a - 1)%nat -> nth k (set_last a v) d = nth k a d.
Proof.
  revert k. induction a as [|u a IH]; intros k Hk; [reflexivity|].
  destruct a as [|u' a']; [cbn in Hk; lia|].
  cbn [set_last]. destruct k as [|k]; [reflexivity|].
  cbn [nth]. apply IH. cbn [length] in *. lia.
Qed.

Lemma arange_length (n : nat) : length (arange n) = n.
Proof. unfold arange. now rewrite length_map, length_seq. Qed.

Lemma arange_nth (n k : nat) (d : F) :
  (k < n)%nat -> nth k (arange n) d = Fof_Z (Z.of_nat k).
Proof.
  intros Hk. unfold arange.
  rewrite (map_nth_in _ _ d 0%nat) by (now rewrite length_seq).
  now rewrite seq_nth.
Qed.

(** [np.linspace] returns [num] points, the last of which is [stop]
    when there are two or more. *)
Lemma np_linspace_length (start stop : F) (num : Z) (xi : array F) :
  np_linspace start stop num = Ok xi ->
  (0 <= num)%Z /\ length xi = Z.to_nat num.
Proof.
  unfold np_linspace. destruct (num <? 0)%Z eqn:E; [discriminate|].
  apply Z.ltb_ge in E. intros H. injection H as <-. split; [assumption|].
  assert (Hy : forall y : array F, length y = Z.to_nat num ->
            length (if (1 <? num)%Z then set_last (map (fun v => v + start) y) stop
                    else map (fun v => v + start) y) = Z.to_nat num).
  { intros y Hlen. destruct (1 <? num)%Z;
      rewrite ?set_last_length, length_map; exact Hlen. }
  apply Hy.
  destruct (0 <? num - 1)%Z; [destruct (_ =? _)|];
    now rewrite length_map, arange_length.
Qed.

Lemma np_linspace_last (start stop d : F) (num : Z) (xi : array F) :
  (2 <= num)%Z -> np_linspace start stop num = Ok xi ->
  nth (Z.to_nat num - 1) xi d = stop.
Proof.
  intros Hn H. pose proof (np_linspace_length _ _ _ H) as [_ Hlen].
  revert H. unfold np_linspace.
  destruct (num <? 0)%Z eqn:E; [discriminate|].
  assert (E1 : (1 <? num)%Z = true) by (apply Z.ltb_lt; lia).
  rewrite E1. intros H. injection H as <-.
  set (l := map (fun v => v + start) _) in *.
  rewrite set_last_length in Hlen. rewrite <- Hlen.
  apply set_last_nth_last. intros E0. rewrite E0 in Hlen. cbn in Hlen. lia.
Qed.

Lemma np_meshgrid_rows (xi yi : array F) (XI YI : array2 F) :
  np_meshgrid xi yi = (XI, YI) ->
  length XI = length yi /\ length YI = length yi
  /\ (forall row, In row XI -> row = xi)
  /\ (forall i d, (i < length yi)%nat ->
        nth i YI [] = map (fun _ => nth i yi d) xi).
Proof.
  unfold np_meshgrid. intros H. injection H as <- <-.
  rewrite !length_map. repeat split.
  - intros row Hin. apply in_map_iff in Hin. now destruct Hin as (_ & <- & _).
  - intros i d Hi. now rewrite (map_nth_in _ _ [] d).
Qed.

(** The bounds computed from the data. *)
Lemma data_bounds_returns (x y : array F) (min_x min_y max_x max_y : F) :
  data_bounds x y = Ok (min_x, min_y, max_x, max_y) ->
  exists lx hx ly hy,
    np_min x = Ok lx /\ np_max x = Ok hx /\ np_min y = Ok ly /\ np_max y = Ok hy
    /\ min_x = lx - (hx - lx) * lit_0_05
    /\ max_x = hx + (hx - lx) * lit_0_05
    /\ min_y = ly - (hy - ly) * lit_0_05
    /\ max_y = hy + (hy - ly) * lit_0_05.
Proof.
  unfold data_bounds.
  destruct (np_min x) as [lx|]; destruct (np_max x) as [hx|];
    destruct (np_min y) as [ly|]; destruct (np_max y) as [hy|];
    try discriminate.
  intros H. injection H as <- <- <- <-.
  exists lx, hx, ly, hy. repeat split.
Qed.

End GridGeneric.

Section GridExact.
Import Exact.
Local Open Scope R_scope.

(** In exact arithmetic the points of [np.linspace] are
    [start + k (stop - start) / (num - 1)]. *)
Lemma np_linspace_exact (start stop : R) (num : Z) (xi : list R) :
  (2 <= num)%Z -> np_linspace start stop num = Ok xi ->
  forall k, (k < Z.to_nat num)%nat ->
    nth k xi 0 = start + IZR (Z.of_nat k) * ((stop - start) / IZR (num - 1)).
Proof.
  intros Hn H k Hk.
  assert (Hdiv : IZR (num - 1) <> 0) by (apply not_0_IZR; lia).
  pose proof (np_linspace_length _ _ _ H) as [_ Hlen].
  destruct (Nat.eq_dec k (Z.to_nat num - 1)) as [->|Hne].
  - rewrite (np_linspace_last _ _ 0 Hn H).
    replace (Z.of_nat (Z.to_nat num - 1)) with (num - 1)%Z by lia.
    field. exact Hdiv.
  - revert H. unfold np_linspace.
    destruct (num <? 0)%Z eqn:E; [discriminate|].
    assert (E1 : (1 <? num)%Z = true) by (apply Z.ltb_lt; lia).
    assert (E2 : (0 <? num - 1)%Z = true) by (apply Z.ltb_lt; lia).
    rewrite E1, E2. intros H. injection H as <-.
    rewrite set_last_length in Hlen.
    rewrite set_last_nth_before by lia.
    cbn [Fadd Fsub Fmul Fdiv Feqb Fof_Z Real] in *.
    unfold Reqb. destruct (Req_dec_T ((stop - start) / IZR (num - 1)) 0) as [E0|E0].
    + rewrite (map_nth_in _ _ 0 0) by (rewrite length_map, arange_length; lia).
      rewrite (map_nth_in _ _ 0 0) by (rewrite arange_length; lia).
      rewrite arange_nth by lia. cbn [Fof_Z Real].
      rewrite E0.
      assert (Hd : stop - start = 0).
      { apply (Rmult_eq_compat_r (IZR (num - 1))) in E0.
        unfold Rdiv in E0. rewrite Rmult_assoc, Rinv_l in E0 by exact Hdiv. lra. }
      rewrite Hd. lra.
    + rewrite (map_nth_in _ _ 0 0) by (rewrite length_map, arange_length; lia).
      rewrite (map_nth_in _ _ 0 0) by (rewrite arange_length; lia).
      rewrite arange_nth by lia. cbn [Fof_Z Real]. lra.
Qed.

Lemma np_linspace_exact_increasing (start stop : R) (num : Z) (xi : list R) :
  (2 <= num)%Z -> np_linspace start stop num = Ok xi ->
  (nth 0 xi 0 = start /\ nth (Z.to_nat num - 1) xi 0 = stop)
  /\ (start < stop -> strictly_increasing xi)
  /\ (start = stop -> forall k, (k < Z.to_nat num)%nat -> nth k xi 0 = start).
Proof.
  intros Hn H.
  pose proof (np_linspace_length _ _ _ H) as [_ Hlen].
  pose proof (np_linspace_exact _ _ Hn H) as Hk.
  assert (Hdiv : 0 < IZR (num - 1)) by (apply IZR_lt; lia).
  repeat split.
  - rewrite Hk by lia. cbn. lra.
  - now apply (np_linspace_last start).
  - intros Hlt i j Hij. rewrite Hlen in Hij.
    rewrite !Hk by lia.
    assert (Hc : 0 < (stop - start) / IZR (num - 1)).
    { apply Rdiv_lt_0_compat; lra. }
    assert (Hi : IZR (Z.of_nat i) < IZR (Z.of_nat j)) by (apply IZR_lt; lia).
    nra.
  - intros -> k Hlt. rewrite Hk by lia.
    unfold Rminus. rewrite Rplus_opp_r. unfold Rdiv. lra.
Qed.

End GridExact.

(** *** The first grid coordinate in binary64 *)

Lemma SFeqb_refl (f : spec_float) : f <> S754_nan -> SFeqb f f = true.
Proof.
  intros H. unfold SFeqb. rewrite (SFcompare_key H H).
  assert (E : lex3 (key f) (key f) = Eq) by now apply lex3_Eq.
  now rewrite E.
Qed.

Lemma mul_zero_finite (a b : float) :
  is_zero64 a -> finite64 b -> is_zero64 (a * b)%float.
Proof.
  unfold is_zero64, finite64. rewrite mul_spec. unfold SF64mul, SFmul.
  destruct (Prim2SF a); try tauto. destruct (Prim2SF b); tauto.
Qed.

Lemma add_zero_finite (a b : float) :
  is_zero64 a -> finite64 b -> feq (a + b)%float b.
Proof.
  unfold is_zero64, finite64, feq. rewrite eqb_spec, add_spec.
  unfold SF64add, SFadd.
  destruct (Prim2SF a) as [sa| | |]; try tauto.
  destruct (Prim2SF b) as [sb| | |sb mb eb]; try tauto; intros _ _.
  - destruct sa, sb; reflexivity.
  - apply SFeqb_refl. discriminate.
Qed.

Lemma sub_finite_r (a b : float) : finite64 (a - b)%float -> finite64 b.
Proof.
  unfold finite64. rewrite sub_spec. unfold SF64sub, SFsub.
  destruct (Prim2SF a) as [sa|sa| |sa ma ea], (Prim2SF b) as [sb|sb| |sb mb eb];
    try tauto; try (intros; exact I); try (destruct sa, sb; cbn; tauto).
Qed.

(** A quotient that is finite has a divisor by which zero divides to
    zero. *)
Lemma div_finite_divisor (a b d : float) :
  is_zero64 a -> finite64 (b / d)%float -> is_zero64 (a / d)%float.
Proof.
  unfold is_zero64, finite64. rewrite !div_spec. unfold SF64div, SFdiv.
  destruct (Prim2SF a) as [sa| | |]; try tauto. intros _.
  destruct (Prim2SF b) as [sb|sb| |sb mb eb], (Prim2SF d) as [sd|sd| |sd md ed];
    try tauto; try (intros; exact I).
Qed.

Lemma of_Z_0_zero : is_zero64 (Binary64.of_Z 0).
Proof. vm_compute. exact I. Qed.

Section Grid64.
Variable libm_pow : float -> float -> float.
Let N64 : Num float := Binary64.Float64 libm_pow.
Local Existing Instance N64.

(** In binary64 the first element of [np.linspace] is [0 * step + start]
    (or [0 / div * delta + start], or [0 * delta + start]).  It equals
    [start] when the difference of the bounds and the step are finite;
    the sign of a zero may differ. *)
Lemma np_linspace_first64 (start stop : float) (num : Z) (xi : array float) :
  np_linspace start stop num = Ok xi -> (1 <= num)%Z ->
  finite64 (stop - start)%float ->
  ((2 <= num)%Z -> finite64 ((stop - start) / Binary64.of_Z (num - 1))%float) ->
  feq (nth 0 xi 0%float) start.
Proof.
  intros H Hn Hdelta Hstep.
  pose proof (sub_finite_r _ _ Hdelta) as Hstart.
  revert H. unfold np_linspace.
  assert (E : (num <? 0)%Z = false) by (apply Z.ltb_ge; lia). rewrite E.
  intros H. injection H as <-.
  destruct (Z.to_nat num) as [|n] eqn:En; [lia|].
  assert (Ear : arange (S n)
                = Binary64.of_Z 0 :: map (fun k => Binary64.of_Z (Z.of_nat k)) (seq 1 n))
    by reflexivity.
  rewrite Ear. clear Ear.
  set (tl := map (fun k => Binary64.of_Z (Z.of_nat k)) (seq 1 n)).
  cbn [Fadd Fsub Fmul Fdiv Feqb Fof_Z N64 Binary64.Float64].
  destruct (Z.ltb_spec 0 (num - 1)) as [Hbig|Hone].
  - assert (Hs : finite64 ((stop - start) / Binary64.of_Z (num - 1))%float)
      by (apply Hstep; lia).
    assert (E1 : (1 <? num)%Z = true) by (apply Z.ltb_lt; lia). rewrite E1.
    assert (Hlen : (0 < length tl)%nat).
    { unfold tl. rewrite length_map, length_seq. lia. }
    destruct (PrimFloat.eqb _ _).
    + cbn [map]. rewrite set_last_nth_before by (cbn [length]; rewrite !length_map; lia).
      cbn [nth]. apply add_zero_finite; [|assumption].
      apply mul_zero_finite; [|assumption].
      apply (@div_finite_divisor _ _ _ of_Z_0_zero Hs).
    + cbn [map]. rewrite set_last_nth_before by (cbn [length]; rewrite !length_map; lia).
      cbn [nth]. apply add_zero_finite; [|assumption].
      apply mul_zero_finite; [apply of_Z_0_zero|assumption].
  - assert (E1 : (1 <? num)%Z = false) by (apply Z.ltb_ge; lia). rewrite E1.
    cbn [map nth]. apply add_zero_finite; [|assumption].
    apply mul_zero_finite; [apply of_Z_0_zero|assumption].
Qed.

End Grid64.

(** C4, as amended.  A call that returns has built its grid with
    [np.linspace] and [np.meshgrid] between bounds that are, when none
    are supplied, the minimum and maximum of the cleaned coordinates
    moved outwards by [0.05] times their difference, and, when bounds
    are supplied, those bounds unchanged; the last grid coordinate is
    the upper bound.  In binary64 that minimum and maximum are the
    bounding box of the cleaned sources: coordinates of sources that
    enclose all the others.  The first grid coordinate is the lower
    bound in exact arithmetic, and in binary64 whenever the difference
    of the two bounds and the spacing are finite; it is not when the
    difference overflows ([grid_overflow_misses_lower_bound]).  In
    binary64, sources spanning [[-95, -94]] and [[29.5, 30.5]] give the
    bounds [-95.05], [-93.95], [29.45], [30.55] exactly, and the grid of
    resolution 100 starts and ends on them. *)
Theorem grid_covers_padded_or_given_bounds :
  (forall (F : Type) (N : Num F) KA Rbf griddata OK UK
          (self : InterpolationEngine (F:=F)) (x y z : array F)
          (res : Z) bounds (XI YI ZI : array2 F) (d : F),
      length y = length x -> length z = length x ->
      returned (interpolate KA Rbf griddata OK UK self x y z res bounds)
        = Ok (XI, YI, ZI) ->
      exists x' y' z' min_x min_y max_x max_y xi yi,
        cleaned x y z = (x', y', z')
        /\ np_linspace min_x max_x res = Ok xi
        /\ np_linspace min_y max_y res = Ok yi
        /\ np_meshgrid xi yi = (XI, YI)
        /\ ((2 <= res)%Z -> nth (Z.to_nat res - 1) xi d = max_x
                            /\ nth (Z.to_nat res - 1) yi d = max_y)
        /\ match bounds with
           | Some b => b = (min_x, min_y, max_x, max_y)
           | None =>
               exists lx hx ly hy,
                 np_min x' = Ok lx /\ np_max x' = Ok hx
                 /\ np_min y' = Ok ly /\ np_max y' = Ok hy
                 /\ min_x = Fsub lx (Fmul (Fsub hx lx) lit_0_05)
                 /\ max_x = Fadd hx (Fmul (Fsub hx lx) lit_0_05)
                 /\ min_y = Fsub ly (Fmul (Fsub hy ly) lit_0_05)
                 /\ max_y = Fadd hy (Fmul (Fsub hy ly) lit_0_05)
           end)
  /\ (forall (libm_pow : float -> float -> float) KA Rbf griddata OK UK
             (self : InterpolationEngine (F:=float)) (x y z : array float)
             (res : Z) bounds (XI YI ZI : array2 float),
        let N64 := Binary64.Float64 libm_pow in
        length y = length x -> length z = length x ->
        returned (interpolate (N:=N64) KA Rbf griddata OK UK self x y z res bounds)
          = Ok (XI, YI, ZI) ->
        exists x' y' z' min_x min_y max_x max_y xi yi,
          cleaned (N:=N64) x y z = (x', y', z')
          /\ np_linspace (N:=N64) min_x max_x res = Ok xi
          /\ np_linspace (N:=N64) min_y max_y res = Ok yi
          /\ np_meshgrid xi yi = (XI, YI)
          /\ match bounds with
             | Some b => b = (min_x, min_y, max_x, max_y)
             | None =>
                 exists lx hx ly hy,
                   (In lx x' /\ In hx x'
                    /\ forall v, In v x' -> fle lx v /\ fle v hx)
                   /\ (In ly y' /\ In hy y'
                       /\ forall v, In v y' -> fle ly v /\ fle v hy)
                   /\ min_x = (lx - (hx - lx) * 0.05)%float
                   /\ max_x = (hx + (hx - lx) * 0.05)%float
                   /\ min_y = (ly - (hy - ly) * 0.05)%float
                   /\ max_y = (hy + (hy - ly) * 0.05)%float
             end
          /\ ((1 <= res)%Z ->
              (finite64 (max_x - min_x)%float ->
               ((2 <= res)%Z ->
                finite64 ((max_x - min_x) / Binary64.of_Z (res - 1))%float) ->
               feq (nth 0 xi 0%float) min_x)
              /\ (finite64 (max_y - min_y)%float ->
                  ((2 <= res)%Z ->
                   finite64 ((max_y - min_y) / Binary64.of_Z (res - 1))%float) ->
                  feq (nth 0 yi 0%float) min_y)))
  /\ (forall (start stop : R) (num : Z) (xi : list R),
        (2 <= num)%Z -> np_linspace (N:=Exact.Real) start stop num = Ok xi ->
        nth 0 xi 0%R = start /\ nth (Z.to_nat num - 1) xi 0%R = stop)
  /\ (forall KA Rbf griddata OK UK
             (self : InterpolationEngine (F:=R)) (x y z : array R)
             (res : Z) bounds (XI YI ZI : array2 R),
        length y = length x -> length z = length x -> (2 <= res)%Z ->
        returned (interpolate (N:=Exact.Real) KA Rbf griddata OK UK self
                    x y z res bounds)
          = Ok (XI, YI, ZI) ->
        exists min_x min_y max_x max_y xi yi,
          match bounds with
          | None => data_bounds (N:=Exact.Real)
                      (fst (fst (cleaned (N:=Exact.Real) x y z)))
                      (snd (fst (cleaned (N:=Exact.Real) x y z)))
          | Some b => Ok b
          end = Ok (min_x, min_y, max_x, max_y)
          /\ np_meshgrid xi yi = (XI, YI)
          /\ nth 0 xi 0%R = min_x /\ nth (Z.to_nat res - 1) xi 0%R = max_x
          /\ nth 0 yi 0%R = min_y /\ nth (Z.to_nat res - 1) yi 0%R = max_y)
  /\ (forall libm_pow : float -> float -> float,
        let N64 := Binary64.Float64 libm_pow in
        data_bounds (N:=N64) [-95; -94.5; -94]%float [29.5; 30.5; 30]%float
          = Ok (-95.05, 29.45, -93.95, 30.55)%float
        /\ exists xi yi,
             np_linspace (N:=N64) (-95.05)%float (-93.95)%float 100 = Ok xi
             /\ np_linspace (N:=N64) 29.45%float 30.55%float 100 = Ok yi
             /\ nth 0 xi 0%float = (-95.05)%float
             /\ nth 99 xi 0%float = (-93.95)%float
             /\ nth 0 yi 0%float = 29.45%float
             /\ nth 99 yi 0%float = 30.55%float).
Proof.
  split; [|split; [|split; [|split]]].
  - intros F N KA Rbf griddata OK UK self x y z res bounds XI YI ZI d Hy Hz H.
    destruct (interpolate_returns _ _ _ _ _ _ _ _ _ _ _ Hy Hz H)
      as (_ & x' & y' & z' & min_x & min_y & max_x & max_y & xi & yi
          & Hc & Hb & Hxi & Hyi & Hm & _).
    exists x', y', z', min_x, min_y, max_x, max_y, xi, yi.
    repeat split; auto.
    + now apply (np_linspace_last min_x).
    + now apply (np_linspace_last min_y).
    + destruct bounds as [b|].
      * now injection Hb.
      * now apply data_bounds_returns.
  - intros libm_pow KA Rbf griddata OK UK self x y z res bounds XI YI ZI N64 Hy Hz H.
    destruct (interpolate_returns _ _ _ _ _ _ _ _ _ _ _ Hy Hz H)
      as (_ & x' & y' & z' & min_x & min_y & max_x & max_y & xi & yi
          & Hc & Hb & Hxi & Hyi & Hm & _).
    exists x', y', z', min_x, min_y, max_x, max_y, xi, yi.
    split; [exact Hc|]. split; [exact Hxi|]. split; [exact Hyi|].
    split; [exact Hm|]. split.
    + destruct bounds as [b|]; [now injection Hb|].
      pose proof (cleaned_spec x y z Hy Hz) as Hs. rewrite Hc in Hs.
      destruct Hs as (_ & _ & _ & Nx & Ny & _).
      destruct (data_bounds_returns _ _ Hb)
        as (lx & hx & ly & hy & E1 & E2 & E3 & E4 & -> & -> & -> & ->).
      exists lx, hx, ly, hy.
      split; [exact (np_min_max_box libm_pow Nx E1 E2)|].
      split; [exact (np_min_max_box libm_pow Ny E3 E4)|].
      repeat split.
    + intros Hres. split; intros Hd Hs.
      * exact (np_linspace_first64 libm_pow _ _ Hxi Hres Hd Hs).
      * exact (np_linspace_first64 libm_pow _ _ Hyi Hres Hd Hs).
  - intros start stop num xi Hn H.
    now apply np_linspace_exact_increasing.
  - intros KA Rbf griddata OK UK self x y z res bounds XI YI ZI Hy Hz Hres H.
    destruct (interpolate_returns _ _ _ _ _ _ _ _ _ _ _ Hy Hz H)
      as (_ & x' & y' & z' & min_x & min_y & max_x & max_y & xi & yi
          & Hc & Hb & Hxi & Hyi & Hm & _).
    exists min_x, min_y, max_x, max_y, xi, yi.
    destruct (np_linspace_exact_increasing _ _ Hres Hxi) as ([X0 X1] & _).
    destruct (np_linspace_exact_increasing _ _ Hres Hyi) as ([Y0 Y1] & _).
    rewrite Hc. cbn [fst snd]. repeat split; assumption.
  - intros libm_pow N64. split; [vm_compute; reflexivity|].
    eexists. eexists. split; [vm_compute; reflexivity|].
    split; [vm_compute; reflexivity|].
    repeat split; vm_compute; reflexivity.
Qed.

(** A run of [grid_covers_padded_or_given_bounds]: the sources
    [(0,0,1)], [(1,0,2)], [(0,1,3)], no bounds, resolution 2.  The
    bounds are the box [[0, 1]] by [[0, 1]] moved outwards by [0.05],
    and the grid starts on the lower bound. *)
Lemma grid_covers_padded_or_given_bounds_witness :
  exists xi yi : array float,
    np_linspace (N:=Binary64.Float64 Binary64.no_libm) (-0.05)%float 1.05%float 2 = Ok xi
    /\ np_meshgrid xi yi
       = ([[-0.05; 1.05]; [-0.05; 1.05]]%float, [[-0.05; -0.05]; [1.05; 1.05]]%float)
    /\ feq (nth 0 xi 0%float) (-0.05)%float.
Proof.
  destruct grid_covers_padded_or_given_bounds as (_ & H & _).
  destruct (H Binary64.no_libm false
              (failing7 "unused") (failing6 "unused") (failing6 "unused")
              (failing6 "unused")
              (default_idw (N:=Binary64.Float64 Binary64.no_libm))
              [0; 1; 0]%float [0; 0; 1]%float [1; 2; 3]%float 2%Z None
              [[-0.05; 1.05]; [-0.05; 1.05]]%float
              [[-0.05; -0.05]; [1.05; 1.05]]%float
              [[1.0134529147982063; 1.9977579160849137];
               [2.9887590065529999; 2.1994560290117859]]%float
              eq_refl eq_refl)
    as (x' & y' & z' & min_x & min_y & max_x & max_y & xi & yi
        & Hc & Hxi & Hyi & Hm & Hb & Hfirst).
  - vm_compute. reflexivity.
  - vm_compute in Hc. injection Hc as <- <- <-.
    destruct Hb as (lx & hx & ly & hy & (Hlx & Hhx & Hbx) & _ & -> & -> & _).
    assert (Elx : lx = 0%float).
    { destruct Hlx as [<-|[<-|[<-|[]]]]; try reflexivity.
      destruct (Hbx 0%float) as [H0 _]; [now left|]. vm_compute in H0. discriminate. }
    assert (Ehx : hx = 1%float).
    { destruct Hhx as [<-|[<-|[<-|[]]]]; try reflexivity;
        (destruct (Hbx 1%float) as [_ H1]; [right; now left|];
         vm_compute in H1; discriminate). }
    subst lx hx.
    exists xi, yi. split; [exact Hxi|]. split; [exact Hm|].
    destruct (Hfirst ltac:(lia)) as [Hx _].
    apply Hx.
    + vm_compute. exact I.
    + intros _. vm_compute. exact I.
Defined.

(** C4 fails as stated when the difference of the bounds overflows:
    with the supplied bounds [-1e308] and [1e308] on the x axis the
    spacing is infinite, and the first grid coordinate is NaN, not the
    lower bound. *)
Lemma grid_overflow_misses_lower_bound :
  let N64 := Binary64.Float64 Binary64.no_libm in
  exists YI ZI,
    returned
      (interpolate (N:=N64) false (failing7 "unused") (failing6 "unused")
         (failing6 "unused") (failing6 "unused") default_idw
         [0; 1; 0]%float [0; 0; 1]%float [1; 2; 3]%float 3
         (Some (-1e308, 0, 1e308, 1)%float))
    = Ok ([[nan; infinity; 1e308]; [nan; infinity; 1e308]; [nan; infinity; 1e308]]%float,
          YI, ZI)
    /\ PrimFloat.eqb nan (-1e308) = false
    /\ finite64 (1e308 - -1e308)%float = False.
Proof.
  cbv zeta. eexists. eexists. split; [vm_compute; reflexivity|].
  split; vm_compute; reflexivity.
Qed.

(** C7, as amended.  In both modes the coordinate sequences [xi] and
    [yi] of a call that returns are [np.linspace] between the bounds
    used and have exactly [grid_resolution] entries.  In exact
    arithmetic, for a resolution of two or more, the sequence of a call
    is strictly increasing when its lower bound is below its upper
    bound, and constant when the two bounds are equal; without supplied
    bounds the lower bound is never above the upper one, and the two
    are equal only when all cleaned sources have the same coordinate on
    that axis.  In binary64 a sequence between two different bounds
    can repeat a value ([grid_axis_not_strictly_increasing]). *)
Theorem grid_sequences_length_and_order :
  (forall (F : Type) (N : Num F) KA Rbf griddata OK UK
          (self : InterpolationEngine (F:=F)) (x y z : array F)
          (res : Z) bounds (XI YI ZI : array2 F),
      length y = length x -> length z = length x ->
      returned (interpolate KA Rbf griddata OK UK self x y z res bounds)
        = Ok (XI, YI, ZI) ->
      exists min_x min_y max_x max_y xi yi,
        match bounds with
        | None => data_bounds (fst (fst (cleaned x y z))) (snd (fst (cleaned x y z)))
        | Some b => Ok b
        end = Ok (min_x, min_y, max_x, max_y)
        /\ np_linspace min_x max_x res = Ok xi
        /\ np_linspace min_y max_y res = Ok yi
        /\ np_meshgrid xi yi = (XI, YI)
        /\ (0 <= res)%Z
        /\ length xi = Z.to_nat res /\ length yi = Z.to_nat res)
  /\ (forall KA Rbf griddata OK UK
             (self : InterpolationEngine (F:=R)) (x y z : array R)
             (res : Z) bounds (XI YI ZI : array2 R),
        length y = length x -> length z = length x -> (2 <= res)%Z ->
        returned (interpolate (N:=Exact.Real) KA Rbf griddata OK UK self
                    x y z res bounds)
          = Ok (XI, YI, ZI) ->
        exists min_x min_y max_x max_y xi yi,
          match bounds with
          | None => data_bounds (N:=Exact.Real)
                      (fst (fst (cleaned (N:=Exact.Real) x y z)))
                      (snd (fst (cleaned (N:=Exact.Real) x y z)))
          | Some b => Ok b
          end = Ok (min_x, min_y, max_x, max_y)
          /\ np_linspace (N:=Exact.Real) min_x max_x res = Ok xi
          /\ np_linspace (N:=Exact.Real) min_y max_y res = Ok yi
          /\ np_meshgrid xi yi = (XI, YI)
          /\ length xi = Z.to_nat res /\ length yi = Z.to_nat res
          /\ ((min_x < max_x)%R -> strictly_increasing xi)
          /\ (min_x = max_x ->
              forall k, (k < Z.to_nat res)%nat -> nth k xi 0%R = min_x)
          /\ ((min_y < max_y)%R -> strictly_increasing yi)
          /\ (min_y = max_y ->
              forall k, (k < Z.to_nat res)%nat -> nth k yi 0%R = min_y)
          /\ (bounds = None ->
              (min_x <= max_x)%R /\ (min_y <= max_y)%R
              /\ (min_x = max_x ->
                  forall v, In v (fst (fst (cleaned (N:=Exact.Real) x y z))) ->
                            v = min_x)
              /\ (min_y = max_y ->
                  forall v, In v (snd (fst (cleaned (N:=Exact.Real) x y z))) ->
                            v = min_y))).
Proof.
  split.
  - intros F N KA Rbf griddata OK UK self x y z res bounds XI YI ZI Hy Hz H.
    destruct (interpolate_returns _ _ _ _ _ _ _ _ _ _ _ Hy Hz H)
      as (_ & x' & y' & z' & min_x & min_y & max_x & max_y & xi & yi
          & Hc & Hb & Hxi & Hyi & Hm & _).
    exists min_x, min_y, max_x, max_y, xi, yi.
    destruct (np_linspace_length _ _ _ Hxi) as [H0 Hlx].
    destruct (np_linspace_length _ _ _ Hyi) as [_ Hly].
    rewrite Hc. cbn [fst snd]. repeat split; auto.
  - intros KA Rbf griddata OK UK self x y z res bounds XI YI ZI Hy Hz Hres H.
    destruct (interpolate_returns _ _ _ _ _ _ _ _ _ _ _ Hy Hz H)
      as (_ & x' & y' & z' & min_x & min_y & max_x & max_y & xi & yi
          & Hc & Hb & Hxi & Hyi & Hm & _).
    exists min_x, min_y, max_x, max_y, xi, yi.
    destruct (np_linspace_length _ _ _ Hxi) as [_ Hlx].
    destruct (np_linspace_length _ _ _ Hyi) as [_ Hly].
    destruct (np_linspace_exact_increasing _ _ Hres Hxi) as (_ & X1 & X2).
    destruct (np_linspace_exact_increasing _ _ Hres Hyi) as (_ & Y1 & Y2).
    rewrite Hc. cbn [fst snd].
    split; [exact Hb|]. split; [exact Hxi|]. split; [exact Hyi|].
    split; [exact Hm|].
    split; [exact Hlx|]. split; [exact Hly|].
    split; [exact X1|]. split; [intros E; apply X2; exact E|].
    split; [exact Y1|]. split; [intros E; apply Y2; exact E|].
    intros ->.
    destruct (data_bounds_returns _ _ Hb)
      as (lx & hx & ly & hy & E1 & E2 & E3 & E4 & -> & -> & -> & ->).
    pose proof (np_min_max_bounds _ E1 E2) as Bx.
    pose proof (np_min_max_bounds _ E3 E4) as By.
    assert (Hx : (lx <= hx)%R).
    { destruct x' as [|a x']; [discriminate|].
      destruct (Bx a) as [? ?]; [now left|]. lra. }
    assert (Hyy : (ly <= hy)%R).
    { destruct y' as [|a y']; [discriminate|].
      destruct (By a) as [? ?]; [now left|]. lra. }
    cbn [Fadd Fsub Fmul lit_0_05 Exact.Real].
    split; [lra|]. split; [lra|]. split.
    + intros E v Hv. destruct (Bx v Hv). lra.
    + intros E v Hv. destruct (By v Hv). lra.
Qed.

(** A run of [grid_sequences_length_and_order]: in exact arithmetic,
    three sources, the bounds [(0, 0, 1, 1)], resolution 3; both
    sequences of the call are strictly increasing. *)
Lemma grid_sequences_length_and_order_witness :
  exists (XI YI ZI : array2 R) (xi yi : array R),
    returned
      (interpolate (N:=Exact.Real) false (failing7 "unused") (failing6 "unused")
         (failing6 "unused") (failing6 "unused") (default_idw (N:=Exact.Real))
         [0; 1; 0]%R [0; 0; 1]%R [1; 2; 3]%R 3 (Some (0, 0, 1, 1)%R))
    = Ok (XI, YI, ZI)
    /\ np_meshgrid xi yi = (XI, YI)
    /\ strictly_increasing xi /\ strictly_increasing yi.
Proof.
  destruct grid_sequences_length_and_order as [_ G].
  destruct (np_linspace (N:=Exact.Real) 0%R 1%R 3) as [xi0|e] eqn:Hl;
    [|discriminate Hl].
  pose proof (@interpolate_steps R Exact.Real false
                (failing7 "unused") (failing6 "unused")
                (failing6 "unused") (failing6 "unused")
                (default_idw (N:=Exact.Real))
                [0; 1; 0]%R [0; 0; 1]%R [1; 2; 3]%R 3%Z (Some (0, 0, 1, 1)%R)
                [0; 1; 0]%R [0; 0; 1]%R [1; 2; 3]%R 0%R 0%R 1%R 1%R xi0 xi0
                ltac:(cbn; lia) eq_refl eq_refl eq_refl eq_refl Hl Hl) as Hrun.
  destruct (np_meshgrid xi0 xi0) as [XI YI] eqn:Hm.
  cbv zeta in Hrun.
  change (dispatch false (failing7 "unused") (failing6 "unused")
            (failing6 "unused") (failing6 "unused") (default_idw (N:=Exact.Real))
            [0; 1; 0]%R [0; 0; 1]%R [1; 2; 3]%R xi0 xi0 XI YI)
    with (ret (_idw (N:=Exact.Real) (default_idw (N:=Exact.Real))
                 [0; 1; 0]%R [0; 0; 1]%R [1; 2; 3]%R XI YI)) in Hrun.
  cbn [ret warned returned] in Hrun.
  set (ZI := _idw (N:=Exact.Real) (default_idw (N:=Exact.Real))
               [0; 1; 0]%R [0; 0; 1]%R [1; 2; 3]%R XI YI) in *.
  assert (Hret : returned
                   (interpolate (N:=Exact.Real) false (failing7 "unused")
                      (failing6 "unused") (failing6 "unused") (failing6 "unused")
                      (default_idw (N:=Exact.Real))
                      [0; 1; 0]%R [0; 0; 1]%R [1; 2; 3]%R 3 (Some (0, 0, 1, 1)%R))
                 = Ok (XI, YI, ZI))
    by (rewrite Hrun; reflexivity).
  destruct (G false (failing7 "unused") (failing6 "unused")
              (failing6 "unused") (failing6 "unused") (default_idw (N:=Exact.Real))
              [0; 1; 0]%R [0; 0; 1]%R [1; 2; 3]%R 3%Z (Some (0, 0, 1, 1)%R)
              XI YI ZI eq_refl eq_refl ltac:(lia) Hret)
    as (min_x & min_y & max_x & max_y & xi & yi
        & Hb & _ & _ & Hmesh & _ & _ & X1 & _ & Y1 & _).
  injection Hb as <- <- <- <-.
  exists XI, YI, ZI, xi, yi.
  split; [exact Hret|]. split; [exact Hmesh|].
  split; [apply X1; lra|apply Y1; lra].
Defined.

(** C7 fails as stated, in two ways.  Three sources with the same [x]
    give, without supplied bounds, the sequence [xi = [1; 1]].  And in
    binary64 the three coordinates between the bounds [0] and [5e-324],
    the least positive number, are [0], [0] and [5e-324]: the lower
    bound is below the upper one and the sequence is not strictly
    increasing. *)
Lemma grid_axis_not_strictly_increasing :
  let N64 := Binary64.Float64 Binary64.no_libm in
  (exists YI ZI,
     returned
       (interpolate (N:=N64) false (failing7 "unused") (failing6 "unused")
          (failing6 "unused") (failing6 "unused") default_idw
          [1; 1; 1]%float [0; 1; 2]%float [1; 2; 3]%float 2 None)
     = Ok ([[1; 1]; [1; 1]]%float, YI, ZI)
     /\ np_meshgrid [1; 1]%float [-0.1; 2.1]%float = ([[1; 1]; [1; 1]]%float, YI)
     /\ PrimFloat.ltb 1 1 = false)
  /\ (exists YI ZI,
        returned
          (interpolate (N:=N64) false (failing7 "unused") (failing6 "unused")
             (failing6 "unused") (failing6 "unused") default_idw
             [0; 1; 0]%float [0; 0; 1]%float [1; 2; 3]%float 3
             (Some (0, 0, 5e-324, 1)%float))
        = Ok ([[0; 0; 5e-324]; [0; 0; 5e-324]; [0; 0; 5e-324]]%float, YI, ZI)
        /\ np_linspace (N:=N64) 0%float 5e-324%float 3 = Ok [0; 0; 5e-324]%float
        /\ PrimFloat.ltb 0 5e-324 = true
        /\ PrimFloat.ltb 0 0 = false).
Proof.
  cbv zeta. split.
  - eexists. eexists. split; [vm_compute; reflexivity|].
    split; vm_compute; reflexivity.
  - eexists. eexists. split; [vm_compute; reflexivity|].
    repeat split; vm_compute; reflexivity.
Qed.

(** C10 fails as stated, in binary64: three sources with the same value
    [0.3], default power and smoothing, resolution 3.  The centre cell
    [(0.5, 0.5)] is equally far from the three sources and is estimated
    as [0.30000000000000004], above the maximum [0.3] of the values. *)
Lemma idw_rounding_leaves_range :
  let N64 := Binary64.Float64 Binary64.no_libm in
  exists XI YI ZI,
    interpolate (N:=N64) false (failing7 "unused") (failing6 "unused")
      (failing6 "unused") (failing6 "unused") default_idw
      [0; 1; 0]%float [0; 0; 1]%float [0.3; 0.3; 0.3]%float 3 None
    = Outcome [] (Ok (XI, YI, ZI))
    /\ nth 1 (nth 1 XI []) 0%float = 0.5%float
    /\ nth 1 (nth 1 YI []) 0%float = 0.5%float
    /\ np_max (N:=N64) [0.3; 0.3; 0.3]%float = Ok 0.3%float
    /\ nth 1 (nth 1 ZI []) 0%float = 0.30000000000000004%float
    /\ PrimFloat.ltb 0.3 0.30000000000000004 = true.
Proof.
  cbv zeta. do 3 eexists. split; [vm_compute; reflexivity|].
  repeat split; vm_compute; reflexivity.
Qed.

(* ================================================================== *)
(** ** Radial basis functions *)

Section RbfFallback.
Context {F : Type} {N : Num F}.

Lemma idw_cell_parameters (self self' : InterpolationEngine (F:=F)) x y z gx gy :
  power self = power self' -> smoothing self = smoothing self' ->
  idw_cell self x y z gx gy = idw_cell self' x y z gx gy.
Proof.
  intros Hp Hs. unfold idw_cell, idw_distances, idw_weights.
  now rewrite Hp, Hs.
Qed.

Lemma idw_parameters (self self' : InterpolationEngine (F:=F)) x y z XI YI :
  power self = power self' -> smoothing self = smoothing self' ->
  _idw self x y z XI YI = _idw self' x y z XI YI.
Proof.
  intros Hp Hs. unfold _idw, zip_with.
  apply map_ext. intros [XIi YIi]. cbn.
  apply map_ext. intros [gx gy]. cbn.
  now apply idw_cell_parameters.
Qed.

Lemma prefix_rbf_not_idw_nor_kriging (m : string) :
  String.prefix "rbf" m = true ->
  String.eqb m "idw" = false /\ String.prefix "kriging" m = false.
Proof.
  intros H. apply String.prefix_correct in H.
  destruct m as [|c m]; cbn in H; [discriminate H|].
  injection H as Hc _. subst c. split; reflexivity.
Qed.

End RbfFallback.

(** C2, as amended.  When the fit or the evaluation of the RBF raises
    [e], [_rbf] does not raise: it emits the one warning
    ["RBF interpolation failed: e. Falling back to IDW."] and returns
    the grid that [_idw] produces on the same sources and grid with the
    power and the smoothing of this engine.  Those are the defaults, and
    the grid is that of the default IDW, when the engine was constructed
    without [power] and [smoothing].  For a method named [rbf...] this is
    what the dispatch of [interpolate] runs. *)
Theorem rbf_failure_falls_back_to_idw (F : Type) (N : Num F)
    (KA : bool)
    (Rbf : string -> F -> array F -> array F -> array F -> array2 F -> array2 F
           -> result (array2 F))
    (griddata : string -> array F -> array F -> array F -> array2 F -> array2 F
                -> result (array2 F))
    (OK UK : string -> array F -> array F -> array F -> array F -> array F
             -> result (array2 F))
    (self : InterpolationEngine (F:=F)) (x y z xi yi : array F)
    (XI YI : array2 F) (e : exn) :
  Rbf (get (lookup (method self) function_map) "multiquadric"%string)
      (rbf_smooth self) x y z XI YI = Raise e ->
  _rbf Rbf self x y z XI YI
  = Outcome [("RBF interpolation failed: " ++ exn_str e
              ++ ". Falling back to IDW.")%string]
            (Ok (_idw self x y z XI YI))
  /\ (String.prefix "rbf" (method self) = true ->
      dispatch KA Rbf griddata OK UK self x y z xi yi XI YI
      = _rbf Rbf self x y z XI YI)
  /\ (forall m kw,
        __init__ KA m kw = Ok self ->
        kw_power kw = None -> kw_smoothing kw = None ->
        _idw self x y z XI YI = _idw default_idw x y z XI YI).
Proof.
  intros H. split; [|split].
  - unfold _rbf. rewrite H. reflexivity.
  - intros Hp. unfold dispatch.
    destruct (prefix_rbf_not_idw_nor_kriging _ Hp) as [E1 E2].
    now rewrite E1, E2, Hp.
  - intros m kw Hi Hpw Hsm. apply idw_parameters.
    + unfold __init__ in Hi.
      destruct (negb (key_in m (METHODS KA))); [discriminate|].
      destruct (String.prefix "kriging" m && negb KA); [discriminate|].
      injection Hi as <-. cbn. now rewrite Hpw.
    + unfold __init__ in Hi.
      destruct (negb (key_in m (METHODS KA))); [discriminate|].
      destruct (String.prefix "kriging" m && negb KA); [discriminate|].
      injection Hi as <-. cbn. now rewrite Hsm.
Qed.

(** A run of [rbf_failure_falls_back_to_idw]: the sources [(0,0)] and
    [(0,0)] coincide, the solver reports a singular matrix. *)
Lemma rbf_failure_falls_back_to_idw_witness :
  let N64 := Binary64.Float64 Binary64.no_libm in
  let self := Engine "rbf_linear" 2%float 0%float "gaussian" 0%float in
  _rbf (N:=N64) (failing7 "Matrix is singular.") self
    [0; 0; 1; 0]%float [0; 0; 0; 1]%float [1; 1; 2; 3]%float [[0]]%float [[0]]%float
  = Outcome ["RBF interpolation failed: Matrix is singular.. Falling back to IDW."%string]
      (Ok (_idw (N:=N64) self [0; 0; 1; 0]%float [0; 0; 0; 1]%float [1; 1; 2; 3]%float
             [[0]]%float [[0]]%float)).
Proof.
  cbv zeta.
  destruct (@rbf_failure_falls_back_to_idw float
              (Binary64.Float64 Binary64.no_libm) false
              (failing7 "Matrix is singular.") (failing6 "unused")
              (failing6 "unused") (failing6 "unused")
              (Engine "rbf_linear" 2%float 0%float "gaussian" 0%float)
              [0; 0; 1; 0]%float [0; 0; 0; 1]%float [1; 1; 2; 3]%float [] []
              [[0]]%float [[0]]%float (LibraryError "Matrix is singular.")
              eq_refl) as [H _].
  exact H.
Defined.

(** C2 fails as stated: an RBF engine constructed with [smoothing=1.0]
    falls back to IDW with that smoothing.  At the cell [(0, 0)], which
    lies on a source of value [1.0], it returns [1.3]; IDW with default
    parameters returns [1.0]. *)
Lemma rbf_fallback_keeps_configured_parameters :
  let N64 := Binary64.Float64 Binary64.no_libm in
  exists self,
    __init__ (N:=N64) false "rbf_linear" (Kwargs None (Some 1%float) None None)
      = Ok self
    /\ _rbf (N:=N64) (failing7 "Matrix is singular.") self
         [0; 0; 1; 0]%float [0; 0; 0; 1]%float [1; 1; 2; 3]%float
         [[0]]%float [[0]]%float
       = Outcome ["RBF interpolation failed: Matrix is singular.. Falling back to IDW."%string]
           (Ok [[1.3]]%float)
    /\ _idw (N:=N64) default_idw
         [0; 0; 1; 0]%float [0; 0; 0; 1]%float [1; 1; 2; 3]%float
         [[0]]%float [[0]]%float
       = [[1]]%float
    /\ PrimFloat.eqb 1.3 1 = false.
Proof.
  cbv zeta. eexists. split; [vm_compute; reflexivity|].
  repeat split; vm_compute; reflexivity.
Qed.

(* ================================================================== *)
(** ** The registry and the constructor *)

Section Registry.
Context {F : Type} {N : Num F}.
Local Open Scope string_scope.

Lemma key_in_In (k : string) (d : list (string * string)) :
  key_in k d = true <-> In k (keys d).
Proof.
  unfold key_in. rewrite existsb_exists. split.
  - intros (k' & Hin & E). apply String.eqb_eq in E. now subst.
  - intros Hin. exists k. split; [assumption|apply String.eqb_refl].
Qed.

(** No registered method is refused by the second check of the
    constructor. *)
Lemma registered_passes_kriging_check (KA : bool) (m : string) :
  key_in m (METHODS KA) = true -> String.prefix "kriging" m && negb KA = false.
Proof.
  destruct KA; [intros _; apply andb_false_r|].
  intros H. apply key_in_In in H. cbn in H.
  repeat (destruct H as [<-|H]; [reflexivity|]). destruct H.
Qed.

Lemma init_registered (KA : bool) (m : string) (kw : kwargs) :
  key_in m (METHODS KA) = true ->
  __init__ KA m kw
  = Ok {| method := m;
          power := get (kw_power kw) lit_2_0;
          smoothing := get (kw_smoothing kw) (Fof_Z 0);
          variogram_model := get (kw_variogram_model kw) "gaussian";
          rbf_smooth := get (kw_rbf_smooth kw) (Fof_Z 0) |}.
Proof.
  intros H. unfold __init__.
  rewrite H, (registered_passes_kriging_check _ _ H). reflexivity.
Qed.

Lemma init_unregistered (KA : bool) (m : string) (kw : kwargs) :
  key_in m (METHODS KA) = false ->
  __init__ KA m kw
  = Raise (ValueError ("Unknown method: " ++ m ++ ". Available: "
                       ++ repr_list (keys (METHODS KA)))).
Proof.
  intros H. unfold __init__. now rewrite H.
Qed.

End Registry.

(** C8, as amended.  Constructing an engine for an identifier that is
    not a key of the registry raises [ValueError] with the message
    ["Unknown method: <identifier>. Available: <list of the keys>"].
    For a registered identifier the constructor returns an engine that
    holds the keyword values as they were passed: the power and the
    other parameters are not validated. *)
Theorem init_checks_method_only (F : Type) (N : Num F)
    (KA : bool) (m : string) (kw : kwargs (F:=F)) :
  (key_in m (METHODS KA) = false ->
     __init__ KA m kw
     = Raise (ValueError ("Unknown method: " ++ m ++ ". Available: "
                          ++ repr_list (keys (METHODS KA)))%string))
  /\ (key_in m (METHODS KA) = true ->
      forall p : F,
        kw_power kw = Some p ->
        exists self, __init__ KA m kw = Ok self /\ power self = p)
  /\ repr_list (keys (METHODS false))
     = ("['idw', 'linear', 'cubic', 'nearest', 'rbf_multiquadric', "
        ++ "'rbf_gaussian', 'rbf_thin_plate', 'rbf_linear']")%string
  /\ repr_list (keys (METHODS true))
     = ("['idw', 'linear', 'cubic', 'nearest', 'rbf_multiquadric', "
        ++ "'rbf_gaussian', 'rbf_thin_plate', 'rbf_linear', "
        ++ "'kriging_ordinary', 'kriging_universal']")%string.
Proof.
  split; [|split; [|split]].
  - apply init_unregistered.
  - intros H p Hp. rewrite (init_registered _ _ kw H).
    eexists. split; [reflexivity|]. cbn. now rewrite Hp.
  - reflexivity.
  - reflexivity.
Qed.

(** C8 fails as stated: [InterpolationEngine('idw', power=-1.0)] is
    constructed, and its [interpolate] returns a grid. *)
Lemma init_accepts_negative_power :
  let N64 := Binary64.Float64 Binary64.no_libm in
  exists self XI YI ZI,
    __init__ (N:=N64) false "idw" (Kwargs (Some (-1)%float) None None None)
      = Ok self
    /\ power self = (-1)%float
    /\ PrimFloat.leb (power self) 0 = true
    /\ interpolate (N:=N64) false (failing7 "unused") (failing6 "unused")
         (failing6 "unused") (failing6 "unused") self
         [0; 1; 0]%float [0; 0; 1]%float [1; 2; 3]%float 2 None
       = Outcome [] (Ok (XI, YI, ZI)).
Proof.
  cbv zeta. do 4 eexists. split; [vm_compute; reflexivity|].
  repeat split; vm_compute; reflexivity.
Qed.

(** C9.  Without the geostatistics provider the registry has exactly
    the eight base identifiers; with it, those followed by the two
    kriging identifiers; no identifier occurs twice.  The registry is a
    function of the availability alone, and the constructor accepts
    exactly its keys. *)
Theorem registry_contents :
  keys (METHODS false)
  = ["idw"; "linear"; "cubic"; "nearest"; "rbf_multiquadric";
     "rbf_gaussian"; "rbf_thin_plate"; "rbf_linear"]%string
  /\ keys (METHODS true)
     = keys (METHODS false) ++ ["kriging_ordinary"%string; "kriging_universal"%string]
  /\ NoDup (keys (METHODS true))
  /\ (forall (F : Type) (N : Num F) (KA : bool) (m : string) (kw : kwargs (F:=F)),
        (exists self, __init__ KA m kw = Ok self) <-> In m (keys (METHODS KA))).
Proof.
  split; [reflexivity|]. split; [reflexivity|]. split.
  - cbn. repeat (constructor; [cbn; intuition discriminate|]). constructor.
  - intros F N KA m kw. rewrite <- key_in_In. split.
    + intros (self & H). destruct (key_in m (METHODS KA)) eqn:E; [reflexivity|].
      rewrite (init_unregistered _ _ kw E) in H. discriminate.
    + intros H. rewrite (init_registered _ _ kw H). eauto.
Qed.

(* ================================================================== *)
(** ** The extrapolation mask *)

Section MaskFacts.
Context {F : Type} {N : Num F} {NaN : HasNaN F}.
Local Open Scope num_scope.

Lemma min_axis1_cdist (P : list (F * F)) (s0 : F * F) (S : list (F * F)) :
  min_axis1 (cdist P (s0 :: S)) = Ok (map (min_distance s0 S) P).
Proof.
  unfold cdist. induction P as [|u P IH]; [reflexivity|].
  cbn [map min_axis1 np_min] in *. now rewrite IH.
Qed.

Lemma combine_app_same {A B} (a a' : list A) (b b' : list B) :
  length a = length b ->
  combine (a ++ a') (b ++ b') = combine a b ++ combine a' b'.
Proof.
  revert b. induction a as [|u a IH]; intros [|v b] H; cbn in *; try lia; auto.
  f_equal. apply IH. lia.
Qed.

Lemma combine_ravel {A B} (X : list (list A)) (Y : list (list B)) :
  shape Y = shape X ->
  combine (ravel X) (ravel Y) = ravel (zip_with (@combine A B) X Y).
Proof.
  unfold ravel. revert Y. induction X as [|r X IH]; intros [|q Y] H;
    cbn in *; try discriminate; auto.
  injection H as Hr Hs. unfold zip_with in *. cbn.
  rewrite combine_app_same by lia. f_equal. now apply IH.
Qed.

Lemma firstn_skipn_app {A} (a b : list A) (n : nat) :
  length a = n -> firstn n (a ++ b) = a /\ skipn n (a ++ b) = b.
Proof.
  intros <-. split.
  - rewrite firstn_app, Nat.sub_diag, firstn_all. cbn. apply app_nil_r.
  - rewrite skipn_app, Nat.sub_diag, skipn_all. reflexivity.
Qed.

Lemma reshape_like_ravel {A B} (X : list (list A)) (L : list (list B)) :
  shape L = shape X -> reshape_like X (ravel L) = L.
Proof.
  unfold ravel. revert L. induction X as [|r X IH]; intros [|q L] H;
    cbn in *; try discriminate; auto.
  injection H as Hr Hs.
  destruct (firstn_skipn_app q (concat L) Hr) as [E1 E2].
  rewrite E1, E2. f_equal. now apply IH.
Qed.

Lemma shape_zip_with {A B C} (f : A -> B -> C) (X : list (list A)) (Y : list (list B)) :
  shape Y = shape X -> shape (zip_with (zip_with f) X Y) = shape X.
Proof.
  revert Y. induction X as [|r X IH]; intros [|q Y] H;
    cbn in *; try discriminate; auto.
  injection H as Hr Hs. f_equal.
  - fold (zip_with f r q). rewrite zip_with_length, Hr. apply Nat.min_id.
  - now apply IH.
Qed.

Lemma shape_zip_combine {A B} (X : list (list A)) (Y : list (list B)) :
  shape Y = shape X -> shape (zip_with (@combine A B) X Y) = shape X.
Proof.
  revert Y. induction X as [|r X IH]; intros [|q Y] H;
    cbn in *; try discriminate; auto.
  injection H as Hr Hs. f_equal.
  - rewrite length_combine, Hr. apply Nat.min_id.
  - now apply IH.
Qed.

Lemma shape_map_map {A B} (f : A -> B) (X : list (list A)) :
  shape (map (map f) X) = shape X.
Proof.
  unfold shape. rewrite map_map. apply map_ext. intros r. apply length_map.
Qed.

Lemma zip_with_ext {A B C} (f g : A -> B -> C) a b :
  (forall u v, f u v = g u v) -> zip_with f a b = zip_with g a b.
Proof.
  intros H. unfold zip_with. apply map_ext. intros [u v]. apply H.
Qed.

Lemma zip_with_map_l {A A' B C} (f : A' -> B -> C) (g : A -> A') a b :
  zip_with f (map g a) b = zip_with (fun u v => f (g u) v) a b.
Proof.
  revert b. induction a as [|u a IH]; intros [|v b]; auto.
  cbn [map]. rewrite !zip_with_cons. f_equal. apply IH.
Qed.

(** The mask cell by cell: a cell keeps its value when its least
    distance to the samples is below the threshold and becomes NaN
    otherwise, and the grid keeps its shape. *)
Lemma mask_cellwise (XI YI ZI : array2 F) (s0 : F * F) (S : list (F * F))
    (max_distance : F) :
  shape YI = shape XI ->
  mask_extrapolation_regions XI YI ZI (s0 :: S) max_distance
  = Ok (zip_with
          (zip_with (fun u z =>
             if min_distance s0 S u <? max_distance then z else Fnan))
          (zip_with (@combine F F) XI YI) ZI).
Proof.
  intros HY. unfold mask_extrapolation_regions.
  rewrite min_axis1_cdist, combine_ravel by assumption.
  unfold ravel at 1. rewrite concat_map.
  rewrite reshape_like_ravel.
  2:{ rewrite shape_map_map. now apply shape_zip_combine. }
  f_equal. unfold np_where.
  rewrite !zip_with_map_l.
  apply zip_with_ext. intros r q.
  now rewrite !zip_with_map_l.
Qed.

Lemma mask_shape (XI YI ZI M : array2 F) (sample_points : list (F * F))
    (max_distance : F) :
  shape YI = shape XI -> shape ZI = shape XI ->
  mask_extrapolation_regions XI YI ZI sample_points max_distance = Ok M ->
  shape M = shape ZI.
Proof.
  intros HY HZ H. destruct sample_points as [|s0 S]; [discriminate|].
  rewrite mask_cellwise in H by assumption. injection H as <-.
  rewrite shape_zip_with; [|now rewrite shape_zip_combine].
  rewrite shape_zip_combine; congruence.
Qed.

End MaskFacts.

Section Mask64.
Variable libm_pow : float -> float -> float.
Let N64 : Num float := Binary64.Float64 libm_pow.
Local Existing Instance N64.

(** When no distance from the grid point [u] is NaN, the cell keeps its
    value exactly when some sample is at a distance strictly below the
    threshold. *)
Lemma mask_keeps_iff_near (s0 : float * float) (S : list (float * float))
    (u : float * float) (max_distance : float) :
  Forall not_nan (map (euclidean u) (s0 :: S)) ->
  PrimFloat.ltb (min_distance s0 S u) max_distance = true
  <-> exists s, In s (s0 :: S) /\ flt (euclidean u s) max_distance.
Proof.
  intros Hnn.
  destruct (np_min_below libm_pow (a := map (euclidean u) (s0 :: S)) max_distance)
    as (m & Hm & Hiff); [discriminate|assumption|].
  assert (E : Ok m = Ok (min_distance s0 S u)) by (rewrite <- Hm; reflexivity).
  injection E as ->. rewrite Hiff. split.
  - intros (d & Hd & Hlt). apply in_map_iff in Hd.
    destruct Hd as (s & <- & Hs). eauto.
  - intros (s & Hs & Hlt). exists (euclidean u s). split; [|assumption].
    apply in_map_iff. eauto.
Qed.

End Mask64.

(** C5: where the code departs from the claim.  The grid point [(1, 0)]
    is at distance exactly [1.0] from the only sample [(0, 0)]; with the
    threshold [1.0] its distance does not exceed the threshold, and the
    mask replaces its value [6.0] by NaN all the same.  The point at
    distance [0.0] keeps its value and the point at distance [2.0] is
    masked, as the claim says. *)
Theorem mask_drops_cell_at_threshold (libm_pow : float -> float -> float) :
  let N64 := Binary64.Float64 libm_pow in
  euclidean (N:=N64) (1, 0)%float (0, 0)%float = 1%float
  /\ PrimFloat.ltb 1 1 = false
  /\ mask_extrapolation_regions (N:=N64) (NaN:=Binary64.Float64_nan)
       [[0; 1; 2]]%float [[0; 0; 0]]%float [[5; 6; 7]]%float
       [(0, 0)%float] 1%float
     = Ok [[5; nan; nan]]%float.
Proof.
  cbv zeta. repeat split; vm_compute; reflexivity.
Qed.

(** A run of [init_checks_method_only]: an identifier that is not
    registered, and a registered one with a power. *)
Lemma init_checks_method_only_witness :
  let N64 := Binary64.Float64 Binary64.no_libm in
  __init__ (N:=N64) false "spline" no_kwargs
  = Raise (ValueError
      ("Unknown method: spline. Available: "
       ++ "['idw', 'linear', 'cubic', 'nearest', 'rbf_multiquadric', "
       ++ "'rbf_gaussian', 'rbf_thin_plate', 'rbf_linear']")%string)
  /\ exists self,
       __init__ (N:=N64) false "idw" (Kwargs (Some 3%float) None None None) = Ok self
       /\ power self = 3%float.
Proof.
  cbv zeta. split.
  - destruct (@init_checks_method_only float (Binary64.Float64 Binary64.no_libm)
                false "spline"%string no_kwargs) as [H _].
    apply H. reflexivity.
  - destruct (@init_checks_method_only float (Binary64.Float64 Binary64.no_libm)
                false "idw"%string (Kwargs (Some 3%float) None None None))
      as (_ & H & _).
    apply H; reflexivity.
Defined.

(* ================================================================== *)
(** ** Further properties: routing of the methods *)

Section Routing.
Context {F : Type} {N : Num F}.
Variable KRIGING_AVAILABLE : bool.
Variable Rbf : string -> F -> array F -> array F -> array F -> array2 F -> array2 F -> result (array2 F).
Variable griddata : string -> array F -> array F -> array F -> array2 F -> array2 F -> result (array2 F).
Variable OrdinaryKriging : string -> array F -> array F -> array F -> array F -> array F -> result (array2 F).
Variable UniversalKriging : string -> array F -> array F -> array F -> array F -> array F -> result (array2 F).
Local Open Scope string_scope.

Local Abbreviation interpolate' :=
  (interpolate KRIGING_AVAILABLE Rbf griddata OrdinaryKriging UniversalKriging).
Local Abbreviation dispatch' :=
  (dispatch KRIGING_AVAILABLE Rbf griddata OrdinaryKriging UniversalKriging).

Lemma init_returns (m : string) (kw : kwargs) (self : InterpolationEngine) :
  __init__ KRIGING_AVAILABLE m kw = Ok self ->
  In m (keys (METHODS KRIGING_AVAILABLE)) /\ method self = m.
Proof.
  intros H. destruct (key_in m (METHODS KRIGING_AVAILABLE)) eqn:E.
  - rewrite (init_registered _ _ kw E) in H. injection H as <-.
    split; [now apply key_in_In|reflexivity].
  - rewrite (init_unregistered _ _ kw E) in H. discriminate.
Qed.

End Routing.

(** X1.  The dispatch of an engine that the constructor returned runs
    the implementation registered for its method: [_idw] for [idw],
    [griddata] for [linear], [cubic] and [nearest], [_rbf] for the four
    [rbf_*] methods, and [_kriging] for the two kriging methods, which
    are only constructed when kriging is available.  The final [else] of
    the chain is not reached. *)
Theorem dispatch_routes_registered_methods (F : Type) (N : Num F) (KA : bool)
    (Rbf : string -> F -> array F -> array F -> array F -> array2 F -> array2 F
           -> result (array2 F))
    (griddata : string -> array F -> array F -> array F -> array2 F -> array2 F
                -> result (array2 F))
    (OK UK : string -> array F -> array F -> array F -> array F -> array F
             -> result (array2 F))
    (m : string) (kw : kwargs (F:=F)) (self : InterpolationEngine (F:=F))
    (x y z xi yi : array F) (XI YI : array2 F) :
  __init__ KA m kw = Ok self ->
  let run := dispatch KA Rbf griddata OK UK self x y z xi yi XI YI in
  (m = "idw"%string /\ run = ret (_idw self x y z XI YI))
  \/ (In m ["linear"; "cubic"; "nearest"]%string
      /\ run = lift (griddata m x y z XI YI))
  \/ (In m ["rbf_multiquadric"; "rbf_gaussian"; "rbf_thin_plate"; "rbf_linear"]%string
      /\ run = _rbf Rbf self x y z XI YI)
  \/ (In m ["kriging_ordinary"; "kriging_universal"]%string
      /\ KA = true
      /\ run = _kriging KA OK UK self x y z xi yi).
Proof.
  intros H run. destruct (init_returns _ _ _ H) as [Hin Hm].
  unfold run, dispatch. rewrite Hm. clear run H Hm.
  destruct KA; cbn in Hin;
    repeat (destruct Hin as [<-|Hin];
            [first [ left; split; reflexivity
                   | right; left; split; [cbn; tauto|reflexivity]
                   | right; right; left; split; [cbn; tauto|reflexivity]
                   | right; right; right; split; [cbn; tauto|split; reflexivity] ]|]);
    destruct Hin.
Qed.

(** A run of [dispatch_routes_registered_methods]: a constructed
    [nearest] engine calls [griddata]. *)
Lemma dispatch_routes_registered_methods_witness :
  let N64 := Binary64.Float64 Binary64.no_libm in
  exists self,
    __init__ (N:=N64) false "nearest" no_kwargs = Ok self
    /\ dispatch (N:=N64) false (failing7 "unused") (fun _ _ _ _ _ _ => Ok [[7]]%float)
         (failing6 "unused") (failing6 "unused") self
         [0]%float [0]%float [7]%float [0]%float [0]%float [[0]]%float [[0]]%float
       = Outcome [] (Ok [[7]]%float).
Proof.
  cbv zeta. eexists. split; [reflexivity|].
  destruct (@dispatch_routes_registered_methods float
              (Binary64.Float64 Binary64.no_libm) false
              (failing7 "unused") (fun _ _ _ _ _ _ => Ok [[7]]%float)
              (failing6 "unused") (failing6 "unused")
              "nearest"%string no_kwargs _
              [0]%float [0]%float [7]%float [0]%float [0]%float
              [[0]]%float [[0]]%float eq_refl)
    as [[E _]|[[_ E]|[[E _]|[E _]]]].
  - discriminate E.
  - exact E.
  - cbn in E. repeat (destruct E as [E|E]; [discriminate E|]). destruct E.
  - cbn in E. repeat (destruct E as [E|E]; [discriminate E|]). destruct E.
Defined.

(** X2.  The only error of the constructor is the unknown-method error.
    Its second check, for a kriging method without PyKrige, never
    fires: without PyKrige the kriging identifiers are not in the
    registry and are refused by the first check. *)
Theorem init_only_raises_unknown_method (F : Type) (N : Num F) (KA : bool)
    (m : string) (kw : kwargs (F:=F)) (e : exn) :
  __init__ KA m kw = Raise e ->
  key_in m (METHODS KA) = false
  /\ e = ValueError ("Unknown method: " ++ m ++ ". Available: "
                     ++ repr_list (keys (METHODS KA)))%string
  /\ e <> ValueError "Kriging methods require PyKrige. Please install it first.".
Proof.
  intros H. destruct (key_in m (METHODS KA)) eqn:E.
  - rewrite (init_registered _ _ kw E) in H. discriminate.
  - rewrite (init_unregistered _ _ kw E) in H. injection H as <-.
    repeat split. cbn. intros Heq. injection Heq. intros. discriminate.
Qed.

(** A run of [init_only_raises_unknown_method]: ordinary kriging
    requested without PyKrige. *)
Lemma init_only_raises_unknown_method_witness :
  __init__ (N:=Binary64.Float64 Binary64.no_libm) false "kriging_ordinary" no_kwargs
  = Raise (ValueError
      ("Unknown method: kriging_ordinary. Available: "
       ++ "['idw', 'linear', 'cubic', 'nearest', 'rbf_multiquadric', "
       ++ "'rbf_gaussian', 'rbf_thin_plate', 'rbf_linear']")%string).
Proof.
  destruct (@init_only_raises_unknown_method float
              (Binary64.Float64 Binary64.no_libm) false
              "kriging_ordinary"%string no_kwargs _ eq_refl) as (_ & H & _).
  exact (eq_sym (f_equal Raise H)).
Defined.

(** X3.  The kernel table of [_rbf] and the registry agree: the keys of
    [function_map] are the registered identifiers that start with
    [rbf], in the same order, and each maps to its own name without the
    [rbf_] prefix.  So the default kernel of the lookup is never used
    for a registered method. *)
Theorem function_map_matches_registry :
  (forall KA, map fst function_map
              = filter (String.prefix "rbf") (keys (METHODS KA)))
  /\ (forall m k, lookup m function_map = Some k -> m = ("rbf_" ++ k)%string)
  /\ (forall KA m, In m (keys (METHODS KA)) -> String.prefix "rbf" m = true ->
        exists k, lookup m function_map = Some k).
Proof.
  split; [|split].
  - intros [|]; reflexivity.
  - intros m k. unfold function_map. cbn [lookup].
    repeat (match goal with
            | |- context [String.eqb m ?s] =>
                destruct (String.eqb_spec m s) as [->|_];
                [intros H; injection H as <-; reflexivity|]
            end).
    discriminate.
  - intros KA m Hin Hp.
    assert (Hf : In m (filter (String.prefix "rbf") (keys (METHODS KA))))
      by (apply filter_In; auto).
    destruct KA; cbn in Hf;
      repeat (destruct Hf as [<-|Hf]; [eexists; reflexivity|]); destruct Hf.
Qed.

(* ================================================================== *)
(** ** Further properties: the fallback seen from [interpolate] *)

Section Fallback.
Context {F : Type} {N : Num F}.
Variable KRIGING_AVAILABLE : bool.
Variable Rbf : string -> F -> array F -> array F -> array F -> array2 F -> array2 F -> result (array2 F).
Variable griddata : string -> array F -> array F -> array F -> array2 F -> array2 F -> result (array2 F).
Variable OrdinaryKriging : string -> array F -> array F -> array F -> array F -> array F -> result (array2 F).
Variable UniversalKriging : string -> array F -> array F -> array F -> array F -> array F -> result (array2 F).
Local Open Scope string_scope.

Local Abbreviation interpolate' :=
  (interpolate KRIGING_AVAILABLE Rbf griddata OrdinaryKriging UniversalKriging).
Local Abbreviation dispatch' :=
  (dispatch KRIGING_AVAILABLE Rbf griddata OrdinaryKriging UniversalKriging).

Lemma dispatch_as_idw (self : InterpolationEngine) (x y z xi yi : array F)
    (XI YI : array2 F) :
  dispatch' (as_idw self) x y z xi yi XI YI = ret (_idw self x y z XI YI).
Proof.
  reflexivity.
Qed.

(** When the dispatch of an engine warns [w] and returns the IDW grid,
    the whole call is the call of the IDW engine with that warning. *)
Lemma interpolate_when_dispatch_falls_back (self : InterpolationEngine)
    (x y z : array F) (res : Z) bounds (w : string) :
  (forall x' y' z' xi yi,
      dispatch' self x' y' z' xi yi
        (fst (np_meshgrid xi yi)) (snd (np_meshgrid xi yi))
      = Outcome [w]
          (Ok (_idw self x' y' z'
                 (fst (np_meshgrid xi yi)) (snd (np_meshgrid xi yi))))) ->
  interpolate' self x y z res bounds =
  match returned (interpolate' (as_idw self) x y z res bounds) with
  | Ok g => Outcome [w] (Ok g)
  | Raise e => Outcome [] (Raise e)
  end.
Proof.
  intros H. unfold interpolate.
  destruct (length x <? 3)%nat; [reflexivity|].
  destruct (valid_mask x y z) as [m|e0]; [|reflexivity].
  rewrite !bind_lift_Ok.
  destruct (mask_index x m) as [x'|e0]; [|reflexivity]. rewrite !bind_lift_Ok.
  destruct (mask_index y m) as [y'|e0]; [|reflexivity]. rewrite !bind_lift_Ok.
  destruct (mask_index z m) as [z'|e0]; [|reflexivity]. rewrite !bind_lift_Ok.
  destruct (match bounds with None => data_bounds x' y' | Some b => Ok b end)
    as [[[[min_x min_y] max_x] max_y]|e0]; [|reflexivity].
  rewrite !bind_lift_Ok.
  destruct (np_linspace min_x max_x res) as [xi|e0]; [|reflexivity].
  rewrite !bind_lift_Ok.
  destruct (np_linspace min_y max_y res) as [yi|e0]; [|reflexivity].
  rewrite !bind_lift_Ok.
  specialize (H x' y' z' xi yi).
  destruct (np_meshgrid xi yi) as [XI YI]. cbn [fst snd] in H.
  rewrite dispatch_as_idw, H. reflexivity.
Qed.

Lemma prefix_kriging_not_idw (m : string) :
  String.prefix "kriging" m = true -> String.eqb m "idw" = false.
Proof.
  intros H. apply String.prefix_correct in H.
  destruct m as [|c m]; cbn in H; [discriminate H|].
  injection H as Hc _. subst c. reflexivity.
Qed.

End Fallback.

(** X4.  Seen from [interpolate]: when the RBF provider raises [e] on
    every call, an engine with an [rbf...] method returns exactly what
    the engine with the same parameters and the method [idw] returns on
    the same input, with the one warning added; when that IDW call
    raises, the RBF call raises the same error and warns nothing. *)
Theorem interpolate_rbf_failure_is_idw (F : Type) (N : Num F) (KA : bool)
    (Rbf : string -> F -> array F -> array F -> array F -> array2 F -> array2 F
           -> result (array2 F))
    (griddata : string -> array F -> array F -> array F -> array2 F -> array2 F
                -> result (array2 F))
    (OK UK : string -> array F -> array F -> array F -> array F -> array F
             -> result (array2 F))
    (self : InterpolationEngine (F:=F)) (x y z : array F) (res : Z) bounds
    (e : exn) :
  String.prefix "rbf" (method self) = true ->
  (forall f s a b c A B, Rbf f s a b c A B = Raise e) ->
  interpolate KA Rbf griddata OK UK self x y z res bounds =
  match returned (interpolate KA Rbf griddata OK UK (as_idw self) x y z res bounds) with
  | Ok g => Outcome [("RBF interpolation failed: " ++ exn_str e
                      ++ ". Falling back to IDW.")%string] (Ok g)
  | Raise e' => Outcome [] (Raise e')
  end.
Proof.
  intros Hp Hfail. apply interpolate_when_dispatch_falls_back.
  intros x' y' z' xi yi. unfold dispatch.
  destruct (prefix_rbf_not_idw_nor_kriging _ Hp) as [E1 E2].
  rewrite E1, E2, Hp. unfold _rbf. rewrite Hfail. reflexivity.
Qed.

(** A run of [interpolate_rbf_failure_is_idw]: three sources, a solver
    that reports a singular matrix. *)
Lemma interpolate_rbf_failure_is_idw_witness :
  let N64 := Binary64.Float64 Binary64.no_libm in
  interpolate (N:=N64) false (failing7 "Matrix is singular.") (failing6 "unused")
    (failing6 "unused") (failing6 "unused")
    (Engine "rbf_gaussian" 2%float 0%float "gaussian" 0%float)
    [0; 1; 0]%float [0; 0; 1]%float [1; 2; 3]%float 2 None
  = Outcome ["RBF interpolation failed: Matrix is singular.. Falling back to IDW."%string]
      (Ok ([[-0.05; 1.05]; [-0.05; 1.05]]%float,
           [[-0.05; -0.05]; [1.05; 1.05]]%float,
           [[1.0134529147982063; 1.9977579160849137];
            [2.9887590065529999; 2.1994560290117859]]%float)).
Proof.
  cbv zeta.
  rewrite (@interpolate_rbf_failure_is_idw float
             (Binary64.Float64 Binary64.no_libm) false
             (failing7 "Matrix is singular.") (failing6 "unused")
             (failing6 "unused") (failing6 "unused")
             (Engine "rbf_gaussian" 2%float 0%float "gaussian" 0%float)
             [0; 1; 0]%float [0; 0; 1]%float [1; 2; 3]%float 2 None
             (LibraryError "Matrix is singular.") eq_refl
             (fun _ _ _ _ _ _ _ => eq_refl)).
  vm_compute. reflexivity.
Defined.

(** X5.  The same for kriging.  With PyKrige available, when both
    kriging providers raise [e] on every call, an engine with a
    [kriging...] method returns exactly what the IDW engine with the same
    parameters returns, with the one warning added: the grid that
    [_kriging] rebuilds from [xi] and [yi] is the grid of the call. *)
Theorem interpolate_kriging_failure_is_idw (F : Type) (N : Num F)
    (Rbf : string -> F -> array F -> array F -> array F -> array2 F -> array2 F
           -> result (array2 F))
    (griddata : string -> array F -> array F -> array F -> array2 F -> array2 F
                -> result (array2 F))
    (OK UK : string -> array F -> array F -> array F -> array F -> array F
             -> result (array2 F))
    (self : InterpolationEngine (F:=F)) (x y z : array F) (res : Z) bounds
    (e : exn) :
  String.prefix "kriging" (method self) = true ->
  (forall v a b c xi yi, OK v a b c xi yi = Raise e) ->
  (forall v a b c xi yi, UK v a b c xi yi = Raise e) ->
  interpolate true Rbf griddata OK UK self x y z res bounds =
  match returned (interpolate true Rbf griddata OK UK (as_idw self) x y z res bounds) with
  | Ok g => Outcome [("Kriging failed: " ++ exn_str e
                      ++ ". Falling back to IDW.")%string] (Ok g)
  | Raise e' => Outcome [] (Raise e')
  end.
Proof.
  intros Hp HOK HUK. apply interpolate_when_dispatch_falls_back.
  intros x' y' z' xi yi. unfold dispatch.
  rewrite (prefix_kriging_not_idw _ Hp), Hp. unfold _kriging. cbn [negb].
  destruct (String.eqb (method self) "kriging_ordinary");
    rewrite ?HOK, ?HUK; cbn [try_except];
    destruct (np_meshgrid xi yi) as [XI YI]; reflexivity.
Qed.

(** A run of [interpolate_kriging_failure_is_idw]: universal kriging
    whose fit does not converge. *)
Lemma interpolate_kriging_failure_is_idw_witness :
  let N64 := Binary64.Float64 Binary64.no_libm in
  interpolate (N:=N64) true (failing7 "unused") (failing6 "unused")
    (failing6 "no convergence") (failing6 "no convergence")
    (Engine "kriging_universal" 2%float 0%float "gaussian" 0%float)
    [0; 1; 0]%float [0; 0; 1]%float [1; 2; 3]%float 2 None
  = Outcome ["Kriging failed: no convergence. Falling back to IDW."%string]
      (Ok ([[-0.05; 1.05]; [-0.05; 1.05]]%float,
           [[-0.05; -0.05]; [1.05; 1.05]]%float,
           [[1.0134529147982063; 1.9977579160849137];
            [2.9887590065529999; 2.1994560290117859]]%float)).
Proof.
  cbv zeta.
  rewrite (@interpolate_kriging_failure_is_idw float
             (Binary64.Float64 Binary64.no_libm)
             (failing7 "unused") (failing6 "unused")
             (failing6 "no convergence") (failing6 "no convergence")
             (Engine "kriging_universal" 2%float 0%float "gaussian" 0%float)
             [0; 1; 0]%float [0; 0; 1]%float [1; 2; 3]%float 2 None
             (LibraryError "no convergence") eq_refl
             (fun _ _ _ _ _ _ => eq_refl) (fun _ _ _ _ _ _ => eq_refl)).
  vm_compute. reflexivity.
Defined.

(* ================================================================== *)
(** ** Further properties: [griddata] methods *)

Section Griddata.
Context {F : Type} {N : Num F}.
Variable KRIGING_AVAILABLE : bool.
Variable Rbf : string -> F -> array F -> array F -> array F -> array2 F -> array2 F -> result (array2 F).
Variable griddata : string -> array F -> array F -> array F -> array2 F -> array2 F -> result (array2 F).
Variable OrdinaryKriging : string -> array F -> array F -> array F -> array F -> array F -> result (array2 F).
Variable UniversalKriging : string -> array F -> array F -> array F -> array F -> array F -> result (array2 F).
Local Open Scope string_scope.


End Griddata.



(* ================================================================== *)
(** ** Further properties: the IDW method seen from [interpolate] *)

Section IdwCall.
Context {F : Type} {N : Num F}.
Variable KRIGING_AVAILABLE : bool.
Variable Rbf : string -> F -> array F -> array F -> array F -> array2 F -> array2 F -> result (array2 F).
Variable griddata : string -> array F -> array F -> array F -> array2 F -> array2 F -> result (array2 F).
Variable OrdinaryKriging : string -> array F -> array F -> array F -> array F -> array F -> result (array2 F).
Variable UniversalKriging : string -> array F -> array F -> array F -> array F -> array F -> result (array2 F).
Local Open Scope string_scope.

Local Abbreviation interpolate' :=
  (interpolate KRIGING_AVAILABLE Rbf griddata OrdinaryKriging UniversalKriging).
Local Abbreviation dispatch' :=
  (dispatch KRIGING_AVAILABLE Rbf griddata OrdinaryKriging UniversalKriging).

Lemma dispatch_idw (self : InterpolationEngine) (x y z xi yi : array F)
    (XI YI : array2 F) :
  method self = "idw" ->
  dispatch' self x y z xi yi XI YI = ret (_idw self x y z XI YI).
Proof. intros H. unfold dispatch. now rewrite H. Qed.

Lemma np_linspace_nonneg (start stop : F) (num : Z) :
  (0 <= num)%Z -> exists xi, np_linspace start stop num = Ok xi.
Proof.
  intros H. unfold np_linspace.
  assert (E : (num <? 0)%Z = false) by (apply Z.ltb_ge; lia).
  rewrite E. eexists. reflexivity.
Qed.

Lemma np_linspace_negative (start stop : F) (num : Z) :
  (num < 0)%Z ->
  np_linspace start stop num
  = Raise (ValueError ("Number of samples, " ++ str_int num
                       ++ ", must be non-negative.")).
Proof.
  intros H. unfold np_linspace.
  assert (E : (num <? 0)%Z = true) by (apply Z.ltb_lt; lia).
  now rewrite E.
Qed.

Lemma data_bounds_nonempty (x y : array F) :
  x <> [] -> y <> [] -> exists b, data_bounds x y = Ok b.
Proof.
  destruct x as [|a x]; [congruence|]. destruct y as [|b y]; [congruence|].
  intros _ _. unfold data_bounds. cbn [np_min np_max]. eexists. reflexivity.
Qed.

Lemma data_bounds_empty (x y : array F) :
  x = [] -> data_bounds x y = Raise (zero_size "minimum").
Proof. intros ->. reflexivity. Qed.

(** The bounds step of a call, on the cleaned arrays. *)
Lemma bounds_step (x y z : array F) (bounds : option (F * F * F * F)) :
  length y = length x -> length z = length x ->
  (bounds = None -> fst (fst (cleaned x y z)) <> []) ->
  exists b,
    match bounds with
    | None => data_bounds (fst (fst (cleaned x y z))) (snd (fst (cleaned x y z)))
    | Some b => Ok b
    end = Ok b.
Proof.
  intros Hy Hz Hne. destruct bounds as [b|]; [eexists; reflexivity|].
  pose proof (cleaned_spec x y z Hy Hz) as Hs.
  destruct (cleaned x y z) as [[x' y'] z']. cbn [fst snd] in *.
  destruct Hs as (_ & Ly & _).
  apply data_bounds_nonempty; [now apply Hne|].
  intros E. rewrite E in Ly. cbn in Ly.
  apply Hne; [reflexivity|]. destruct x'; [reflexivity|discriminate].
Qed.

End IdwCall.

(** X7.  When an IDW call succeeds.  For input arrays of one length
    the call of an [idw] engine returns a grid exactly when there are at
    least three input points, the resolution is not negative, and either
    bounds are supplied or at least one source is left after
    cleaning. *)
Theorem interpolate_idw_returns_iff (F : Type) (N : Num F) (KA : bool)
    (Rbf : string -> F -> array F -> array F -> array F -> array2 F -> array2 F
           -> result (array2 F))
    (griddata : string -> array F -> array F -> array F -> array2 F -> array2 F
                -> result (array2 F))
    (OK UK : string -> array F -> array F -> array F -> array F -> array F
             -> result (array2 F))
    (self : InterpolationEngine (F:=F)) (x y z : array F) (res : Z) bounds :
  method self = "idw"%string ->
  length y = length x -> length z = length x ->
  let r := interpolate KA Rbf griddata OK UK self x y z res bounds in
  (exists g, returned r = Ok g)
  <-> ((3 <= length x)%nat /\ (0 <= res)%Z
       /\ (bounds = None -> fst (fst (cleaned x y z)) <> [])).
Proof.
  intros Hm Hy Hz r. split.
  - intros ([[XI YI] ZI] & H).
    destruct (interpolate_returns _ _ _ _ _ _ _ _ _ _ _ Hy Hz H)
      as (Hn & x' & y' & z' & min_x & min_y & max_x & max_y & xi & yi
          & Hc & Hb & Hxi & _).
    split; [assumption|]. split.
    + now destruct (np_linspace_length _ _ _ Hxi).
    + intros -> E. rewrite Hc in E. cbn in E. subst x'. discriminate Hb.
  - intros (Hn & Hres & Hb).
    destruct (@bounds_step F N x y z bounds Hy Hz Hb)
      as ([[[min_x min_y] max_x] max_y] & Eb).
    destruct (cleaned x y z) as [[x' y'] z'] eqn:Hc. cbn [fst snd] in Eb.
    destruct (@np_linspace_nonneg F N min_x max_x res Hres) as [xi Hxi].
    destruct (@np_linspace_nonneg F N min_y max_y res Hres) as [yi Hyi].
    unfold r.
    rewrite (@interpolate_steps F N KA Rbf griddata OK UK self x y z res bounds
               x' y' z' min_x min_y max_x max_y xi yi
               Hn Hy Hz Hc Eb Hxi Hyi).
    destruct (np_meshgrid xi yi) as [XI YI].
    rewrite dispatch_idw by assumption. cbn. eauto.
Qed.

(** A run of [interpolate_idw_returns_iff]: three sources, resolution
    2, no bounds. *)
Lemma interpolate_idw_returns_iff_witness :
  let N64 := Binary64.Float64 Binary64.no_libm in
  exists g,
    returned (interpolate (N:=N64) false (failing7 "unused") (failing6 "unused")
                (failing6 "unused") (failing6 "unused") default_idw
                [0; 1; 0]%float [0; 0; 1]%float [1; 2; 3]%float 2 None)
    = Ok g.
Proof.
  cbv zeta.
  destruct (@interpolate_idw_returns_iff float
              (Binary64.Float64 Binary64.no_libm) false
              (failing7 "unused") (failing6 "unused")
              (failing6 "unused") (failing6 "unused")
              (default_idw (N:=Binary64.Float64 Binary64.no_libm))
              [0; 1; 0]%float [0; 0; 1]%float [1; 2; 3]%float 2 None
              eq_refl eq_refl eq_refl) as (_ & H).
  apply H. split; [cbn; lia|]. split; [lia|].
  intros _. vm_compute. discriminate.
Defined.

Section Meshes.
Context {F : Type} {N : Num F}.

Lemma np_meshgrid_cells (xi yi : array F) (XI YI : array2 F) (i j : nat) (d : F) :
  np_meshgrid xi yi = (XI, YI) ->
  (i < length yi)%nat -> (j < length xi)%nat ->
  nth i XI [] = xi
  /\ length (nth i YI []) = length xi
  /\ cell XI i j d = nth j xi d
  /\ cell YI i j d = nth i yi d.
Proof.
  unfold np_meshgrid, cell. intros H Hi Hj. injection H as <- <-.
  rewrite (map_nth_in _ _ [] d) by assumption.
  rewrite (map_nth_in _ _ [] d) by assumption.
  rewrite length_map. repeat split.
  now rewrite (map_nth_in _ _ d d).
Qed.

Lemma idw_cells (self : InterpolationEngine) (x y z xi yi : array F)
    (XI YI : array2 F) (i j : nat) (d : F) :
  np_meshgrid xi yi = (XI, YI) ->
  (i < length yi)%nat -> (j < length xi)%nat ->
  length (_idw self x y z XI YI) = length yi
  /\ length (nth i (_idw self x y z XI YI) []) = length xi
  /\ cell (_idw self x y z XI YI) i j d
     = idw_cell self x y z (nth j xi d) (nth i yi d).
Proof.
  intros H Hi Hj.
  destruct (@np_meshgrid_cells xi yi XI YI i j d H Hi Hj) as (HX & HY & _ & HYc).
  destruct (np_meshgrid_rows H) as (LX & LY & _ & HYrow).
  unfold _idw, cell in *. rewrite zip_with_length, LX, LY, Nat.min_id.
  rewrite (zip_with_nth _ _ _ [] [] []) by lia.
  rewrite HX, zip_with_length, HY, Nat.min_id.
  repeat split.
  rewrite (zip_with_nth _ _ _ d d d) by lia. now rewrite HYc.
Qed.

End Meshes.

(** X8.  The layout of an IDW result.  For input arrays of one length,
    the three arrays that an [idw] call returns have [grid_resolution]
    rows of [grid_resolution] entries; row [i], column [j] holds the
    x-coordinate [xi[j]] in [XI], the y-coordinate [yi[i]] in [YI], and
    in [ZI] the estimate of [_idw] from the cleaned sources at the point
    [(xi[j], yi[i])]. *)
Theorem interpolate_idw_layout (F : Type) (N : Num F) (KA : bool)
    (Rbf : string -> F -> array F -> array F -> array F -> array2 F -> array2 F
           -> result (array2 F))
    (griddata : string -> array F -> array F -> array F -> array2 F -> array2 F
                -> result (array2 F))
    (OK UK : string -> array F -> array F -> array F -> array F -> array F
             -> result (array2 F))
    (self : InterpolationEngine (F:=F)) (x y z : array F) (res : Z) bounds
    (XI YI ZI : array2 F) (d : F) :
  method self = "idw"%string ->
  length y = length x -> length z = length x ->
  returned (interpolate KA Rbf griddata OK UK self x y z res bounds)
    = Ok (XI, YI, ZI) ->
  let n := Z.to_nat res in
  exists x' y' z' xi yi,
    cleaned x y z = (x', y', z')
    /\ length xi = n /\ length yi = n
    /\ length XI = n /\ length YI = n /\ length ZI = n
    /\ forall i j, (i < n)%nat -> (j < n)%nat ->
         length (nth i XI []) = n
         /\ length (nth i YI []) = n
         /\ length (nth i ZI []) = n
         /\ cell XI i j d = nth j xi d
         /\ cell YI i j d = nth i yi d
         /\ cell ZI i j d = idw_cell self x' y' z' (nth j xi d) (nth i yi d).
Proof.
  intros Hm Hy Hz H n.
  destruct (interpolate_returns _ _ _ _ _ _ _ _ _ _ _ Hy Hz H)
    as (_ & x' & y' & z' & min_x & min_y & max_x & max_y & xi & yi
        & Hc & _ & Hxi & Hyi & Hmesh & Hd).
  rewrite dispatch_idw in Hd by assumption. cbn in Hd. injection Hd as <-.
  destruct (np_linspace_length _ _ _ Hxi) as [_ Lx].
  destruct (np_linspace_length _ _ _ Hyi) as [_ Ly].
  destruct (np_meshgrid_rows Hmesh) as (LX & LY & _ & _).
  exists x', y', z', xi, yi. fold n in Lx, Ly.
  split; [exact Hc|]. split; [exact Lx|]. split; [exact Ly|].
  split; [congruence|]. split; [congruence|].
  split; [unfold _idw; rewrite zip_with_length; lia|].
  intros i j Hi Hj.
  destruct (@np_meshgrid_cells F xi yi XI YI i j d Hmesh)
    as (E1 & E2 & E3 & E4); [lia|lia|].
  destruct (@idw_cells F N self x' y' z' xi yi XI YI i j d Hmesh)
    as (_ & E5 & E6); [lia|lia|].
  rewrite E1. repeat split; congruence.
Qed.

(** A run of [interpolate_idw_layout]: the 2 by 2 grid of three
    sources; the entry in row 1, column 0 of [ZI] is the estimate at
    [(xi[0], yi[1])]. *)
Lemma interpolate_idw_layout_witness :
  let N64 := Binary64.Float64 Binary64.no_libm in
  let ZI := [[1.0134529147982063; 1.9977579160849137];
             [2.9887590065529999; 2.1994560290117859]]%float in
  exists x' y' z' xi yi,
    cleaned (N:=N64) [0; 1; 0]%float [0; 0; 1]%float [1; 2; 3]%float = (x', y', z')
    /\ length ZI = 2%nat
    /\ cell ZI 1 0 0%float
       = idw_cell (N:=N64) default_idw x' y' z' (nth 0 xi 0%float) (nth 1 yi 0%float).
Proof.
  cbv zeta.
  destruct (@interpolate_idw_layout float
              (Binary64.Float64 Binary64.no_libm) false
              (failing7 "unused") (failing6 "unused")
              (failing6 "unused") (failing6 "unused")
              (default_idw (N:=Binary64.Float64 Binary64.no_libm))
              [0; 1; 0]%float [0; 0; 1]%float [1; 2; 3]%float 2%Z None
              [[-0.05; 1.05]; [-0.05; 1.05]]%float
              [[-0.05; -0.05]; [1.05; 1.05]]%float
              [[1.0134529147982063; 1.9977579160849137];
               [2.9887590065529999; 2.1994560290117859]]%float
              0%float eq_refl eq_refl eq_refl)
    as (x' & y' & z' & xi & yi & Hc & _ & _ & _ & _ & HZ & Hcell).
  - vm_compute. reflexivity.
  - exists x', y', z', xi, yi. split; [exact Hc|]. split; [exact HZ|].
    apply (Hcell 1%nat 0%nat); cbn; lia.
Defined.

(** X9.  The resolution at its edges.  For at least three input points
    of one length whose bounds can be formed, a negative resolution
    raises numpy's [ValueError] for the number of samples, which quotes
    the resolution, whatever the method, and the resolution 0 makes an
    [idw] engine return three empty arrays. *)
Theorem interpolate_resolution_edges (F : Type) (N : Num F) (KA : bool)
    (Rbf : string -> F -> array F -> array F -> array F -> array2 F -> array2 F
           -> result (array2 F))
    (griddata : string -> array F -> array F -> array F -> array2 F -> array2 F
                -> result (array2 F))
    (OK UK : string -> array F -> array F -> array F -> array F -> array F
             -> result (array2 F))
    (self : InterpolationEngine (F:=F)) (x y z : array F) (res : Z) bounds :
  (3 <= length x)%nat -> length y = length x -> length z = length x ->
  (bounds = None -> fst (fst (cleaned x y z)) <> []) ->
  ((res < 0)%Z ->
     returned (interpolate KA Rbf griddata OK UK self x y z res bounds)
     = Raise (ValueError ("Number of samples, " ++ str_int res
                          ++ ", must be non-negative.")%string))
  /\ (res = 0%Z -> method self = "idw"%string ->
      returned (interpolate KA Rbf griddata OK UK self x y z res bounds)
      = Ok ([], [], [])).
Proof.
  intros Hn Hy Hz Hb.
  destruct (@bounds_step F N x y z bounds Hy Hz Hb)
    as ([[[min_x min_y] max_x] max_y] & Eb).
  rewrite interpolate_cleaned by assumption.
  destruct (cleaned x y z) as [[x' y'] z']. cbn [fst snd] in Eb.
  rewrite Eb, bind_lift_Ok. split.
  - intros Hneg. now rewrite np_linspace_negative.
  - intros -> Hm.
    change (np_linspace min_x max_x 0) with (@Ok (array F) []).
    change (np_linspace min_y max_y 0) with (@Ok (array F) []).
    rewrite !bind_lift_Ok. cbn [np_meshgrid map].
    now rewrite dispatch_idw by assumption.
Qed.

(** A run of [interpolate_resolution_edges]: resolution -1 on three
    sources. *)
Lemma interpolate_resolution_edges_witness :
  let N64 := Binary64.Float64 Binary64.no_libm in
  returned (interpolate (N:=N64) false (failing7 "unused") (failing6 "unused")
              (failing6 "unused") (failing6 "unused") default_idw
              [0; 1; 0]%float [0; 0; 1]%float [1; 2; 3]%float (-1) None)
  = Raise (ValueError "Number of samples, -1, must be non-negative.").
Proof.
  cbv zeta.
  destruct (@interpolate_resolution_edges float
              (Binary64.Float64 Binary64.no_libm) false
              (failing7 "unused") (failing6 "unused")
              (failing6 "unused") (failing6 "unused")
              (default_idw (N:=Binary64.Float64 Binary64.no_libm))
              [0; 1; 0]%float [0; 0; 1]%float [1; 2; 3]%float (-1)%Z None)
    as [H _].
  - cbn. lia.
  - reflexivity.
  - reflexivity.
  - intros _. vm_compute. discriminate.
  - apply H. lia.
Defined.

Section AllNaN.
Context {F : Type} {N : Num F}.

Lemma cleaned_all_removed (x y z : array F) :
  length y = length x -> length z = length x ->
  filter nan_free (triples x y z) = [] ->
  cleaned x y z = ([], [], []).
Proof.
  intros Hy Hz Hf.
  pose proof (cleaned_spec x y z Hy Hz) as Hs.
  destruct (cleaned x y z) as [[x' y'] z'].
  destruct Hs as (Ht & Ly & Lz & _). rewrite Hf in Ht.
  destruct x' as [|a x']; destruct y' as [|b y']; destruct z' as [|c z'];
    try discriminate; reflexivity.
Qed.

End AllNaN.

(** X10.  When every source has a NaN coordinate.  Three input points
    or more pass the guard even when each of them has a NaN among its
    three coordinates; nothing is left after cleaning.  Without bounds
    the call then raises numpy's error for the minimum of an empty
    array, whatever the method.  With bounds and a resolution that is
    not negative, an [idw] engine returns a grid, in binary64, and every
    value of it is NaN: the quotient of two empty sums. *)
Theorem interpolate_all_sources_nan (libm_pow : float -> float -> float) (KA : bool)
    (Rbf : string -> float -> array float -> array float -> array float ->
           array2 float -> array2 float -> result (array2 float))
    (griddata : string -> array float -> array float -> array float ->
                array2 float -> array2 float -> result (array2 float))
    (OK UK : string -> array float -> array float -> array float ->
             array float -> array float -> result (array2 float))
    (self : InterpolationEngine (F:=float)) (x y z : array float) (res : Z)
    (b : float * float * float * float) :
  let N64 := Binary64.Float64 libm_pow in
  (3 <= length x)%nat -> length y = length x -> length z = length x ->
  filter (nan_free (N:=N64)) (triples x y z) = [] ->
  interpolate (N:=N64) KA Rbf griddata OK UK self x y z res None
  = Outcome []
      (Raise (ValueError
         "zero-size array to reduction operation minimum which has no identity"))
  /\ ((0 <= res)%Z -> method self = "idw"%string ->
      exists XI YI ZI,
        returned (interpolate (N:=N64) KA Rbf griddata OK UK self x y z res (Some b))
        = Ok (XI, YI, ZI)
        /\ forall row, In row ZI -> forall v, In v row -> PrimFloat.is_nan v = true).
Proof.
  intros N64 Hn Hy Hz Hf.
  pose proof (cleaned_all_removed x y z Hy Hz Hf) as Hc.
  split.
  - rewrite interpolate_cleaned by assumption. rewrite Hc. reflexivity.
  - intros Hres Hm. destruct b as [[[min_x min_y] max_x] max_y].
    destruct (@np_linspace_nonneg float N64 min_x max_x res Hres) as [xi Hxi].
    destruct (@np_linspace_nonneg float N64 min_y max_y res Hres) as [yi Hyi].
    rewrite (@interpolate_steps float N64 KA Rbf griddata OK UK self x y z res
               (Some (min_x, min_y, max_x, max_y))
               [] [] [] min_x min_y max_x max_y xi yi
               Hn Hy Hz Hc eq_refl Hxi Hyi).
    destruct (np_meshgrid xi yi) as [XI YI].
    rewrite dispatch_idw by assumption. cbn [ret warned returned].
    do 3 eexists. split; [reflexivity|].
    intros row Hrow v Hv. unfold _idw in Hrow.
    apply zip_with_In in Hrow. destruct Hrow as (XIi & YIi & _ & _ & ->).
    apply zip_with_In in Hv. destruct Hv as (gx & gy & _ & _ & ->).
    reflexivity.
Qed.

(** A run of [interpolate_all_sources_nan]: three sources, each with a
    NaN, bounds [(0, 0, 1, 1)], resolution 2. *)
Lemma interpolate_all_sources_nan_witness :
  let N64 := Binary64.Float64 Binary64.no_libm in
  exists XI YI ZI,
    returned
      (interpolate (N:=N64) false (failing7 "unused") (failing6 "unused")
         (failing6 "unused") (failing6 "unused") default_idw
         [nan; 1; 0]%float [0; nan; 1]%float [1; 2; nan]%float 2
         (Some (0, 0, 1, 1)%float))
    = Ok (XI, YI, ZI)
    /\ forall row, In row ZI -> forall v, In v row -> PrimFloat.is_nan v = true.
Proof.
  cbv zeta.
  destruct (@interpolate_all_sources_nan Binary64.no_libm false
              (failing7 "unused") (failing6 "unused")
              (failing6 "unused") (failing6 "unused")
              (default_idw (N:=Binary64.Float64 Binary64.no_libm))
              [nan; 1; 0]%float [0; nan; 1]%float [1; 2; nan]%float 2%Z
              (0, 0, 1, 1)%float) as [_ H].
  - cbn. lia.
  - reflexivity.
  - reflexivity.
  - vm_compute. reflexivity.
  - apply H; [lia|reflexivity].
Defined.

(* ================================================================== *)
(** ** Further properties: the extrapolation mask *)

Section MaskMore.
Context {F : Type} {N : Num F} {NaN : HasNaN F}.
Local Open Scope num_scope.

Lemma zip_with_idempotent {A B} (f : A -> B -> B) (a : list A) (b : list B) :
  (forall u v, f u (f u v) = f u v) ->
  zip_with f a (zip_with f a b) = zip_with f a b.
Proof.
  intros H. revert b. induction a as [|u a IH]; intros [|v b]; auto.
  rewrite !zip_with_cons. now rewrite H, IH.
Qed.

(** Two elementwise results over the same arguments are related entry
    by entry when the two functions are. *)
Lemma zip_with_related {A B C} (R : C -> C -> Prop) (f g : A -> B -> C)
    (a : list A) (b : list B) (d : C) (k : nat) :
  R d d -> (forall u v, R (f u v) (g u v)) ->
  R (nth k (zip_with f a b) d) (nth k (zip_with g a b) d).
Proof.
  intros Hd H. revert b k. induction a as [|u a IH]; intros [|v b] [|k];
    try (destruct k; exact Hd); try exact Hd.
  - rewrite !zip_with_cons. cbn [nth]. apply H.
  - rewrite !zip_with_cons. cbn [nth]. apply IH.
Qed.

Lemma shape_nth {A B} (X : list (list A)) (Y : list (list B)) (i : nat) :
  shape Y = shape X ->
  length Y = length X /\ length (nth i Y []) = length (nth i X []).
Proof.
  unfold shape. intros H. split.
  - apply (f_equal (@length nat)) in H. now rewrite !length_map in H.
  - apply (f_equal (fun l => nth i l 0%nat)) in H.
    now rewrite !(map_nth (@length _) _ []) in H.
Qed.

(** The value of one cell of the masked grid. *)
Lemma mask_cell_value (XI YI ZI M : array2 F) (s0 : F * F) (S : list (F * F))
    (max_distance : F) (i j : nat) (d : F) :
  shape YI = shape XI -> shape ZI = shape XI ->
  mask_extrapolation_regions XI YI ZI (s0 :: S) max_distance = Ok M ->
  (i < length ZI)%nat -> (j < length (nth i ZI []))%nat ->
  cell M i j d
  = if min_distance s0 S (cell XI i j d, cell YI i j d) <? max_distance
    then cell ZI i j d else Fnan.
Proof.
  intros HY HZ H Hi Hj. rewrite mask_cellwise in H by assumption.
  injection H as <-. unfold cell.
  destruct (@shape_nth _ _ XI YI i HY) as [LY LYi].
  destruct (@shape_nth _ _ XI ZI i HZ) as [LZ LZi].
  assert (LG : length (zip_with (@combine F F) XI YI) = length XI)
    by (rewrite zip_with_length; lia).
  rewrite (zip_with_nth _ _ _ [] [] []) by lia.
  rewrite (zip_with_nth _ _ _ [] [] []) by lia.
  assert (LGi : length (combine (nth i XI []) (nth i YI [])) = length (nth i XI []))
    by (rewrite length_combine; lia).
  rewrite (zip_with_nth _ _ _ (d, d) d d) by lia.
  now rewrite combine_nth by lia.
Qed.

End MaskMore.

(** X11.  Masking is idempotent: masking the result of a mask again,
    with the same grid coordinates, samples and threshold, returns it
    unchanged. *)
Theorem mask_idempotent (F : Type) (N : Num F) (NaN : HasNaN F)
    (XI YI ZI M : array2 F) (sample_points : list (F * F)) (max_distance : F) :
  shape YI = shape XI ->
  mask_extrapolation_regions XI YI ZI sample_points max_distance = Ok M ->
  mask_extrapolation_regions XI YI M sample_points max_distance = Ok M.
Proof.
  intros HY H. destruct sample_points as [|s0 S]; [discriminate|].
  rewrite mask_cellwise in * by assumption. injection H as <-. f_equal.
  apply zip_with_idempotent. intros r q.
  apply zip_with_idempotent. intros u v.
  now destruct (Fltb (min_distance s0 S u) max_distance).
Qed.

(** A run of [mask_idempotent] on a row of three cells. *)
Lemma mask_idempotent_witness :
  mask_extrapolation_regions (N:=Binary64.Float64 Binary64.no_libm)
    (NaN:=Binary64.Float64_nan)
    [[0; 1; 2]]%float [[0; 0; 0]]%float [[5; nan; nan]]%float
    [(0, 0)%float] 1%float
  = Ok [[5; nan; nan]]%float.
Proof.
  apply (@mask_idempotent float (Binary64.Float64 Binary64.no_libm)
           Binary64.Float64_nan
           [[0; 1; 2]]%float [[0; 0; 0]]%float [[5; 6; 7]]%float).
  - reflexivity.
  - vm_compute. reflexivity.
Defined.

(** X12.  Masking is monotone in the threshold, in binary64: when
    [t1 <= t2], every cell that is NaN under the threshold [t2] is NaN
    under the threshold [t1], so raising the threshold never adds a
    masked cell. *)
Theorem mask_monotone_in_threshold (libm_pow : float -> float -> float)
    (XI YI ZI M1 M2 : array2 float) (sample_points : list (float * float))
    (t1 t2 : float) (i j : nat) :
  let N64 := Binary64.Float64 libm_pow in
  shape YI = shape XI ->
  PrimFloat.leb t1 t2 = true ->
  mask_extrapolation_regions (N:=N64) (NaN:=Binary64.Float64_nan)
    XI YI ZI sample_points t1 = Ok M1 ->
  mask_extrapolation_regions (N:=N64) (NaN:=Binary64.Float64_nan)
    XI YI ZI sample_points t2 = Ok M2 ->
  PrimFloat.is_nan (cell M2 i j 0%float) = true ->
  PrimFloat.is_nan (cell M1 i j 0%float) = true.
Proof.
  intros N64 HY Hle H1 H2.
  destruct sample_points as [|s0 S]; [discriminate|].
  rewrite mask_cellwise in H1, H2 by assumption.
  injection H1 as <-. injection H2 as <-. unfold cell.
  apply (zip_with_related
           (fun r2 r1 : list float =>
              PrimFloat.is_nan (nth j r2 0%float) = true ->
              PrimFloat.is_nan (nth j r1 0%float) = true)).
  - auto.
  - intros r q.
    apply (zip_with_related
             (fun m2 m1 : float =>
                PrimFloat.is_nan m2 = true -> PrimFloat.is_nan m1 = true)).
    + auto.
    + intros u v. cbn [Fltb N64 Binary64.Float64 Fnan Binary64.Float64_nan].
      destruct (PrimFloat.ltb (min_distance s0 S u) t1) eqn:E1; [|reflexivity].
      assert (E2 : PrimFloat.ltb (min_distance s0 S u) t2 = true)
        by (apply flt_fle_trans with t1; assumption).
      now rewrite E2.
Qed.

(** A run of [mask_monotone_in_threshold]: thresholds 1 and 3 on a row
    of three cells; the cell at distance 2 is masked under both. *)
Lemma mask_monotone_in_threshold_witness :
  PrimFloat.is_nan (cell [[5; nan; nan]]%float 0 2 0%float) = true.
Proof.
  apply (@mask_monotone_in_threshold Binary64.no_libm
           [[0; 1; 4]]%float [[0; 0; 0]]%float [[5; 6; 7]]%float
           [[5; nan; nan]]%float [[5; 6; nan]]%float
           [(0, 0)%float] 1%float 3%float 0%nat 2%nat);
    vm_compute; reflexivity.
Defined.

(** X13.  What the mask returns, in binary64.  An empty sample set
    raises.  For grids of one shape and at least one sample the result
    has the shape of [ZI]; a cell from which no distance to a sample is
    NaN keeps its value when some sample is at a distance strictly
    below the threshold, and is NaN when no sample is. *)
Theorem mask_contract (libm_pow : float -> float -> float)
    (XI YI ZI : array2 float) (sample_points : list (float * float))
    (max_distance : float) :
  let N64 := Binary64.Float64 libm_pow in
  shape YI = shape XI -> shape ZI = shape XI ->
  (sample_points = [] ->
     mask_extrapolation_regions (N:=N64) (NaN:=Binary64.Float64_nan)
       XI YI ZI sample_points max_distance
     = Raise (ValueError
         "zero-size array to reduction operation minimum which has no identity"))
  /\ (sample_points <> [] ->
      exists M,
        mask_extrapolation_regions (N:=N64) (NaN:=Binary64.Float64_nan)
          XI YI ZI sample_points max_distance = Ok M
        /\ shape M = shape ZI
        /\ forall i j,
             (i < length ZI)%nat -> (j < length (nth i ZI []))%nat ->
             let u := (cell XI i j 0%float, cell YI i j 0%float) in
             Forall not_nan (map (euclidean (N:=N64) u) sample_points) ->
             ((exists s, In s sample_points
                         /\ flt (euclidean (N:=N64) u s) max_distance) ->
              cell M i j 0%float = cell ZI i j 0%float)
             /\ ((forall s, In s sample_points ->
                            ~ flt (euclidean (N:=N64) u s) max_distance) ->
                 cell M i j 0%float = nan)).
Proof.
  intros N64 HY HZ. split.
  - intros ->. reflexivity.
  - intros Hne. destruct sample_points as [|s0 S]; [congruence|].
    destruct (mask_extrapolation_regions (N:=N64) (NaN:=Binary64.Float64_nan)
                XI YI ZI (s0 :: S) max_distance) as [M|e] eqn:HM.
    2:{ rewrite mask_cellwise in HM by assumption. discriminate. }
    exists M. split; [reflexivity|]. split.
    + exact (@mask_shape _ N64 Binary64.Float64_nan XI YI ZI M (s0 :: S)
               max_distance HY HZ HM).
    + intros i j Hi Hj u Hnn.
      rewrite (@mask_cell_value _ N64 Binary64.Float64_nan XI YI ZI M s0 S
                 max_distance i j 0%float HY HZ HM Hi Hj).
      fold u. cbn [Fltb N64 Binary64.Float64 Fnan Binary64.Float64_nan].
      pose proof (@mask_keeps_iff_near libm_pow s0 S u max_distance Hnn) as Hiff.
      split.
      * intros Hex. apply Hiff in Hex. fold N64 in Hex. now rewrite Hex.
      * intros Hall.
        destruct (PrimFloat.ltb (min_distance (N:=N64) s0 S u) max_distance) eqn:E;
          [|reflexivity].
        apply Hiff in E. destruct E as (s & Hs & Hlt). now destruct (Hall s Hs).
Qed.

(** A run of [mask_contract]: a row of three cells at distances 0, 1
    and 2 from the one sample, threshold 1.5. *)
Lemma mask_contract_witness :
  exists M,
    mask_extrapolation_regions (N:=Binary64.Float64 Binary64.no_libm)
      (NaN:=Binary64.Float64_nan)
      [[0; 1; 2]]%float [[0; 0; 0]]%float [[5; 6; 7]]%float
      [(0, 0)%float] 1.5%float = Ok M
    /\ shape M = [3%nat]
    /\ cell M 0 1 0%float = 6%float.
Proof.
  destruct (@mask_contract Binary64.no_libm
              [[0; 1; 2]]%float [[0; 0; 0]]%float [[5; 6; 7]]%float
              [(0, 0)%float] 1.5%float eq_refl eq_refl) as [_ H].
  destruct H as (M & HM & Hs & Hc); [discriminate|].
  exists M. split; [exact HM|]. split; [exact Hs|].
  destruct (Hc 0%nat 1%nat) as [Hkeep _].
  - cbn. lia.
  - cbn. lia.
  - vm_compute. repeat constructor.
  - apply Hkeep. exists (0, 0)%float. split; [now left|].
    vm_compute. reflexivity.
Defined.

Section ContourAxes.
Context {F : Type}.

Lemma contour_x_meshgrid (xi yi : array F) (XI YI : array2 F) :
  np_meshgrid xi yi = (XI, YI) -> yi <> [] -> contour_x XI = Ok xi.
Proof.
  unfold np_meshgrid. intros H Hne. injection H as <- _.
  destruct yi; [congruence|reflexivity].
Qed.

Lemma contour_y_meshgrid (xi yi : array F) (XI YI : array2 F) :
  np_meshgrid xi yi = (XI, YI) -> xi <> [] -> contour_y YI = Ok yi.
Proof.
  unfold np_meshgrid. intros H Hne. injection H as _ <-.
  destruct xi as [|a xi]; [congruence|].
  induction yi as [|v yi IH]; [reflexivity|].
  cbn [map contour_y] in *. now rewrite IH.
Qed.

End ContourAxes.

(** X14.  The axes of the contour trace.  [create_interpolation_map]
    reads the axes of its contour back from the meshes, as [XI[0]] and
    [YI[:, 0]].  For every method, on the meshes of a call of
    [interpolate] that returned with a resolution of 1 or more these are
    the two coordinate sequences of the grid: [np.linspace] between the
    bounds used, of [grid_resolution] entries each.  On the meshes
    returned for the resolution 0 the row [XI[0]] does not exist. *)
Theorem contour_axes_are_grid_coordinates (F : Type) (N : Num F) (KA : bool)
    (Rbf : string -> F -> array F -> array F -> array F -> array2 F -> array2 F
           -> result (array2 F))
    (griddata : string -> array F -> array F -> array F -> array2 F -> array2 F
                -> result (array2 F))
    (OK UK : string -> array F -> array F -> array F -> array F -> array F
             -> result (array2 F))
    (self : InterpolationEngine (F:=F)) (x y z : array F) (res : Z) bounds
    (XI YI ZI : array2 F) :
  length y = length x -> length z = length x ->
  returned (interpolate KA Rbf griddata OK UK self x y z res bounds)
    = Ok (XI, YI, ZI) ->
  ((1 <= res)%Z ->
     exists min_x min_y max_x max_y xi yi,
       match bounds with
       | None => data_bounds (fst (fst (cleaned x y z))) (snd (fst (cleaned x y z)))
       | Some b => Ok b
       end = Ok (min_x, min_y, max_x, max_y)
       /\ np_linspace min_x max_x res = Ok xi
       /\ np_linspace min_y max_y res = Ok yi
       /\ length xi = Z.to_nat res /\ length yi = Z.to_nat res
       /\ contour_x XI = Ok xi
       /\ contour_y YI = Ok yi)
  /\ (res = 0%Z ->
      contour_x XI
      = Raise (IndexError "index 0 is out of bounds for axis 0 with size 0")).
Proof.
  intros Hy Hz H.
  destruct (interpolate_returns _ _ _ _ _ _ _ _ _ _ _ Hy Hz H)
    as (_ & x' & y' & z' & min_x & min_y & max_x & max_y & xi & yi
        & Hc & Hb & Hxi & Hyi & Hmesh & _).
  destruct (np_linspace_length _ _ _ Hxi) as [_ Lx].
  destruct (np_linspace_length _ _ _ Hyi) as [_ Ly].
  split.
  - intros Hres.
    exists min_x, min_y, max_x, max_y, xi, yi.
    rewrite Hc. cbn [fst snd].
    split; [exact Hb|]. split; [exact Hxi|]. split; [exact Hyi|].
    split; [exact Lx|]. split; [exact Ly|].
    assert (Hpos : (0 < Z.to_nat res)%nat) by lia.
    split.
    + apply (contour_x_meshgrid Hmesh). intros ->. cbn in Ly. lia.
    + apply (contour_y_meshgrid Hmesh). intros ->. cbn in Lx. lia.
  - intros ->. cbn in Lx, Ly.
    destruct xi; [|discriminate]. destruct yi; [|discriminate].
    unfold np_meshgrid in Hmesh. cbn in Hmesh. injection Hmesh as <- <-.
    reflexivity.
Qed.

(** A run of [contour_axes_are_grid_coordinates]: the 2 by 2 grid of
    three sources; the axes read back are the padded coordinates. *)
Lemma contour_axes_are_grid_coordinates_witness :
  exists xi yi,
    contour_x [[-0.05; 1.05]; [-0.05; 1.05]]%float = Ok xi
    /\ contour_y [[-0.05; -0.05]; [1.05; 1.05]]%float = Ok yi
    /\ length xi = 2%nat /\ length yi = 2%nat.
Proof.
  destruct (@contour_axes_are_grid_coordinates float
              (Binary64.Float64 Binary64.no_libm) false
              (failing7 "unused") (failing6 "unused")
              (failing6 "unused") (failing6 "unused")
              (default_idw (N:=Binary64.Float64 Binary64.no_libm))
              [0; 1; 0]%float [0; 0; 1]%float [1; 2; 3]%float 2%Z None
              [[-0.05; 1.05]; [-0.05; 1.05]]%float
              [[-0.05; -0.05]; [1.05; 1.05]]%float
              [[1.0134529147982063; 1.9977579160849137];
               [2.9887590065529999; 2.1994560290117859]]%float
              eq_refl eq_refl) as [H _].
  - vm_compute. reflexivity.
  - destruct H as (min_x & min_y & max_x & max_y & xi & yi
                   & _ & _ & _ & Lx & Ly & HX & HY); [lia|].
    exists xi, yi. repeat split; assumption.
Defined.

(* ================================================================== *)
(** ** Further properties: the caller [compute_interpolation] *)

Section App.
Context {F : Type} {N : Num F}.
Variable KRIGING_AVAILABLE : bool.
Variable Rbf : string -> F -> array F -> array F -> array F -> array2 F -> array2 F -> result (array2 F).
Variable griddata : string -> array F -> array F -> array F -> array2 F -> array2 F -> result (array2 F).
Variable OrdinaryKriging : string -> array F -> array F -> array F -> array F -> array F -> result (array2 F).
Variable UniversalKriging : string -> array F -> array F -> array F -> array F -> array F -> result (array2 F).
Local Open Scope string_scope.

Local Abbreviation interpolate' :=
  (interpolate KRIGING_AVAILABLE Rbf griddata OrdinaryKriging UniversalKriging).
Local Abbreviation dispatch' :=
  (dispatch KRIGING_AVAILABLE Rbf griddata OrdinaryKriging UniversalKriging).
Local Abbreviation compute' :=
  (compute_interpolation KRIGING_AVAILABLE Rbf griddata
     OrdinaryKriging UniversalKriging).

Lemma compute_too_few (m : string) (res : Z) (p : F) (v : string)
    (lon lat val : array F) :
  (length lon < 3)%nat -> compute' m res p v lon lat val = ret ([], None).
Proof.
  intros H. unfold compute_interpolation.
  apply Nat.ltb_lt in H. now rewrite H.
Qed.

Lemma compute_registered (m : string) (res : Z) (p : F) (v : string)
    (lon lat val : array F) :
  (3 <= length lon)%nat -> key_in m (METHODS KRIGING_AVAILABLE) = true ->
  compute' m res p v lon lat val
  = shown_or_grid (interpolate' (app_engine m p v) lon lat val res None).
Proof.
  intros Hn Hm. unfold compute_interpolation.
  assert (E : (length lon <? 3)%nat = false) by (apply Nat.ltb_ge; lia).
  rewrite E, (init_registered _ _ _ Hm), bind_lift_Ok. reflexivity.
Qed.

Lemma compute_unregistered (m : string) (res : Z) (p : F) (v : string)
    (lon lat val : array F) :
  (3 <= length lon)%nat -> key_in m (METHODS KRIGING_AVAILABLE) = false ->
  compute' m res p v lon lat val
  = Outcome [] (Raise (ValueError ("Unknown method: " ++ m ++ ". Available: "
                         ++ repr_list (keys (METHODS KRIGING_AVAILABLE))))).
Proof.
  intros Hn Hm. unfold compute_interpolation.
  assert (E : (length lon <? 3)%nat = false) by (apply Nat.ltb_ge; lia).
  rewrite E, (init_unregistered _ _ _ Hm). reflexivity.
Qed.

(** The caller passes the power to [idw] only and never a smoothing. *)
Lemma app_engine_parameters (m : string) (p : F) (v : string) :
  method (app_engine m p v) = m
  /\ smoothing (app_engine m p v) = Fof_Z 0
  /\ rbf_smooth (app_engine m p v) = Fof_Z 0
  /\ (m = "idw" -> power (app_engine m p v) = p)
  /\ (m <> "idw" -> power (app_engine m p v) = lit_2_0).
Proof.
  unfold app_engine, engine_kwargs.
  destruct (String.eqb_spec m "idw") as [->|Hne].
  - repeat split. intros H. now destruct H.
  - destruct (contains "kriging" m); repeat split; intros H; now destruct (Hne H).
Qed.

(** An [idw] call reads the power and the smoothing of its engine
    only. *)
Lemma interpolate_idw_parameters (self self' : InterpolationEngine (F:=F))
    (x y z : array F) (res : Z) bounds :
  method self = "idw" -> method self' = "idw" ->
  power self = power self' -> smoothing self = smoothing self' ->
  interpolate' self x y z res bounds = interpolate' self' x y z res bounds.
Proof.
  intros Hm Hm' Hp Hs. unfold interpolate.
  destruct (length x <? 3)%nat; [reflexivity|].
  destruct (valid_mask x y z) as [m|e0]; [|reflexivity].
  rewrite !bind_lift_Ok.
  destruct (mask_index x m) as [x'|e0]; [|reflexivity]. rewrite !bind_lift_Ok.
  destruct (mask_index y m) as [y'|e0]; [|reflexivity]. rewrite !bind_lift_Ok.
  destruct (mask_index z m) as [z'|e0]; [|reflexivity]. rewrite !bind_lift_Ok.
  destruct (match bounds with None => data_bounds x' y' | Some b => Ok b end)
    as [[[[min_x min_y] max_x] max_y]|e0]; [|reflexivity].
  rewrite !bind_lift_Ok.
  destruct (np_linspace min_x max_x res) as [xi|e0]; [|reflexivity].
  rewrite !bind_lift_Ok.
  destruct (np_linspace min_y max_y res) as [yi|e0]; [|reflexivity].
  rewrite !bind_lift_Ok.
  destruct (np_meshgrid xi yi) as [XI YI].
  rewrite !dispatch_idw by assumption.
  now rewrite (idw_parameters self self' x' y' z' XI YI Hp Hs).
Qed.

End App.

(** X15.  Which failures leave [compute_interpolation].  With fewer than
    three aggregated rows it returns no grid, shows nothing and
    constructs no engine, so that even an unknown method passes.  With
    three rows or more and a registered method it always returns: the
    grids of [interpolate] with nothing shown, or, when [interpolate]
    raises [e], no grid and the one message
    ["Interpolation failed: <e>"].  The constructor is outside the
    [try]: its [ValueError] for an unregistered method is raised to the
    caller. *)
Theorem compute_interpolation_failures (F : Type) (N : Num F) (KA : bool)
    (Rbf : string -> F -> array F -> array F -> array F -> array2 F -> array2 F
           -> result (array2 F))
    (griddata : string -> array F -> array F -> array F -> array2 F -> array2 F
                -> result (array2 F))
    (OK UK : string -> array F -> array F -> array F -> array F -> array F
             -> result (array2 F))
    (m : string) (grid_res : Z) (p : F) (v : string) (lon lat val : array F) :
  let r := compute_interpolation KA Rbf griddata OK UK m grid_res p v lon lat val in
  let i := interpolate KA Rbf griddata OK UK (app_engine m p v)
             lon lat val grid_res None in
  ((length lon < 3)%nat -> r = Outcome [] (Ok ([], None)))
  /\ ((3 <= length lon)%nat -> In m (keys (METHODS KA)) ->
      warned r = warned i
      /\ ((exists g, returned i = Ok g /\ returned r = Ok ([], Some g))
          \/ (exists e, returned i = Raise e
                /\ returned r
                   = Ok ([("Interpolation failed: " ++ exn_str e)%string], None))))
  /\ ((3 <= length lon)%nat -> ~ In m (keys (METHODS KA)) ->
      r = Outcome []
            (Raise (ValueError ("Unknown method: " ++ m ++ ". Available: "
                                ++ repr_list (keys (METHODS KA)))%string))).
Proof.
  intros r i. split; [|split].
  - intros H. unfold r. now rewrite compute_too_few.
  - intros Hn Hm. apply key_in_In in Hm. unfold r.
    rewrite compute_registered by assumption. fold i. unfold shown_or_grid.
    destruct (returned i) as [g|e].
    + split; [reflexivity|]. left. exists g. split; reflexivity.
    + split; [reflexivity|]. right. exists e. split; reflexivity.
  - intros Hn Hm. unfold r. apply compute_unregistered; [assumption|].
    destruct (key_in m (METHODS KA)) eqn:E; [|reflexivity].
    apply key_in_In in E. now destruct (Hm E).
Qed.

(** A run of [compute_interpolation_failures]: the triangulation of
    [linear] fails on three collinear rows; the message is shown and no
    grid is returned. *)
Lemma compute_interpolation_failures_witness :
  returned
    (compute_interpolation (N:=Binary64.Float64 Binary64.no_libm) false
       (failing7 "unused") (failing6 "QH6154 initial simplex is flat")
       (failing6 "unused") (failing6 "unused")
       "linear" 2 2%float "gaussian"
       [0; 1; 2]%float [0; 0; 0]%float [1; 2; 3]%float)
  = Ok (["Interpolation failed: QH6154 initial simplex is flat"%string], None).
Proof.
  destruct (@compute_interpolation_failures float
              (Binary64.Float64 Binary64.no_libm) false
              (failing7 "unused") (failing6 "QH6154 initial simplex is flat")
              (failing6 "unused") (failing6 "unused")
              "linear" 2%Z 2%float "gaussian"
              [0; 1; 2]%float [0; 0; 0]%float [1; 2; 3]%float)
    as (_ & H & _).
  destruct H as [_ [(g & Hi & _)|(e & Hi & Hr)]].
  - cbn. lia.
  - cbn. tauto.
  - vm_compute in Hi. discriminate Hi.
  - vm_compute in Hi. injection Hi as <-. exact Hr.
Defined.

(** X16.  The fallback as the application reaches it.
    [compute_interpolation] passes its [power] to the constructor for
    [idw] only, and never a smoothing.  So for a registered [rbf...] or
    [kriging...] method whose provider raises [e] on every call, three
    rows or more give exactly the outcome of the engine
    [InterpolationEngine('idw')], of power 2.0 and smoothing 0.0, on the
    same rows, whatever [power] and [variogram] are: its grids with the
    one fallback warning, or the message of its failure. *)
Theorem compute_interpolation_fallback_is_default_idw (F : Type) (N : Num F)
    (KA : bool)
    (Rbf : string -> F -> array F -> array F -> array F -> array2 F -> array2 F
           -> result (array2 F))
    (griddata : string -> array F -> array F -> array F -> array2 F -> array2 F
                -> result (array2 F))
    (OK UK : string -> array F -> array F -> array F -> array F -> array F
             -> result (array2 F))
    (m : string) (grid_res : Z) (p : F) (v : string) (lon lat val : array F)
    (e : exn) (w : string) :
  (3 <= length lon)%nat -> In m (keys (METHODS KA)) ->
  (String.prefix "rbf" m = true
   /\ (forall f s a b c A B, Rbf f s a b c A B = Raise e)
   /\ w = ("RBF interpolation failed: " ++ exn_str e
           ++ ". Falling back to IDW.")%string)
  \/ (String.prefix "kriging" m = true
      /\ (forall vm a b c xi yi, OK vm a b c xi yi = Raise e)
      /\ (forall vm a b c xi yi, UK vm a b c xi yi = Raise e)
      /\ w = ("Kriging failed: " ++ exn_str e
              ++ ". Falling back to IDW.")%string) ->
  compute_interpolation KA Rbf griddata OK UK m grid_res p v lon lat val
  = match returned (interpolate KA Rbf griddata OK UK default_idw
                      lon lat val grid_res None) with
    | Ok g => Outcome [w] (Ok ([], Some g))
    | Raise e' =>
        Outcome [] (Ok ([("Interpolation failed: " ++ exn_str e')%string], None))
    end.
Proof.
  intros Hn Hm Hfail.
  rewrite compute_registered by (try apply key_in_In; assumption).
  destruct (app_engine_parameters m p v) as (Em & Es & _ & _ & Ep).
  assert (Hidw : m <> "idw"%string).
  { intros ->. destruct Hfail as [(H & _)|(H & _)]; discriminate H. }
  assert (Hfb : interpolate KA Rbf griddata OK UK (app_engine m p v)
                  lon lat val grid_res None
                = match returned (interpolate KA Rbf griddata OK UK
                                    (as_idw (app_engine m p v))
                                    lon lat val grid_res None) with
                  | Ok g => Outcome [w] (Ok g)
                  | Raise e' => Outcome [] (Raise e')
                  end).
  { apply interpolate_when_dispatch_falls_back.
    intros x' y' z' xi yi. unfold dispatch. rewrite Em.
    destruct Hfail as [(Hp & HR & ->)|(Hp & HO & HU & ->)].
    - destruct (prefix_rbf_not_idw_nor_kriging _ Hp) as [E1 E2].
      rewrite E1, E2, Hp. unfold _rbf. rewrite HR. reflexivity.
    - assert (KA = true) as ->.
      { destruct KA; [reflexivity|]. cbn in Hm.
        repeat (destruct Hm as [<-|Hm]; [discriminate Hp|]). destruct Hm. }
      rewrite (prefix_kriging_not_idw _ Hp), Hp. unfold _kriging. cbn [negb].
      rewrite Em.
      destruct (String.eqb m "kriging_ordinary");
        rewrite ?HO, ?HU; cbn [try_except];
        destruct (np_meshgrid xi yi) as [XI YI]; reflexivity. }
  rewrite Hfb.
  rewrite (@interpolate_idw_parameters F N KA Rbf griddata OK UK
             (as_idw (app_engine m p v)) default_idw lon lat val grid_res None
             eq_refl eq_refl (Ep Hidw) Es).
  unfold shown_or_grid.
  destruct (returned (interpolate KA Rbf griddata OK UK default_idw
                        lon lat val grid_res None)); reflexivity.
Qed.

(** A run of [compute_interpolation_fallback_is_default_idw]: the
    Gaussian RBF fails on three rows and the power slider is at 4; the
    grid is that of power 2. *)
Lemma compute_interpolation_fallback_is_default_idw_witness :
  compute_interpolation (N:=Binary64.Float64 Binary64.no_libm) false
    (failing7 "Matrix is singular.") (failing6 "unused")
    (failing6 "unused") (failing6 "unused")
    "rbf_gaussian" 2 4%float "gaussian"
    [0; 1; 0]%float [0; 0; 1]%float [1; 2; 3]%float
  = Outcome ["RBF interpolation failed: Matrix is singular.. Falling back to IDW."%string]
      (Ok ([], Some ([[-0.05; 1.05]; [-0.05; 1.05]]%float,
                     [[-0.05; -0.05]; [1.05; 1.05]]%float,
                     [[1.0134529147982063; 1.9977579160849137];
                      [2.9887590065529999; 2.1994560290117859]]%float))).
Proof.
  rewrite (@compute_interpolation_fallback_is_default_idw float
             (Binary64.Float64 Binary64.no_libm) false
             (failing7 "Matrix is singular.") (failing6 "unused")
             (failing6 "unused") (failing6 "unused")
             "rbf_gaussian" 2%Z 4%float "gaussian"
             [0; 1; 0]%float [0; 0; 1]%float [1; 2; 3]%float
             (LibraryError "Matrix is singular.")
             "RBF interpolation failed: Matrix is singular.. Falling back to IDW.").
  - vm_compute. reflexivity.
  - cbn. lia.
  - cbn. tauto.
  - left. split; [reflexivity|]. split; [intros; reflexivity|reflexivity].
Defined.

(** X17.  What the application gets for [idw].  With three rows or
    more, of one length, exactly one of three things happens.  When
    every row has a NaN among its three entries, the message of numpy's
    zero-size reduction is shown; otherwise a negative resolution shows
    numpy's message for the number of samples, which quotes the
    resolution; otherwise the grids are returned, of [grid_res] rows,
    and they are those of the engine of the given [power] with smoothing
    0.0. *)
Theorem compute_interpolation_idw_outcomes (F : Type) (N : Num F) (KA : bool)
    (Rbf : string -> F -> array F -> array F -> array F -> array2 F -> array2 F
           -> result (array2 F))
    (griddata : string -> array F -> array F -> array F -> array2 F -> array2 F
                -> result (array2 F))
    (OK UK : string -> array F -> array F -> array F -> array F -> array F
             -> result (array2 F))
    (grid_res : Z) (p : F) (v : string) (lon lat val : array F) :
  (3 <= length lon)%nat -> length lat = length lon -> length val = length lon ->
  let r := compute_interpolation KA Rbf griddata OK UK "idw" grid_res p v
             lon lat val in
  let x' := fst (fst (cleaned lon lat val)) in
  (x' = [] ->
   returned r
   = Ok (["Interpolation failed: zero-size array to reduction operation minimum which has no identity"%string],
         None))
  /\ (x' <> [] -> (grid_res < 0)%Z ->
      returned r
      = Ok ([("Interpolation failed: Number of samples, " ++ str_int grid_res
              ++ ", must be non-negative.")%string],
            None))
  /\ (x' <> [] -> (0 <= grid_res)%Z ->
      exists XI YI ZI,
        returned r = Ok ([], Some (XI, YI, ZI))
        /\ length ZI = Z.to_nat grid_res
        /\ returned (interpolate KA Rbf griddata OK UK
                       (Engine "idw" p (Fof_Z 0) "gaussian" (Fof_Z 0))
                       lon lat val grid_res None)
           = Ok (XI, YI, ZI)).
Proof.
  intros Hn Hy Hz r x'.
  assert (Hreg : key_in "idw" (METHODS KA) = true) by (destruct KA; reflexivity).
  assert (Er : r = shown_or_grid
                     (interpolate KA Rbf griddata OK UK
                        (Engine "idw" p (Fof_Z 0) "gaussian" (Fof_Z 0))
                        lon lat val grid_res None)).
  { unfold r. now rewrite compute_registered by assumption. }
  rewrite Er. clear Er r.
  rewrite interpolate_cleaned by assumption.
  pose proof (@bounds_step F N lon lat val None Hy Hz) as Hb.
  unfold x'. clear x'.
  destruct (cleaned lon lat val) as [[a b] c]. cbn [fst snd] in *.
  destruct a as [|a0 a].
  - split; [reflexivity|].
    split; intros H; now destruct H.
  - destruct Hb as ([[[min_x min_y] max_x] max_y] & Eb); [intros _; discriminate|].
    rewrite Eb, bind_lift_Ok.
    destruct (Z.lt_ge_cases grid_res 0) as [Hneg|Hpos].
    + rewrite np_linspace_negative by assumption.
      split; [discriminate|].
      split; [reflexivity|]. intros _ H. lia.
    + destruct (np_linspace_nonneg min_x max_x Hpos) as [xi Hxi].
      destruct (np_linspace_nonneg min_y max_y Hpos) as [yi Hyi].
      rewrite Hxi, bind_lift_Ok, Hyi, bind_lift_Ok.
      destruct (np_linspace_length _ _ _ Hyi) as [_ Ly].
      destruct (np_meshgrid xi yi) as [XI YI] eqn:Hmesh.
      rewrite dispatch_idw by reflexivity.
      split; [discriminate|].
      split; [intros _ H; lia|]. intros _ _.
      eexists XI, YI, _. split; [reflexivity|]. split; [|reflexivity].
      destruct (np_meshgrid_rows Hmesh) as (LX & LY & _).
      unfold _idw. rewrite zip_with_length. lia.
Qed.

(** A run of [compute_interpolation_idw_outcomes]: three rows, each with
    a NaN; the application shows the message of the reduction. *)
Lemma compute_interpolation_idw_outcomes_witness :
  returned
    (compute_interpolation (N:=Binary64.Float64 Binary64.no_libm) false
       (failing7 "unused") (failing6 "unused")
       (failing6 "unused") (failing6 "unused")
       "idw" 2 2%float "gaussian"
       [nan; 1; 2]%float [0; nan; 0]%float [1; 2; nan]%float)
  = Ok (["Interpolation failed: zero-size array to reduction operation minimum which has no identity"%string],
        None).
Proof.
  destruct (@compute_interpolation_idw_outcomes float
              (Binary64.Float64 Binary64.no_libm) false
              (failing7 "unused") (failing6 "unused")
              (failing6 "unused") (failing6 "unused")
              2%Z 2%float "gaussian"
              [nan; 1; 2]%float [0; nan; 0]%float [1; 2; nan]%float)
    as (H & _).
  - cbn. lia.
  - reflexivity.
  - reflexivity.
  - apply H. vm_compute. reflexivity.
Defined.

(* ================================================================== *)
(** ** Further properties: IDW in exact arithmetic *)

Section IdwEquivariance.
Import Exact.
Local Open Scope R_scope.

Lemma zip_with_map_both {A A' B B' C} (f : A' -> B' -> C) (g : A -> A')
    (h : B -> B') (a : list A) (b : list B) :
  zip_with f (map g a) (map h b) = zip_with (fun u v => f (g u) (h v)) a b.
Proof.
  revert b. induction a as [|u a IH]; intros [|v b]; try reflexivity.
  cbn [map]. rewrite !zip_with_cons. now rewrite IH.
Qed.

Lemma zip_with_map_r {A B B' C} (f : A -> B' -> C) (h : B -> B')
    (a : list A) (b : list B) :
  zip_with f a (map h b) = zip_with (fun u v => f u (h v)) a b.
Proof.
  revert b. induction a as [|u a IH]; intros [|v b]; try reflexivity.
  cbn [map]. rewrite !zip_with_cons. now rewrite IH.
Qed.

Lemma map_zip_with {A B C D} (g : C -> D) (f : A -> B -> C)
    (a : list A) (b : list B) :
  map g (zip_with f a b) = zip_with (fun u v => g (f u v)) a b.
Proof.
  revert b. induction a as [|u a IH]; intros [|v b]; try reflexivity.
  rewrite !zip_with_cons. cbn [map]. now rewrite IH.
Qed.

Lemma zip_with_ext_all {A B C} (f g : A -> B -> C) (a : list A) (b : list B) :
  (forall u v, f u v = g u v) -> zip_with f a b = zip_with g a b.
Proof.
  intros H. revert b. induction a as [|u a IH]; intros [|v b]; try reflexivity.
  rewrite !zip_with_cons. now rewrite IH, H.
Qed.

(** The weighted sum of affinely transformed values. *)
Lemma weighted_sum_affine (a b : R) (w z : list R) :
  length z = length w ->
  np_sum (zip_with Rmult w (map (fun v => a * v + b) z))
  = a * np_sum (zip_with Rmult w z) + b * np_sum w.
Proof.
  revert z. induction w as [|u w IH]; intros [|v z] Hlen; cbn in Hlen; try lia.
  - unfold np_sum. cbn. lra.
  - cbn [map]. rewrite !zip_with_cons, !np_sum_cons, IH by lia. ring.
Qed.

Lemma idw_cell_affine (self : InterpolationEngine (F:=R)) (x y z : list R)
    (gx gy a b : R) :
  x <> [] -> length y = length x -> length z = length x ->
  idw_cell self x y (map (fun v => a * v + b) z) gx gy
  = a * idw_cell self x y z gx gy + b.
Proof.
  intros Hne Hy Hz. unfold idw_cell.
  set (d := idw_distances self x y gx gy).
  assert (Ld : length d = length x).
  { unfold d. rewrite idw_distances_length. lia. }
  assert (Hd : d <> []).
  { intros E. rewrite E in Ld. destruct x; [congruence|discriminate]. }
  destruct (np_any (map (fun v => v <? lit_1e_10)%num d)).
  - pose proof (np_argmin_bound Hd) as Hk.
    cbn [Fof_Z Real].
    rewrite (nth_indep _ 0 (a * 0 + b)) by (rewrite length_map; lia).
    apply (map_nth (fun v => a * v + b)).
  - set (w := idw_weights self d).
    assert (Lw : length w = length x).
    { unfold w, idw_weights. now rewrite length_map. }
    assert (Hpos : 0 < np_sum w).
    { apply np_sum_pos.
      - intros E. rewrite E in Lw. destruct x; [congruence|discriminate].
      - apply idw_weights_pos. }
    cbn [Fmul Fdiv Real].
    rewrite weighted_sum_affine by lia.
    field. lra.
Qed.

Lemma idw_distances_shift (self : InterpolationEngine (F:=R)) (x y : list R)
    (gx gy tx ty : R) :
  idw_distances self (map (fun v => v + tx) x) (map (fun v => v + ty) y)
    (gx + tx) (gy + ty)
  = idw_distances self x y gx gy.
Proof.
  unfold idw_distances. rewrite !map_map.
  assert (Ex : map (fun v => ((v + tx) - (gx + tx)) * ((v + tx) - (gx + tx))) x
               = map (fun xk => (xk - gx) * (xk - gx)) x)
    by (apply map_ext; intros v; ring).
  assert (Ey : map (fun v => ((v + ty) - (gy + ty)) * ((v + ty) - (gy + ty))) y
               = map (fun yk => (yk - gy) * (yk - gy)) y)
    by (apply map_ext; intros v; ring).
  cbn [Fmul Fsub Fadd Real] in *. now rewrite Ex, Ey.
Qed.

End IdwEquivariance.

(** X18.  A change of unit of the values commutes with IDW, in exact
    arithmetic.  For sources of one length, at least one of them, and
    any power and smoothing, the grid of the values [a * z + b] is the
    grid of the values [z] with every cell mapped to [a * cell + b]:
    both branches of a cell, the nearest source and the weighted
    average, are affine in the values. *)
Theorem idw_affine_in_values (self : InterpolationEngine (F:=R))
    (x y z : list R) (XI YI : list (list R)) (a b : R) :
  x <> [] -> length y = length x -> length z = length x ->
  _idw (N:=Exact.Real) self x y (map (fun v => a * v + b)%R z) XI YI
  = map (map (fun v => a * v + b)%R) (_idw (N:=Exact.Real) self x y z XI YI).
Proof.
  intros Hne Hy Hz. unfold _idw.
  rewrite map_zip_with. apply zip_with_ext_all. intros XIi YIi.
  rewrite map_zip_with. apply zip_with_ext_all. intros gx gy.
  now apply idw_cell_affine.
Qed.

(** A run of [idw_affine_in_values]: three sources, values in another
    unit. *)
Lemma idw_affine_in_values_witness :
  _idw (N:=Exact.Real) (default_idw (N:=Exact.Real)) [0; 1; 0]%R [0; 0; 1]%R
    (map (fun v => 1000 * v + 0)%R [1; 2; 3]%R) [[0; 1]]%R [[0; 1]]%R
  = map (map (fun v => 1000 * v + 0)%R)
      (_idw (N:=Exact.Real) (default_idw (N:=Exact.Real)) [0; 1; 0]%R [0; 0; 1]%R [1; 2; 3]%R
         [[0; 1]]%R [[0; 1]]%R).
Proof.
  apply (@idw_affine_in_values (default_idw (N:=Exact.Real)) [0; 1; 0]%R [0; 0; 1]%R [1; 2; 3]%R
           [[0; 1]]%R [[0; 1]]%R 1000%R 0%R).
  - discriminate.
  - reflexivity.
  - reflexivity.
Defined.

(** X19.  IDW depends on the positions of the cells relative to the
    sources only, in exact arithmetic: moving every source and every
    grid point by the same vector [(tx, ty)] leaves the grid of
    estimates unchanged, for any power and smoothing and any arrays. *)
Theorem idw_translation_invariant (self : InterpolationEngine (F:=R))
    (x y z : list R) (XI YI : list (list R)) (tx ty : R) :
  _idw (N:=Exact.Real) self
    (map (fun v => v + tx)%R x) (map (fun v => v + ty)%R y) z
    (map (map (fun v => v + tx)%R) XI) (map (map (fun v => v + ty)%R) YI)
  = _idw (N:=Exact.Real) self x y z XI YI.
Proof.
  unfold _idw. rewrite zip_with_map_both. apply zip_with_ext_all.
  intros XIi YIi. rewrite zip_with_map_both. apply zip_with_ext_all.
  intros gx gy. unfold idw_cell. now rewrite idw_distances_shift.
Qed.
